(** * Fresh core: route ordering, route composition, dispatch and redirects

    A shallow embedding of the parts of
    [@fresh/core/2.0.0-alpha.8] that decide which handler chain runs for a
    request:
    - [sortRoutePaths], [getRoutePathScore], [fsRoutes], [errorMiddleware]
      and [notFoundMiddleware], the file-system routes plugin that follows
      the file-system adapter in src/fs.ts;
    - [renderMiddleware], src/plugins/fs_routes/render_middleware.ts;
    - [FreshReqContext.redirect], the request context that follows the
      configuration in src/config.ts;
    - [App.island], [App.mountApp] and [App.handler], the application class
      (unnamed/part_000);
    - the runtime's [Response] and [Headers] constructors, after the Fetch
      standard, where [redirect] and the handler call them;
    - the walk of the routes folder with its route groups ([GROUP_REG],
      [walkDir]), src/fs.ts;
    - the record that [bundleJs] builds from the metafile of a bundle,
      src/dev/esbuild.ts.

    JavaScript strings are modelled as [string]; a one-character string or
    the empty string returned by [charAt] (and the [undefined] returned by an
    out-of-range index) is an [option ascii] with [None] for "no character".
    Numbers that the code compares or returns are [Z]; indices are [nat]. *)

From Stdlib Require Import ZArith Lia Bool Ascii String List.
From stdpp Require Import base option list strings gmap sorting pretty.

Local Open Scope Z_scope.

(** ** JavaScript string primitives used by the sources *)

Module JsString.

(** [s.charAt(i)] and [s[i]]: [None] stands for [""] / [undefined]. *)
Definition charAt (s : string) (i : nat) : option ascii := String.get i s.

(** [c === "x"] for a character obtained from [charAt] or indexing. *)
Definition chr_is (c : option ascii) (x : ascii) : bool :=
  match c with
  | Some y => Ascii.eqb y x
  | None => false
  end.

(** [c1 === c2] on results of [charAt]. *)
Definition chr_eqb (c1 c2 : option ascii) : bool :=
  match c1, c2 with
  | Some x, Some y => Ascii.eqb x y
  | None, None => true
  | _, _ => false
  end.

(** [c1 < c2] on results of [charAt]: the empty string is below every
    character, characters compare by code unit. *)
Definition chr_ltb (c1 c2 : option ascii) : bool :=
  match c1, c2 with
  | None, Some _ => true
  | Some x, Some y => (nat_of_ascii x <? nat_of_ascii y)%nat
  | _, None => false
  end.

(** [s.startsWith(p)]. *)
Definition startsWith (s p : string) : bool := String.prefix p s.

(** [s.endsWith(p)]. *)
Definition endsWith (s p : string) : bool :=
  String.prefix (String.rev p) (String.rev s).

(** [s.indexOf(c)] for a one-character needle; [-1] when absent. *)
Fixpoint indexOf_from (s : string) (c : ascii) (i : Z) : Z :=
  match s with
  | EmptyString => -1
  | String x rest => if Ascii.eqb x c then i else indexOf_from rest c (i + 1)
  end.

Definition indexOf (s : string) (c : ascii) : Z := indexOf_from s c 0.

(** [s.lastIndexOf(c)] for a one-character needle; [-1] when absent. *)
Fixpoint lastIndexOf_from (s : string) (c : ascii) (i : Z) (found : Z) : Z :=
  match s with
  | EmptyString => found
  | String x rest =>
      lastIndexOf_from rest c (i + 1) (if Ascii.eqb x c then i else found)
  end.

Definition lastIndexOf (s : string) (c : ascii) : Z := lastIndexOf_from s c 0 (-1).

(** Index normalisation of [slice]: negative indices count from the end,
    everything is clamped to [0 .. length]. *)
Definition clampIndex (len : nat) (k : Z) : nat :=
  if k <? 0 then Z.to_nat (Z.max (Z.of_nat len + k) 0)
  else Z.to_nat (Z.min k (Z.of_nat len)).

(** [s.slice(start, end)]. *)
Definition slice (s : string) (start end_ : Z) : string :=
  let from := clampIndex (String.length s) start in
  let to := clampIndex (String.length s) end_ in
  substring from (to - from)%nat s.

(** [s.slice(start)]. *)
Definition sliceFrom (s : string) (start : Z) : string :=
  let from := clampIndex (String.length s) start in
  substring from (String.length s - from)%nat s.

(** [s.replaceAll(/\/+/g, "/")]: every maximal run of slashes becomes one
    slash. *)
Fixpoint collapseSlashes (s : string) : string :=
  match s with
  | EmptyString => EmptyString
  | String c rest =>
      if Ascii.eqb c "/" then
        match rest with
        | String c' _ =>
            if Ascii.eqb c' "/" then collapseSlashes rest
            else String "/" (collapseSlashes rest)
        | EmptyString => String "/" EmptyString
        end
      else String c (collapseSlashes rest)
  end.

End JsString.

Import JsString.

(** ** Route path ordering (src/fs.ts, lines 412-492) *)

(** [APP_REG = /_app(?!\.[tj]sx?)?$/]: the look-ahead group is optional, so
    the expression matches exactly the strings that end in [_app]. *)
Definition APP_REG_test (s : string) : bool := endsWith s "_app".

(** [getRoutePathScore(char, s, i)]. *)
Definition getRoutePathScore (char : option ascii) (s : string) (i : nat) : Z :=
  if chr_is char "_" then
    if (i + 1 <? String.length s)%nat then
      if chr_is (charAt s (i + 1)) "e" then 6
      else if chr_is (charAt s (i + 1)) "m" then 5
      else 4
    else 4
  else if chr_is char "[" then
    if (i + 1 <? String.length s)%nat && chr_is (charAt s (i + 1)) "." then 0
    else 1
  else if (Z.of_nat i + 4 =? Z.of_nat (String.length s) - 1)
          && chr_is char "i" && chr_is (charAt s (i + 1)) "n"
          && chr_is (charAt s (i + 2)) "d" && chr_is (charAt s (i + 3)) "e"
          && chr_is (charAt s (i + 4)) "x" then 3
  else 2.

(** One iteration of the [for] loop of [sortRoutePaths]: either the
    comparator returns, or the loop goes on with an updated [segmentIdx]. *)
Inductive LoopStep : Type :=
  | Return (result : Z)
  | Continue (segmentIdx : nat).

Definition sortRoutePaths_body (a b : string) (i segmentIdx : nat) : LoopStep :=
  let charA := charAt a i in
  let charB := charAt b i in
  if chr_is charA "/" || chr_is charB "/" then
    (* segmentIdx = i *)
    if negb (chr_is charA "/") then Return 1
    else if negb (chr_is charB "/") then Return (-1)
    else Continue i
  else if (i =? segmentIdx + 1)%nat then
    let scoreA := getRoutePathScore charA a i in
    let scoreB := getRoutePathScore charB b i in
    if scoreA =? scoreB then
      if negb (chr_eqb charA charB) then
        Return (if chr_ltb charA charB then 0 else 1)
      else Continue segmentIdx
    else Return (if scoreA >? scoreB then -1 else 1)
  else if negb (chr_eqb charA charB) then
    Return (if chr_ltb charA charB then 0 else 1)
  else Continue segmentIdx.

(** The loop [for (let i = 0; i < maxLen; i++)], started at index [i] with
    [remaining = maxLen - i] iterations left; falling out of the loop
    returns [0]. *)
Fixpoint sortRoutePaths_loop (a b : string) (remaining i segmentIdx : nat) : Z :=
  match remaining with
  | O => 0
  | S remaining' =>
      match sortRoutePaths_body a b i segmentIdx with
      | Return r => r
      | Continue segmentIdx' =>
          sortRoutePaths_loop a b remaining' (S i) segmentIdx'
      end
  end.

(** [sortRoutePaths(a, b)]. *)
Definition sortRoutePaths (a b : string) : Z :=
  if APP_REG_test a then -1
  else if APP_REG_test b then 1
  else
    let aLen := String.length a in
    let bLen := String.length b in
    let maxLen := if (bLen <? aLen)%nat then aLen else bLen in
    sortRoutePaths_loop a b maxLen 0 0.

(** [Array.prototype.sort(compareFn)] is the host's.  It is modelled as a
    stable insertion sort: the elements are taken left to right and each one
    is placed in front of the first element it compares below.  This is the
    order of every stable sort when the comparator answers consistently on
    the elements; where it does not (a pair that gets [0] one way and [1]
    the other) the order of the host's sort is its own and may differ from
    this one. *)
Fixpoint arraySort_insert {A : Type} (compareFn : A -> A -> Z) (x : A)
    (sorted : list A) : list A :=
  match sorted with
  | [] => [x]
  | y :: rest =>
      if compareFn x y <? 0 then x :: y :: rest
      else y :: arraySort_insert compareFn x rest
  end.

Definition arraySort {A : Type} (compareFn : A -> A -> Z) (l : list A) : list A :=
  fold_left (fun sorted x => arraySort_insert compareFn x sorted) l [].

(** What it means for a comparator to present a total order: comparing an
    element with itself gives [0], swapping the arguments swaps the sign,
    distinct elements are never tied, and "below" is transitive. *)
Record ComparatorTotalOrder {A : Type} (cmp : A -> A -> Z) : Prop := {
  cto_refl : forall a, cmp a a = 0;
  cto_antisym : forall a b, cmp a b < 0 -> 0 < cmp b a;
  cto_total : forall a b, a <> b -> cmp a b < 0 \/ cmp b a < 0;
  cto_trans : forall a b c, cmp a b < 0 -> cmp b c < 0 -> cmp a c < 0
}.

(** ** Values that flow through handlers and middlewares *)

Record Response : Type := mkResponse {
  status : Z;
  headers : list (string * string);
  body : option string
}.

(** A thrown value: an [HttpError] (it carries a status and a message) or
    anything else. *)
Inductive Thrown : Type :=
  | HttpError (status : Z) (message : string)
  | OtherThrown (description : string).

(** [err instanceof HttpError && err.status === 404]. *)
Definition isNotFound (err : Thrown) : bool :=
  match err with
  | HttpError st _ => st =? 404
  | OtherThrown _ => false
  end.

(** The result of [await e] or of a [try] block: a value or an exception. *)
Inductive Completion (A : Type) : Type :=
  | Normal (a : A)
  | Throw (e : Thrown).
Arguments Normal {A} a.
Arguments Throw {A} e.

(** What a handler hands back: a [Response], or a render object
    [{ data }] (possibly [undefined]). *)
Inductive Returned : Type :=
  | Resp (r : Response)
  | Render (data : option string).

(** What a call [f(ctx)] does, before anything is awaited: it throws
    synchronously, or it returns a value or a promise that is fulfilled or
    rejected. *)
Inductive Outcome : Type :=
  | SyncThrow (e : Thrown)
  | Fulfilled (v : Returned)
  | Rejected (e : Thrown).

(** [await f(ctx)] inside a [try] block. *)
Definition await (o : Outcome) : Completion Returned :=
  match o with
  | SyncThrow e => Throw e
  | Fulfilled v => Normal v
  | Rejected e => Throw e
  end.

(** The result of an [async] function whose body evaluates to [o]: an
    exception in the body rejects the returned promise. *)
Definition async (o : Outcome) : Outcome :=
  match o with
  | SyncThrow e => Rejected e
  | other => other
  end.

(** Virtual nodes: [null], a node built by [h(component, props)] whose
    [Component] prop renders the child, or a node made by a component. *)
Inductive VNode : Type :=
  | vnull
  | h (component : nat) (url : string) (params : list (string * string))
      (error : option Thrown) (data : option string) (Component : VNode)
  | vtext (text : string).

(** The request context.  [ctx.render] is a method of the context; its
    renderer is outside the core. *)
Record FreshContext : Type := mkContext {
  ctx_url : string;
  ctx_params : list (string * string);
  ctx_state : list (string * string);
  ctx_error : option Thrown;
  ctx_render : VNode -> Completion Response
}.

(** [ctx.error = err]. *)
Definition set_error (ctx : FreshContext) (err : Thrown) : FreshContext :=
  {| ctx_url := ctx_url ctx; ctx_params := ctx_params ctx;
     ctx_state := ctx_state ctx; ctx_error := Some err;
     ctx_render := ctx_render ctx |}.

(** [ctx.params = params]. *)
Definition set_params (ctx : FreshContext) (params : list (string * string))
    : FreshContext :=
  {| ctx_url := ctx_url ctx; ctx_params := params;
     ctx_state := ctx_state ctx; ctx_error := ctx_error ctx;
     ctx_render := ctx_render ctx |}.

(** [ctx.next]: running the rest of the chain on the context as it is when
    [next()] is called; the context comes back as the chain left it. *)
Definition Next : Type := FreshContext -> Outcome * FreshContext.

(** A function taking the context (a route handler or a middleware), with
    its declared parameter count [fn.length]. *)
Record HandlerFn : Type := mkHandlerFn {
  fn_length : nat;
  fn_call : Next -> FreshContext -> Outcome * FreshContext
}.

(** Page, layout and app components: plain function components, or
    [AsyncFunction]s that are awaited and may answer with a [Response]. *)
Inductive AnyComponent : Type :=
  | FunctionComponent (id : nat)
  | AsyncComponent
      (run : FreshContext -> VNode -> Completion (VNode + Response)).

(** ** Rendering and boundary middlewares (render_middleware.ts; src/fs.ts,
    lines 360-390) *)

(** A middleware as a function: it receives [ctx.next] and the context. *)
Definition Middleware : Type := Next -> FreshContext -> Outcome * FreshContext.

(** The loop [for (let i = components.length - 1; i >= 0; i--)] of
    [renderMiddleware]: the innermost component is built first and becomes
    the [Component] child of the one before it.  An async component may
    answer with a [Response], which ends the loop. *)
Fixpoint renderMiddleware_vnode (components : list AnyComponent)
    (ctx : FreshContext) (data : option string)
    : Completion (VNode + Response) :=
  match components with
  | [] => Normal (inl vnull)
  | fn :: inner =>
      match renderMiddleware_vnode inner ctx data with
      | Normal (inl child) =>
          match fn with
          | AsyncComponent run => run ctx child
          | FunctionComponent id =>
              Normal (inl (h id (ctx_url ctx) (ctx_params ctx) (ctx_error ctx)
                             data child))
          end
      | other => other
      end
  end.

Definition no_components_error : Thrown :=
  OtherThrown "Did not receive any components to render.".

(** [renderMiddleware(components, handler)]. *)
Definition renderMiddleware (components : list AnyComponent)
    (handler : option HandlerFn) : Middleware :=
  fun next ctx =>
    let render_with (ctx : FreshContext) (data : option string) :=
      if (length components =? 0)%nat then (Rejected no_components_error, ctx)
      else
        match renderMiddleware_vnode components ctx data with
        | Throw e => (Rejected e, ctx)
        | Normal (inr response) => (Fulfilled (Resp response), ctx)
        | Normal (inl vnode) =>
            match ctx_render ctx vnode with
            | Normal response => (Fulfilled (Resp response), ctx)
            | Throw e => (Rejected e, ctx)
            end
        end in
    match handler with
    | Some handler =>
        let '(res, ctx1) := fn_call handler next ctx in
        match await res with
        | Throw e => (Rejected e, ctx1)
        | Normal (Resp response) => (Fulfilled (Resp response), ctx1)
        | Normal (Render data) => render_with ctx1 data
        end
    | None => render_with ctx None
    end.

(** [errorMiddleware(components, handler)]. *)
Definition errorMiddleware (components : list AnyComponent)
    (handler : option HandlerFn) : Middleware :=
  let mid := renderMiddleware components handler in
  fun next ctx =>
    let '(res, ctx1) := next ctx in
    match await res with
    | Normal v => (Fulfilled v, ctx1)
    | Throw err =>
        let ctx2 := set_error ctx1 err in
        let '(res2, ctx3) := mid next ctx2 in
        (async res2, ctx3)
    end.

(** [notFoundMiddleware(components, handler)]. *)
Definition notFoundMiddleware (components : list AnyComponent)
    (handler : option HandlerFn) : Middleware :=
  let mid := renderMiddleware components handler in
  fun next ctx =>
    let '(res, ctx1) := next ctx in
    match await res with
    | Normal v => (Fulfilled v, ctx1)
    | Throw err =>
        if isNotFound err then
          let '(res2, ctx2) := mid next ctx1 in
          (async res2, ctx2)
        else (Rejected err, ctx1)
    end.

(** The middleware functions that [fsRoutes] hands to the application: a
    function exported by a route module, or one of the three closures built
    above, kept together with the arguments they close over. *)
Inductive MiddlewareFn : Type :=
  | ExportedFn (fn : HandlerFn)
  | RenderMiddleware (components : list AnyComponent) (handler : option HandlerFn)
  | ErrorMiddleware (components : list AnyComponent) (handler : option HandlerFn)
  | NotFoundMiddleware (components : list AnyComponent) (handler : option HandlerFn).

(** Calling a middleware function. *)
Definition callMiddleware (fn : MiddlewareFn) : Middleware :=
  match fn with
  | ExportedFn f => fn_call f
  | RenderMiddleware components handler => renderMiddleware components handler
  | ErrorMiddleware components handler => errorMiddleware components handler
  | NotFoundMiddleware components handler => notFoundMiddleware components handler
  end.

(** ** Route modules and their composition ([fsRoutes], src/fs.ts, lines
    103-358) *)

Record RouteConfig : Type := mkRouteConfig {
  routeOverride : option string;
  skipAppWrapper : bool;
  skipInheritedLayouts : bool
}.

Inductive Method : Type := GET | POST | PATCH | PUT | DELETE | HEAD.

(** What a module exports as [handler] / [handlers]: one function, an
    object keyed by method (a key may hold [undefined]), or an array of
    functions. *)
Inductive RouteHandler : Type :=
  | HandlerFunction (fn : HandlerFn)
  | HandlerByMethod (byMethod : list (Method * option HandlerFn))
  | HandlerArray (fns : list HandlerFn).

(** Modelled from the spec: [isHandlerByMethod] of handlers.ts, which is not
    among the sources.  The spec has the method handlers be "either a single
    catch-all handler, or a mapping from HTTP method to handler"; the test
    separates the function from the objects, so that an array falls to the
    [Array.isArray] branch that follows it in [fsRoutes]. *)
Definition isHandlerByMethod (handlers : RouteHandler) : bool :=
  match handlers with
  | HandlerFunction _ => false
  | HandlerByMethod _ => true
  | HandlerArray _ => true
  end.

(** [Object.keys(handlers).length]. *)
Definition handler_keys_length (handlers : RouteHandler) : nat :=
  match handlers with
  | HandlerFunction _ => 0
  | HandlerByMethod byMethod => length byMethod
  | HandlerArray fns => length fns
  end.

Record FreshFsItem : Type := mkFsItem {
  mod_config : option RouteConfig;
  mod_handler : option RouteHandler;
  mod_handlers : option RouteHandler;
  mod_default : option AnyComponent
}.

Record InternalRoute : Type := mkRoute {
  path : string;
  base : string;
  filePath : string;
  config : option RouteConfig;
  handlers : option RouteHandler;
  component : option AnyComponent
}.

(** [x !== undefined] for an optional export. *)
Definition exported {A : Type} (x : option A) : bool :=
  match x with
  | Some _ => true
  | None => false
  end.

(** [isFreshFile(mod)] on a loaded module object. *)
Definition isFreshFile (m : FreshFsItem) : bool :=
  exported (mod_default m) || exported (mod_config m)
  || exported (mod_handlers m) || exported (mod_handler m).

(** [a ?? b]. *)
Definition nullish {A : Type} (a b : option A) : option A :=
  match a with
  | Some _ => a
  | None => b
  end.

Definition not_a_route_error (routePath : string) : Thrown :=
  OtherThrown ("Expected a route, middleware, layout or error template, but couldn't find relevant exports in: " +:+ routePath).

(** The [Error] for a handler function with more than one parameter.  Its
    message names the file as [path.join(routesDir, routePath)]; the
    description kept here names it by [routePath] alone, the part that does
    not depend on the routes folder. *)
Definition handler_arity_error (routePath : string) : Thrown :=
  OtherThrown ("Handlers must only have one argument but found more than one. Check the function signature in: " +:+ routePath).

(** [`/${routePath.slice(0, routePath.lastIndexOf("."))}`]. *)
Definition normalizedPath_of (routePath : string) : string :=
  "/" +:+ slice routePath 0 (lastIndexOf routePath ".").

(** The body of [relRoutePaths.map(async (routePath) => ...)] for one file
    and the module that [loadRoute] gave for it. *)
Definition loadRouteModule (routePath : string) (m : FreshFsItem)
    : Completion InternalRoute :=
  if negb (isFreshFile m) then Throw (not_a_route_error routePath)
  else
    let handlers := nullish (mod_handlers m) (mod_handler m) in
    let too_many_arguments :=
      match handlers with
      | Some (HandlerFunction fn) => (1 <? fn_length fn)%nat
      | _ => false
      end in
    if too_many_arguments then Throw (handler_arity_error routePath)
    else
      let normalizedPath := normalizedPath_of routePath in
      Normal {| path := normalizedPath;
                base := slice normalizedPath 0 (lastIndexOf normalizedPath "/");
                filePath := routePath;
                config := mod_config m;
                handlers := handlers;
                component := mod_default m |}.

(** [Promise.all(relRoutePaths.map(...))]: the modules in the order of the
    paths, or the first failure. *)
Fixpoint loadRouteModules (files : list (string * FreshFsItem))
    : Completion (list InternalRoute) :=
  match files with
  | [] => Normal []
  | (routePath, m) :: rest =>
      match loadRouteModule routePath m with
      | Throw e => Throw e
      | Normal route =>
          match loadRouteModules rest with
          | Throw e => Throw e
          | Normal routes => Normal (route :: routes)
          end
      end
  end.

(** A call that [fsRoutes] makes on the application. *)
Inductive AppCall : Type :=
  | app_use (middleware : MiddlewareFn)
  | app_get (path : string) (middlewares : list MiddlewareFn)
  | app_post (path : string) (middlewares : list MiddlewareFn)
  | app_patch (path : string) (middlewares : list MiddlewareFn)
  | app_put (path : string) (middlewares : list MiddlewareFn)
  | app_delete (path : string) (middlewares : list MiddlewareFn)
  | app_head (path : string) (middlewares : list MiddlewareFn)
  | app_all (path : string) (middlewares : list MiddlewareFn).

(** [app[method.toLowerCase()](routePath, ...combined)]. *)
Definition app_method (method : Method) : string -> list MiddlewareFn -> AppCall :=
  match method with
  | GET => app_get
  | POST => app_post
  | PATCH => app_patch
  | PUT => app_put
  | DELETE => app_delete
  | HEAD => app_head
  end.

(** The [while] loop that pops the entries of the stack, from the top,
    whose directory the current file is no longer in.  The stack is kept in
    array order, the top is the last element. *)
Fixpoint popStack (routePath : string) (stack : list InternalRoute)
    : list InternalRoute :=
  match stack with
  | [] => []
  | m :: above =>
      match popStack routePath above with
      | [] =>
          if negb (String.eqb (base m) "")
             && negb (startsWith routePath (base m +:+ "/"))
          then [] else [m]
      | kept => m :: kept
      end
  end.

(** [mod.config?.skipAppWrapper] and [mod.config?.skipInheritedLayouts],
    as truth values. *)
Definition config_skipAppWrapper (config : option RouteConfig) : bool :=
  match config with
  | Some c => skipAppWrapper c
  | None => false
  end.

Definition config_skipInheritedLayouts (config : option RouteConfig) : bool :=
  match config with
  | Some c => skipInheritedLayouts c
  | None => false
  end.

(** The handler kept for an [_error], [_500] or [_404] module: only a
    function is used, a method object is dropped. *)
Definition boundary_handler (handlers : option RouteHandler) : option HandlerFn :=
  match handlers with
  | Some (HandlerFunction fn) => Some fn
  | _ => None
  end.

(** [array.push(x)] when [x !== null]. *)
Definition push_component (components : list AnyComponent)
    (component : option AnyComponent) : list AnyComponent :=
  match component with
  | Some c => components ++ [c]
  | None => components
  end.

(** The variables that the walk over the stack reads and writes. *)
Record WalkState : Type := mkWalk {
  middlewares : list MiddlewareFn;
  components : list AnyComponent;
  skipApp : bool;
  hasApp : bool;
  calls : list AppCall
}.

(** [mod.handlers as MiddlewareFn], reached only when the handlers are not
    an object, that is, when they are one function. *)
Definition as_middleware (handlers : RouteHandler) : list MiddlewareFn :=
  match handlers with
  | HandlerFunction fn => [ExportedFn fn]
  | _ => []
  end.

(** The wildcard path under which an error boundary is registered:
    [mod.path.slice(0, -"_error".length)], then ["*"] appended (or ["*"]
    alone for the root). *)
Definition error_parent (modPath : string) : string :=
  let parent := slice modPath 0 (- Z.of_nat (String.length "_error")) in
  if String.eqb parent "/" then "*" else parent +:+ "*".

(** The body of [for (let k = 0; k < stack.length; k++)] for the stack
    entry [mod] (here [entry]), for a leaf that has [skipLayouts]. *)
Definition walkStep (skipLayouts : bool) (st : WalkState) (entry : InternalRoute)
    : WalkState :=
  let middlewares1 :=
    if endsWith (path entry) "/_middleware" then
      match handlers entry with
      | Some hs =>
          if negb (isHandlerByMethod hs) then middlewares st ++ as_middleware hs
          else
            match hs with
            | HandlerArray fns => middlewares st ++ map ExportedFn fns
            | _ => middlewares st
            end
      | None => middlewares st
      end
    else middlewares st in
  (* _app template *)
  if skipApp st && String.eqb (path entry) "/_app" then
    {| middlewares := middlewares1; components := components st;
       skipApp := skipApp st; hasApp := false; calls := calls st |}
  else
    let '(skipApp1, hasApp1, components1) :=
      if negb (skipApp st) && config_skipAppWrapper (config entry) then
        if hasApp st then (true, false, tail (components st))
        else (true, hasApp st, components st)
      else (skipApp st, hasApp st, components st) in
    (* _layouts *)
    if skipLayouts && endsWith (path entry) "/_layout" then
      {| middlewares := middlewares1; components := components1;
         skipApp := skipApp1; hasApp := hasApp1; calls := calls st |}
    else
      let components2 :=
        if negb skipLayouts && config_skipInheritedLayouts (config entry) then
          match components1 with
          | first :: _ =>
              if negb skipApp1 && hasApp1 then [first] else []
          | [] => []
          end
        else components1 in
      if endsWith (path entry) "/_error" || endsWith (path entry) "/_500" then
        let handler := boundary_handler (handlers entry) in
        let errorComponents := push_component components2 (component entry) in
        let parent := error_parent (path entry) in
        {| middlewares := middlewares1 ++ [ErrorMiddleware errorComponents handler];
           components := components2;
           skipApp := skipApp1; hasApp := hasApp1;
           calls := calls st
                    ++ [app_all parent [ErrorMiddleware errorComponents handler]] |}
      else if endsWith (path entry) "/_404" then
        let handler := boundary_handler (handlers entry) in
        let notFoundComponents := push_component components2 (component entry) in
        {| middlewares := middlewares1; components := components2;
           skipApp := skipApp1; hasApp := hasApp1;
           calls := calls st
                    ++ [app_use (NotFoundMiddleware notFoundComponents handler)] |}
      else
        {| middlewares := middlewares1;
           components := push_component components2 (component entry);
           skipApp := skipApp1; hasApp := hasApp1; calls := calls st |}.

(** The whole walk over the stack for the leaf [routeMod]; [hasApp] and the
    calls made so far come from the enclosing loop. *)
Definition walkStack (routeMod : InternalRoute) (stack : list InternalRoute)
    (hasApp0 : bool) (calls0 : list AppCall) : WalkState :=
  fold_left (walkStep (config_skipInheritedLayouts (config routeMod))) stack
    {| middlewares := []; components := [];
       skipApp := config_skipAppWrapper (config routeMod);
       hasApp := hasApp0; calls := calls0 |}.

(** The component chain of a leaf: what the walk collected, then
    the leaf's own component. *)
Definition componentChain (routeMod : InternalRoute) (stack : list InternalRoute)
    (hasApp0 : bool) : list AnyComponent :=
  push_component (components (walkStack routeMod stack hasApp0 []))
    (component routeMod).

(** The middleware chain of a leaf, before the terminal render
    middleware. *)
Definition middlewareChain (routeMod : InternalRoute) (stack : list InternalRoute)
    (hasApp0 : bool) : list MiddlewareFn :=
  middlewares (walkStack routeMod stack hasApp0 []).

Definition not_a_function_error : Thrown :=
  OtherThrown "TypeError: app[lower] is not a function".

(** The registration of the leaf at the end of the loop body.  The calls
    made, and the [TypeError] of [app[lower]] when the handlers are a
    non-empty array, whose keys are not methods. *)
Definition registerLeaf (routePath : string) (routeMod : InternalRoute)
    (mws : list MiddlewareFn) (comps : list AnyComponent)
    : list AppCall * option Thrown :=
  match handlers routeMod with
  | None => ([app_get routePath (mws ++ [RenderMiddleware comps None])], None)
  | Some hs =>
      if isHandlerByMethod hs && (handler_keys_length hs =? 0)%nat then
        ([app_get routePath (mws ++ [RenderMiddleware comps None])], None)
      else if isHandlerByMethod hs then
        match hs with
        | HandlerByMethod byMethod =>
            (flat_map
               (fun '(method, fn) =>
                  match fn with
                  | Some fn =>
                      [app_method method routePath
                         (mws ++ [RenderMiddleware comps (Some fn)])]
                  | None => []
                  end) byMethod, None)
        | _ => ([], Some not_a_function_error)
        end
      else
        match hs with
        | HandlerFunction fn =>
            ([app_all routePath (mws ++ [RenderMiddleware comps (Some fn)])], None)
        | _ => ([], None)
        end
  end.

(** The variables of [fsRoutes] that live across the iterations of the
    loop over the sorted route modules. *)
Record FsState : Type := mkFsState {
  stack : list InternalRoute;
  fs_hasApp : bool;
  fs_calls : list AppCall
}.

(** Whether a path names one of the special files that are only pushed on
    the stack. *)
Definition isSpecialFile (normalized : string) : bool :=
  endsWith normalized "/_app" || endsWith normalized "/_middleware"
  || endsWith normalized "/_layout" || endsWith normalized "/_error"
  || endsWith normalized "/_404" || endsWith normalized "/_500".

(** The body of [for (let i = 0; i < routeModules.length; i++)]. *)
Definition fsRoutes_body (pathToPattern : string -> string) (st : FsState)
    (routeMod : InternalRoute) : FsState * option Thrown :=
  let normalized := path routeMod in
  let stack1 := popStack (path routeMod) (stack st) in
  if endsWith normalized "/_app" then
    ({| stack := stack1 ++ [routeMod]; fs_hasApp := true;
        fs_calls := fs_calls st |}, None)
  else if isSpecialFile normalized then
    ({| stack := stack1 ++ [routeMod]; fs_hasApp := fs_hasApp st;
        fs_calls := fs_calls st |}, None)
  else
    let w := walkStack routeMod stack1 (fs_hasApp st) (fs_calls st) in
    let comps := push_component (components w) (component routeMod) in
    let routePath :=
      match config routeMod with
      | Some {| routeOverride := Some override |} => override
      | _ => pathToPattern (sliceFrom normalized 1)
      end in
    let '(registered, err) := registerLeaf routePath routeMod (middlewares w) comps in
    ({| stack := stack1; fs_hasApp := hasApp w;
        fs_calls := calls w ++ registered |}, err).

Fixpoint fsRoutes_loop (pathToPattern : string -> string) (st : FsState)
    (routeModules : list InternalRoute) : FsState * option Thrown :=
  match routeModules with
  | [] => (st, None)
  | routeMod :: rest =>
      match fsRoutes_body pathToPattern st routeMod with
      | (st1, None) => fsRoutes_loop pathToPattern st1 rest
      | (st1, Some e) => (st1, Some e)
      end
  end.

(** The route phase of [fsRoutes(app, options)] (lines 166-357), from the
    loaded route files on: the calls it makes on the router of [app], in
    order, and the exception that ended it, if any.  [pathToPattern] is the
    router's (router.ts).  The [app.island] calls of the island phase (lines
    152-164) come before these; [fsRoutes_with_islands] has both. *)
Definition fsRoutes (pathToPattern : string -> string)
    (files : list (string * FreshFsItem)) : list AppCall * option Thrown :=
  match loadRouteModules files with
  | Throw e => ([], Some e)
  | Normal routeModules =>
      let sorted := arraySort (fun a b => sortRoutePaths (path a) (path b))
                      routeModules in
      let '(st, err) :=
        fsRoutes_loop pathToPattern
          {| stack := []; fs_hasApp := false; fs_calls := [] |} sorted in
      (fs_calls st, err)
  end.

(** *** The island phase ([fsRoutes], src/fs.ts, lines 152-164) *)

(** What [typeof maybeFn === "function"] sees of an exported value; a
    function is known by its identity. *)
Inductive ExportedValue : Type :=
  | FunctionValue (fn : nat)
  | OtherValue.

(** [for (const key of Object.keys(mod))] for the module of one island
    file: the arguments of the [app.island(islandPath, key, maybeFn)] calls
    it makes, in the order of the keys. *)
Definition island_exports (islandPath : string)
    (exports : list (string * ExportedValue)) : list (string * string * nat) :=
  flat_map (fun export =>
              match snd export with
              | FunctionValue fn => [(islandPath, fst export, fn)]
              | OtherValue => []
              end) exports.

(** [Promise.all(islandPaths.map(async (islandPath) => ...))].  Each
    callback goes on when its module is loaded, so [islands] lists the
    island files, with the exports of their modules, in the order in which
    the loads finish.  A load that fails is outside the model. *)
Definition loadIslands (islands : list (string * list (string * ExportedValue)))
    : list (string * string * nat) :=
  flat_map (fun island => island_exports (fst island) (snd island)) islands.

(** A call that [fsRoutes] makes on the application: [app.island], or one
    of the calls of the route phase. *)
Inductive FsCall : Type :=
  | island_call (filePath exportName : string) (fn : nat)
  | route_call (call : AppCall).

(** The calls of the island phase. *)
Definition island_calls (islands : list (string * list (string * ExportedValue)))
    : list FsCall :=
  map (fun registration =>
         island_call (fst (fst registration)) (snd (fst registration))
           (snd registration)) (loadIslands islands).

(** [fsRoutes(app, options)] from the loaded island and route files on:
    the island phase, and after it the route phase. *)
Definition fsRoutes_with_islands (pathToPattern : string -> string)
    (islands : list (string * list (string * ExportedValue)))
    (files : list (string * FreshFsItem)) : list FsCall * option Thrown :=
  let '(calls, err) := fsRoutes pathToPattern files in
  (island_calls islands ++ map route_call calls, err).

(** What a stack entry adds to the middleware chain of a leaf: the
    function or the functions exported by a [_middleware] file. *)
Definition exported_middlewares (entry : InternalRoute) : list MiddlewareFn :=
  if endsWith (path entry) "/_middleware" then
    match handlers entry with
    | Some (HandlerFunction fn) => [ExportedFn fn]
    | Some (HandlerArray fns) => map ExportedFn fns
    | _ => []
    end
  else [].

(** A [_middleware] or [_layout] entry that does not itself declare
    [skipInheritedLayouts]. *)
Definition plain_entry (entry : InternalRoute) : Prop :=
  (endsWith (path entry) "/_middleware" = true
   \/ endsWith (path entry) "/_layout" = true)
  /\ config_skipInheritedLayouts (config entry) = false.

(** ** The platform's [Headers] and [Response] constructors

    [new Response(body, init)] and the header list that it fills belong to
    the runtime, not to the sources.  Modelled from the Fetch standard (its
    sections on header names and values, on filling a [Headers] object and
    on initialising a response), for the calls that the sources make: a
    body that is a string or [null], an integer status, and headers given
    by name and value.  The characters of a string are code units below
    256, so that every name and value here is a byte string. *)

(** Every character of [s] satisfies [p]. *)
Fixpoint every_char (p : ascii -> bool) (s : string) : bool :=
  match s with
  | EmptyString => true
  | String c rest => p c && every_char p rest
  end.

Definition RangeError : Thrown := OtherThrown "RangeError".

Definition TypeError : Thrown := OtherThrown "TypeError".

(** HTTP whitespace: tab, line feed, carriage return and space. *)
Definition isHttpWhitespace (c : ascii) : bool :=
  Ascii.eqb c "009" || Ascii.eqb c "010" || Ascii.eqb c "013"
  || Ascii.eqb c " ".

(** A string without its leading HTTP whitespace. *)
Fixpoint trimStart (s : string) : string :=
  match s with
  | EmptyString => EmptyString
  | String c rest => if isHttpWhitespace c then trimStart rest else s
  end.

(** A string without its trailing HTTP whitespace. *)
Fixpoint trimEnd (s : string) : string :=
  match s with
  | EmptyString => EmptyString
  | String c rest =>
      match trimEnd rest with
      | EmptyString => if isHttpWhitespace c then EmptyString else String c ""
      | kept => String c kept
      end
  end.

(** Normalising a header value removes its leading and trailing HTTP
    whitespace. *)
Definition normalizeHeaderValue (value : string) : string :=
  trimEnd (trimStart value).

(** A normalised value is a header value when it holds no NUL, line feed
    or carriage return (it has no leading or trailing tab or space, being
    normalised). *)
Definition isHeaderValueChar (c : ascii) : bool :=
  negb (Ascii.eqb c "000" || Ascii.eqb c "010" || Ascii.eqb c "013").

Definition isHeaderValue (value : string) : bool :=
  every_char isHeaderValueChar value.

(** A header name is a non-empty token. *)
Definition isTokenChar (c : ascii) : bool :=
  let n := nat_of_ascii c in
  ((48 <=? n) && (n <=? 57) || (65 <=? n) && (n <=? 90)
   || (97 <=? n) && (n <=? 122)
   || existsb (Nat.eqb n) [33; 35; 36; 37; 38; 39; 42; 43; 45; 46; 94; 95; 96;
                           124; 126])%nat.

Definition isHeaderName (name : string) : bool :=
  negb (String.eqb name "") && every_char isTokenChar name.

(** Names are reported in lower case. *)
Definition byteLowercase_char (c : ascii) : ascii :=
  let n := nat_of_ascii c in
  if (65 <=? n)%nat && (n <=? 90)%nat then ascii_of_nat (n + 32) else c.

Fixpoint byteLowercase (s : string) : string :=
  match s with
  | EmptyString => EmptyString
  | String c rest => String (byteLowercase_char c) (byteLowercase rest)
  end.

(** Filling a header list from the pairs of [init], in order: each value is
    normalised, and a name or value that is not valid is a [TypeError]. *)
Fixpoint Headers_fill (init : list (string * string))
    (filled : list (string * string)) : Completion (list (string * string)) :=
  match init with
  | [] => Normal filled
  | (name, value) :: rest =>
      let value := normalizeHeaderValue value in
      if negb (isHeaderName name) || negb (isHeaderValue value)
      then Throw TypeError
      else Headers_fill rest (filled ++ [(byteLowercase name, value)])
  end.

(** The conversion of an integer to [unsigned short]. *)
Definition toUnsignedShort (n : Z) : Z := n mod 65536.

Definition isNullBodyStatus (st : Z) : bool :=
  (st =? 101) || (st =? 103) || (st =? 204) || (st =? 205) || (st =? 304).

(** [new Response(body, { status, headers })]: a [RangeError] for a status
    outside 200..599, a [TypeError] for a header that is not valid or for a
    body with a null body status; a string body brings its content type
    when the headers name none. *)
Definition Response_new (bodyInit : option string) (init_status : Z)
    (init_headers : list (string * string)) : Completion Response :=
  let st := toUnsignedShort init_status in
  if (st <? 200) || (599 <? st) then Throw RangeError
  else
    match Headers_fill init_headers [] with
    | Throw e => Throw e
    | Normal filled =>
        match bodyInit with
        | None => Normal {| status := st; headers := filled; body := None |}
        | Some text =>
            if isNullBodyStatus st then Throw TypeError
            else
              let typed :=
                if existsb (fun header => String.eqb (fst header) "content-type")
                     filled
                then filled
                else filled ++ [("content-type", "text/plain;charset=UTF-8")] in
              Normal {| status := st; headers := typed; body := Some text |}
        end
    end.

(** The statuses with which [new Response] throws when it is given a
    body. *)
Definition refusedStatus (st : Z) : bool :=
  let st := toUnsignedShort st in
  (st <? 200) || (599 <? st) || isNullBodyStatus st.

(** ** The redirect helper ([FreshReqContext.redirect], src/config.ts, lines
    167-190) *)

(** The value of [location] when [redirect] builds its response. *)
Definition redirect_location (pathOrUrl : string) : string :=
  (* Disallow protocol relative URLs *)
  if negb (String.eqb pathOrUrl "/") && startsWith pathOrUrl "/" then
    let idx := indexOf pathOrUrl "?" in
    let idx := if idx =? -1 then indexOf pathOrUrl "#" else idx in
    let pathname := if idx >? -1 then slice pathOrUrl 0 idx else pathOrUrl in
    let search := if idx >? -1 then sliceFrom pathOrUrl idx else "" in
    collapseSlashes pathname +:+ search
  else pathOrUrl.

(** [redirect(pathOrUrl, status = 302)]; [None] is an omitted status.  The
    result is the response, or what [new Response] throws. *)
Definition redirect (pathOrUrl : string) (status : option Z)
    : Completion Response :=
  let status := match status with Some st => st | None => 302 end in
  Response_new None status [("location", redirect_location pathOrUrl)].

(** *** Shapes of targets used to state properties of [redirect] *)







(** The [location] header of a response. *)
Definition location_of (r : Response) : option string :=
  snd <$> List.find (fun kv => String.eqb (fst kv) "location") (headers r).

(** ** The request handler ([App.handler], unnamed/part_000, lines 168-218) *)

Record Request : Type := mkRequest {
  req_pathname : string;
  req_method : string
}.

(** What [router.match(method, url)] reports. *)
Record Matched : Type := mkMatched {
  m_params : list (string * string);
  m_handlers : list (list MiddlewareFn);
  patternMatch : bool;
  methodMatch : bool
}.

(** [s.toUpperCase()] on the letters of a method name. *)
Definition toUpperCase_char (c : ascii) : ascii :=
  let n := nat_of_ascii c in
  if (97 <=? n)%nat && (n <=? 122)%nat then ascii_of_nat (n - 32) else c.

Fixpoint toUpperCase (s : string) : string :=
  match s with
  | EmptyString => EmptyString
  | String c rest => String (toUpperCase_char c) (toUpperCase rest)
  end.

(** Modelled from the spec: [runMiddlewares] of middlewares/mod.ts, which is
    not among the sources.  "Execute the handler chain as a strict
    left-to-right continuation sequence": each handler gets a [next] bound
    to the remainder of the chain, and a chain that runs to the end falls
    through to the default terminal handler. *)
Fixpoint runChain (chain : list MiddlewareFn) (terminal : Next) : Next :=
  match chain with
  | [] => terminal
  | fn :: rest => callMiddleware fn (runChain rest terminal)
  end.

Definition runMiddlewares_spec (handlers : list (list MiddlewareFn))
    (next : Next) : Next :=
  fun ctx =>
    let '(res, ctx1) := runChain (concat handlers) next ctx in
    (async res, ctx1).

Section Dispatch.

(** The message that [new HttpError(status)] gives itself (error.ts). *)
Variable HttpError_message : Z -> string.
(** [this.#router.match] (router.ts). *)
Variable router_match : string -> string -> Matched.
(** [runMiddlewares] (middlewares/mod.ts). *)
Variable runMiddlewares : list (list MiddlewareFn) -> Next -> Next.
(** The renderer behind [ctx.render]. *)
Variable render : VNode -> Completion Response.

Definition DEFAULT_NOT_FOUND : Next :=
  fun ctx => (SyncThrow (HttpError 404 (HttpError_message 404)), ctx).

Definition DEFAULT_NOT_ALLOWED_METHOD : Next :=
  fun ctx => (SyncThrow (HttpError 405 (HttpError_message 405)), ctx).

(** The [catch (err)] clause of the handler.  It runs in the [async]
    function of the handler: what [new Response] throws there rejects the
    promise of the handler. *)
Definition handler_catch (err : Thrown) : Outcome :=
  let answer :=
    match err with
    | HttpError st message => Response_new (Some message) st []
    | OtherThrown _ => Response_new (Some "Internal server error") 500 []
    end in
  match answer with
  | Normal response => Fulfilled (Resp response)
  | Throw e => Rejected e
  end.

(** The function returned by [App.handler()] when a build snapshot
    exists: what the promise it returns settles to. *)
Definition App_handler (req : Request) : Outcome :=
  let pathname := collapseSlashes (req_pathname req) in
  let method := toUpperCase (req_method req) in
  let matched := router_match method pathname in
  let next :=
    if patternMatch matched && negb (methodMatch matched)
    then DEFAULT_NOT_ALLOWED_METHOD else DEFAULT_NOT_FOUND in
  let ctx := {| ctx_url := req_pathname req; ctx_params := m_params matched;
                ctx_state := []; ctx_error := None; ctx_render := render |} in
  match m_handlers matched with
  | [[fn]] =>
      (* handlers.length === 1 && handlers[0].length === 1:
         return handlers[0][0](ctx), not awaited *)
      match fst (callMiddleware fn next ctx) with
      | SyncThrow err => handler_catch err
      | settled => settled
      end
  | handlers =>
      (* return await runMiddlewares(handlers, ctx) *)
      match await (fst (runMiddlewares handlers next ctx)) with
      | Normal v => Fulfilled v
      | Throw err => handler_catch err
      end
  end.

End Dispatch.

(** The shape tested by the fast path:
    [handlers.length === 1 && handlers[0].length === 1]. *)
Definition single_handler (handlers : list (list MiddlewareFn)) : Prop :=
  exists fn, handlers = [[fn]].

(** An exception escapes the handler when the promise it returns is
    rejected. *)
Definition escapes (o : Outcome) : Prop :=
  match o with
  | Fulfilled _ => False
  | _ => True
  end.

(** ** Island registration ([App.island], unnamed/part_000, lines 72-96) *)

Record Island : Type := mkIsland {
  island_fn : nat;
  island_exportName : string;
  island_name : string;
  island_file : string
}.

(** The private fields [#islandRegistry] (a [Map] keyed by the component
    function, here by its identity) and [#islandNames]. *)
Record AppIslands : Type := mkAppIslands {
  islandRegistry : gmap nat Island;
  islandNames : gset string
}.

Definition new_App : AppIslands :=
  {| islandRegistry := ∅; islandNames := ∅ |}.

(** [path.basename(filePath, path.extname(filePath))] of "@std/path", on
    plain slash-separated file paths: the last segment without its
    extension. *)
Definition path_basename (filePath : string) : string :=
  sliceFrom filePath (lastIndexOf filePath "/" + 1).

Definition path_extname (filePath : string) : string :=
  let name := path_basename filePath in
  let dot := lastIndexOf name "." in
  if dot <=? 0 then "" else sliceFrom name dot.

Definition path_basename_ext (filePath ext : string) : string :=
  let name := path_basename filePath in
  if negb (String.eqb ext "") && endsWith name ext && negb (String.eqb name ext)
  then slice name 0 (Z.of_nat (String.length name) - Z.of_nat (String.length ext))
  else name.

(** [`${name}_${i}`]. *)
Definition suffixed (name : string) (i : nat) : string :=
  name +:+ "_" +:+ pretty i.

(** [while (this.#islandNames.has(`${name}_${i}`)) i++], with a bound on the
    iterations; one more than the size of the set always suffices. *)
Fixpoint island_suffix (names : gset string) (name : string) (fuel i : nat) : nat :=
  match fuel with
  | O => i
  | S fuel' =>
      if bool_decide (suffixed name i ∈ names)
      then island_suffix names name fuel' (S i)
      else i
  end.

(** The name an island starts from: the export name, or the file name
    for a default export. *)
Definition island_base_name (filePath exportName : string) : string :=
  if String.eqb exportName "default"
  then path_basename_ext filePath (path_extname filePath)
  else exportName.

(** The unique name computed by [island]. *)
Definition island_unique_name (names : gset string) (filePath exportName : string)
    : string :=
  let name := island_base_name filePath exportName in
  if bool_decide (name ∈ names)
  then suffixed name (island_suffix names name (S (size names)) 0)
  else name.

(** [app.island(filePath, exportName, fn)]. *)
Definition App_island (app : AppIslands) (filePath exportName : string) (fn : nat)
    : AppIslands :=
  let name := island_unique_name (islandNames app) filePath exportName in
  {| islandRegistry :=
       <[fn := {| island_fn := fn; island_exportName := exportName;
                  island_name := name; island_file := filePath |}]>
         (islandRegistry app);
     islandNames := islandNames app |}.

(** A sequence of [island] calls, first to last. *)
Definition App_islands (app : AppIslands) (registrations : list (string * string * nat))
    : AppIslands :=
  fold_left (fun app '(filePath, exportName, fn) =>
               App_island app filePath exportName fn) registrations app.

(** No two registered islands share a name. *)
Definition island_names_unique (app : AppIslands) : Prop :=
  forall fn1 fn2 i1 i2,
    islandRegistry app !! fn1 = Some i1 ->
    islandRegistry app !! fn2 = Some i2 ->
    fn1 <> fn2 -> island_name i1 <> island_name i2.

(** ** Sample route trees *)

Module Samples.

(** A stand-in for the router's [pathToPattern] on paths without
    parameters. *)
Definition pattern_of (s : string) : string := "/" +:+ s.

Definition AppWrapper : AnyComponent := FunctionComponent 0.
Definition Layout : AnyComponent := FunctionComponent 1.
Definition Page : AnyComponent := FunctionComponent 2.
Definition ErrorPage : AnyComponent := FunctionComponent 3.

(** A middleware that only calls [ctx.next()]. *)
Definition passThrough : HandlerFn :=
  {| fn_length := 1; fn_call := fun next ctx => next ctx |}.

(** An async handler that throws [err]. *)
Definition throwing (err : Thrown) : HandlerFn :=
  {| fn_length := 1; fn_call := fun _ ctx => (Rejected err, ctx) |}.

(** A module that exports a component, and possibly a [config]. *)
Definition component_module (c : AnyComponent) (cfg : option RouteConfig)
    : FreshFsItem :=
  {| mod_config := cfg; mod_handler := None; mod_handlers := None;
     mod_default := Some c |}.

(** A module that exports one [handler] function. *)
Definition handler_module (fn : HandlerFn) : FreshFsItem :=
  {| mod_config := None; mod_handler := Some (HandlerFunction fn);
     mod_handlers := None; mod_default := None |}.

Definition skip_app_wrapper : option RouteConfig :=
  Some {| routeOverride := None; skipAppWrapper := true;
          skipInheritedLayouts := false |}.

Definition skip_inherited_layouts : option RouteConfig :=
  Some {| routeOverride := None; skipAppWrapper := false;
          skipInheritedLayouts := true |}.

(** routes/a/b/_layout.tsx and routes/a/b/page.tsx, the page declaring
    [skipInheritedLayouts]. *)
Definition nested_layout_tree : list (string * FreshFsItem) :=
  [("a/b/page.tsx", component_module Page skip_inherited_layouts);
   ("a/b/_layout.tsx", component_module Layout None)].

(** The same two files, the page without a [config]. *)
Definition nested_layout_plain_tree : list (string * FreshFsItem) :=
  [("a/b/page.tsx", component_module Page None);
   ("a/b/_layout.tsx", component_module Layout None)].

(** The same two files below routes/_app.tsx and routes/a/_layout.tsx, the
    page declaring [skipInheritedLayouts]. *)
Definition deep_layout_tree : list (string * FreshFsItem) :=
  [("a/b/page.tsx", component_module Page skip_inherited_layouts);
   ("a/b/_layout.tsx", component_module Layout None);
   ("a/_layout.tsx", component_module (FunctionComponent 4) None);
   ("_app.tsx", component_module AppWrapper None)].

(** routes/_app.tsx, routes/blog/_middleware.ts, routes/blog/_layout.tsx
    and routes/blog/post.tsx, the post declaring [skipAppWrapper]. *)
Definition root_app_tree : list (string * FreshFsItem) :=
  [("blog/post.tsx", component_module Page skip_app_wrapper);
   ("blog/_layout.tsx", component_module Layout None);
   ("blog/_middleware.ts", handler_module passThrough);
   ("_app.tsx", component_module AppWrapper None)].

(** The same tree with the [_app] file inside routes/blog. *)
Definition nested_app_tree : list (string * FreshFsItem) :=
  [("blog/post.tsx", component_module Page skip_app_wrapper);
   ("blog/_layout.tsx", component_module Layout None);
   ("blog/_middleware.ts", handler_module passThrough);
   ("blog/_app.tsx", component_module AppWrapper None)].

(** routes/a/_error.tsx and a routes/a/page.tsx whose handler throws. *)
Definition error_boundary_tree (err : Thrown) : list (string * FreshFsItem) :=
  [("a/page.tsx",
    {| mod_config := None; mod_handler := Some (HandlerFunction (throwing err));
       mod_handlers := None; mod_default := Some Page |});
   ("a/_error.tsx", component_module ErrorPage None)].

(** A renderer that writes the component tree as text, marking the
    nodes that were given an error. *)
Fixpoint show_vnode (v : VNode) : string :=
  match v with
  | vnull => ""
  | h c _ _ error _ child =>
      "<c" +:+ pretty c
      +:+ (match error with Some _ => " error" | None => "" end)
      +:+ ">" +:+ show_vnode child +:+ "</c" +:+ pretty c +:+ ">"
  | vtext text => text
  end.

Definition render_text (v : VNode) : Completion Response :=
  Normal {| status := 200;
            headers := [("Content-Type", "text/html; charset=utf-8")];
            body := Some (show_vnode v) |}.

Definition sample_context : FreshContext :=
  {| ctx_url := "/a/page"; ctx_params := []; ctx_state := [];
     ctx_error := None; ctx_render := render_text |}.

(** The rest of a chain that throws [err] when [next()] is called. *)
Definition failing_next (err : Thrown) : Next :=
  fun ctx => (Rejected err, ctx).

(** The six files of one directory used to illustrate the ordering. *)
Definition one_directory : list string :=
  ["_app.tsx"; "_middleware.ts"; "about.tsx"; "[id].tsx"; "[...slug].tsx";
   "index.tsx"].

End Samples.


(** ** Predicates used to state further properties *)

(** The two checks a loaded module must pass: it exports a component, a
    [config], a [handler] or [handlers], and a handler that is one function
    declares at most one parameter. *)
Definition loadable (m : FreshFsItem) : bool :=
  isFreshFile m
  && match nullish (mod_handlers m) (mod_handler m) with
     | Some (HandlerFunction fn) => (fn_length fn <=? 1)%nat
     | _ => true
     end.

(** The test of the [while] loop that pops the stack: the entry [m] has a
    directory, and the file at [routePath] is not below it. *)
Definition left_directory (routePath : string) (m : InternalRoute) : bool :=
  negb (String.eqb (base m) "")
  && negb (startsWith routePath (base m +:+ "/")).

(** A stack entry that only hands its component and middlewares down: it
    declares neither flag and is not an [_error], [_500] or [_404] file. *)
Definition inherited_entry (entry : InternalRoute) : bool :=
  negb (config_skipAppWrapper (config entry))
  && negb (config_skipInheritedLayouts (config entry))
  && negb (endsWith (path entry) "/_error")
  && negb (endsWith (path entry) "/_500")
  && negb (endsWith (path entry) "/_404").

(** The path and the middlewares of a call made on the application. *)
Definition call_path (call : AppCall) : option string :=
  match call with
  | app_use _ => None
  | app_get p _ | app_post p _ | app_patch p _ | app_put p _
  | app_delete p _ | app_head p _ | app_all p _ => Some p
  end.

Definition call_middlewares (call : AppCall) : list MiddlewareFn :=
  match call with
  | app_use mw => [mw]
  | app_get _ mws | app_post _ mws | app_patch _ mws | app_put _ mws
  | app_delete _ mws | app_head _ mws | app_all _ mws => mws
  end.

(** The tree that nested function components make: each one is given the
    props of the request and the tree of the components after it as its
    [Component] child. *)
Definition nested_vnode (ids : list nat) (url : string)
    (params : list (string * string)) (error : option Thrown)
    (data : option string) : VNode :=
  fold_right (fun id child => h id url params error data child) vnull ids.

(** Whether a string holds two slashes in a row. *)
Fixpoint hasDoubleSlash (s : string) : bool :=
  match s with
  | String a (String b _ as rest) =>
      (Ascii.eqb a "/" && Ascii.eqb b "/") || hasDoubleSlash rest
  | _ => false
  end.

(** ** Building the request handler ([App.handler] and
    [missingBuildHandler], unnamed/part_000, lines 168-178 and 260-269) *)

(** What the handler needs to know of the build cache. *)
Record BuildCache : Type := mkBuildCache {
  hasSnapshot : bool
}.

Section HandlerConstruction.

(** [DENO_DEPLOYMENT_ID], if the environment has one (runtime/build_id.ts). *)
Variable DENO_DEPLOYMENT_ID : option string.
(** The two pages of finish_setup.tsx, rendered to strings. *)
Variable FinishSetup_html ForgotBuild_html : string.
(** [ProdBuildCache.fromSnapshot(this.config)] (build_cache.ts). *)
Variable fromSnapshot : BuildCache.
Variable HttpError_message : Z -> string.
Variable router_match : string -> string -> Matched.
Variable runMiddlewares : list (list MiddlewareFn) -> Next -> Next.
Variable render : VNode -> Completion Response.

(** A string is truthy when it is not empty. *)
Definition truthy (s : option string) : bool :=
  match s with
  | Some s => negb (String.eqb s "")
  | None => false
  end.

(** [missingBuildHandler()]. *)
Definition missingBuildHandler : Outcome :=
  let html := if truthy DENO_DEPLOYMENT_ID then FinishSetup_html
              else ForgotBuild_html in
  match Response_new (Some html) 500
          [("Content-Type", "text/html; charset=utf-8")] with
  | Normal response => Fulfilled (Resp response)
  | Throw e => Rejected e
  end.

(** [App.handler()]: the build cache left in [#buildCache], and the
    function from requests that it returns. *)
Definition App_build_handler (buildCache : option BuildCache)
    : BuildCache * (Request -> Outcome) :=
  let cache := match buildCache with
               | Some cache => cache
               | None => fromSnapshot
               end in
  if negb (hasSnapshot cache) then (cache, fun _ => missingBuildHandler)
  else (cache, App_handler HttpError_message router_match runMiddlewares render).

End HandlerConstruction.

(** ** Mounting an application ([App.mountApp], unnamed/part_000, lines
    125-154) *)

(** The method a route is registered for: one method, or all of them. *)
Inductive RouteMethod : Type :=
  | OnMethod (method : Method)
  | ALL.

(** A route path: a string, or a compiled [URLPattern]. *)
Inductive RoutePath : Type :=
  | StringPath (pathname : string)
  | URLPatternPath (pattern : string).

Record Route : Type := mkRouteEntry {
  route_method : RouteMethod;
  route_path : RoutePath;
  route_handlers : list MiddlewareFn
}.

(** The two fields of the router that the application reads and writes. *)
Record Router : Type := mkRouter {
  _routes : list Route;
  _middlewares : list MiddlewareFn
}.

(** Modelled from the spec: [Router.add] of router.ts, which is not among
    the sources.  A router entry is "(method|ALL, compiledPattern,
    handlerChain)" and candidates are tried "in registration order": [add]
    appends an entry. *)
Definition Router_add (router : Router) (method : RouteMethod) (pathname : RoutePath)
    (handlers : list MiddlewareFn) : Router :=
  {| _routes := _routes router
                ++ [{| route_method := method; route_path := pathname;
                       route_handlers := handlers |}];
     _middlewares := _middlewares router |}.

(** The application: its router, its island registry and the base path of
    its configuration. *)
Record AppState : Type := mkApp {
  app_router : Router;
  app_islandRegistry : gmap nat Island;
  app_basePath : string
}.

Section Mounting.

(** [mergePaths] of router.ts. *)
Variable mergePaths : string -> string -> string.

(** [this.mountApp(path, app)], for an [app] other than [this]. *)
Definition App_mountApp (this : AppState) (pathname : string) (app : AppState)
    : AppState :=
  let routes := _routes (app_router app) in
  let islandRegistry := app_islandRegistry app ∪ app_islandRegistry this in
  let middlewares := _middlewares (app_router app) in
  let isSelf := String.eqb pathname "*" || String.eqb pathname "/" in
  let router0 :=
    if isSelf && (0 <? length middlewares)%nat then
      {| _routes := _routes (app_router this);
         _middlewares := _middlewares (app_router this) ++ middlewares |}
    else app_router this in
  let router1 :=
    fold_left
      (fun router route =>
         let merged :=
           match route_path route with
           | StringPath p => StringPath (mergePaths pathname p)
           | URLPatternPath _ => route_path route
           end in
         let combined :=
           if isSelf then route_handlers route
           else middlewares ++ route_handlers route in
         Router_add router (route_method route) merged combined)
      routes router0 in
  {| app_router := router1; app_islandRegistry := islandRegistry;
     app_basePath := app_basePath this |}.

(** The path a mounted route gets. *)
Definition mounted_path (pathname : string) (route : Route) : RoutePath :=
  match route_path route with
  | StringPath p => StringPath (mergePaths pathname p)
  | URLPatternPath _ => route_path route
  end.

End Mounting.

(** ** What [bundleJs] makes of the bundle (dev/esbuild.ts, lines 72-125) *)

(** A file written by the bundler, and a file of the build output. *)
Record OutputFile : Type := mkOutputFile {
  out_path : string;
  out_contents : string;
  out_hash : string
}.

Record BundleFile : Type := mkBundleFile {
  file_hash : option string;
  file_contents : string;
  file_path : string
}.

(** An entry of [metafile.outputs]: its imports and, for an entry point,
    the source it was built from. *)
Record MetaImport : Type := mkMetaImport {
  import_path : string;
  import_kind : string
}.

Record MetaOutput : Type := mkMetaOutput {
  meta_imports : list MetaImport;
  meta_entryPoint : option string
}.

(** The maps are keyed by strings; [entryToChunk] is keyed by the result of
    [entryToName.get(filePath)!], which is [undefined] ([None]) for a file
    that is not an entry point of the options. *)
Record BuildOutput : Type := mkBuildOutput {
  files : list BundleFile;
  entryToChunk : gmap (option string) string;
  dependencies : gmap string (list string)
}.

Section Bundle.

(** [path.relative] and [path.join] of "@std/path". *)
Variable path_relative : string -> string -> string.
Variable path_join : string -> string -> string.

(** [new Map(Object.entries(entryPoints).map((entry) => [entry[1], entry[0]]))]:
    from the file of an entry point to its name, a later entry replacing an
    earlier one with the same file. *)
Definition entryToName (entryPoints : list (string * string)) : gmap string string :=
  fold_left (fun names entry => <[snd entry := fst entry]> names) entryPoints ∅.

(** The paths of the imports made by import statements. *)
Definition statement_imports (entry : MetaOutput) : list string :=
  map import_path
    (List.filter (fun i => String.eqb (import_kind i) "import-statement")
       (meta_imports entry)).

(** The body of [for (const [entryPath, entry] of metaOutputs.entries())]. *)
Definition bundle_output_step (cwd : string) (names : gmap string string)
    (maps : gmap (option string) string * gmap string (list string))
    (output : string * MetaOutput)
    : gmap (option string) string * gmap string (list string) :=
  let '(chunks, deps) := maps in
  let '(entryPath, entry) := output in
  let deps := <[entryPath := statement_imports entry]> deps in
  match meta_entryPoint entry with
  | Some entryPoint =>
      if negb (String.eqb entryPath "fresh-runtime.js") then
        let filePath := path_join cwd entryPoint in
        (<[names !! filePath := entryPath]> chunks, deps)
      else (chunks, deps)
  | None => (chunks, deps)
  end.

(** The part of [bundleJs] that follows [esbuild.build]: [outputFiles] and
    the JSON text and the outputs of [bundle.metafile], if there is one. *)
Definition bundle_output (cwd : string) (entryPoints : list (string * string))
    (outputFiles : list OutputFile) (metafile_json : string)
    (metafile : option (list (string * MetaOutput))) : BuildOutput :=
  let files :=
    map (fun outputFile =>
           {| file_path := path_relative cwd (out_path outputFile);
              file_contents := out_contents outputFile;
              file_hash := Some (out_hash outputFile) |}) outputFiles
    ++ [{| file_path := "metafile.json"; file_contents := metafile_json;
           file_hash := None |}] in
  let names := entryToName entryPoints in
  let '(chunks, deps) :=
    match metafile with
    | Some metaOutputs =>
        fold_left (bundle_output_step cwd names) metaOutputs (∅, ∅)
    | None => (∅, ∅)
    end in
  {| files := files; entryToChunk := chunks; dependencies := deps |}.

End Bundle.

(** ** Route groups and local island folders ([GROUP_REG], [walkDir] and
    the walk of the routes folder in [fsRoutes]; src/fs.ts, lines 59,
    122-145 and 392-410) *)

(** The class [[/\\\\]] of [GROUP_REG]: a slash or a backslash. *)
Definition is_separator (c : ascii) : bool :=
  Ascii.eqb c "/" || Ascii.eqb c "\".

(** The tail [[^/\\\\]+\)[/\\\\]] of [GROUP_REG], after the ["_"] of its
    second group; [name] holds the characters that the class has taken so
    far.  The class is greedy: it first takes one more character, and gives
    a closing parenthesis back only when the longer attempt fails.  The
    result is the text of the second group. *)
Fixpoint GROUP_REG_name (s : string) (name : string) : option string :=
  match s with
  | EmptyString => None
  | String c rest =>
      if is_separator c then None
      else
        match GROUP_REG_name rest (name +:+ String c "") with
        | Some group => Some group
        | None =>
            if Ascii.eqb c ")" && negb (String.eqb name "")
               && match rest with
                  | String d _ => is_separator d
                  | EmptyString => false
                  end
            then Some ("_" +:+ name)
            else None
        end
  end.

(** [\((_[^/\\\\]+)\)[/\\\\]] anchored at the head of [s]. *)
Definition GROUP_REG_group (s : string) : option string :=
  match s with
  | String c (String d rest) =>
      if Ascii.eqb c "(" && Ascii.eqb d "_" then GROUP_REG_name rest ""
      else None
  | _ => None
  end.

(** The alternative [[/\\\\]] of the first group of [GROUP_REG], tried at
    every position from left to right. *)
Fixpoint GROUP_REG_after_separator (s : string) : option string :=
  match s with
  | EmptyString => None
  | String c rest =>
      if is_separator c then
        match GROUP_REG_group rest with
        | Some group => Some group
        | None => GROUP_REG_after_separator rest
        end
      else GROUP_REG_after_separator rest
  end.

(** [s.match(GROUP_REG)], with
    [GROUP_REG = /(^|[/\\\\])\((_[^/\\\\]+)\)[/\\\\]/]: [None] is [null],
    [Some group] is a match whose second group [match[2]] is [group]. *)
Definition GROUP_REG_match (s : string) : option string :=
  match GROUP_REG_group s with
  | Some group => Some group
  | None => GROUP_REG_after_separator s
  end.

(** The two arrays that the walks of [fsRoutes] fill. *)
Record Collected := {
  islandPaths : list string;
  relRoutePaths : list string
}.

(** [walkDir(dir, callback, ignore, fs)]: nothing when [dir] is not a
    directory, else the callback on every entry that [fs.walk] yields.
    [isDirectory] is the answer of [fs.isDirectory(dir)] and [entries] the
    paths of the entries of [fs.walk]. *)
Definition walkDir {S : Type} (isDirectory : bool) (entries : list string)
    (callback : S -> string -> S) (st : S) : S :=
  if isDirectory then fold_left callback entries st else st.

Section RoutesWalk.

(** [path.relative] of [jsr:@std/path]. *)
Variable path_relative : string -> string -> string.

(** The callback of the walk of [routesDir]. *)
Definition routes_callback (routesDir : string) (st : Collected)
    (entryPath : string) : Collected :=
  let relative := path_relative routesDir entryPath in
  let collect :=
    {| islandPaths := islandPaths st;
       relRoutePaths := relRoutePaths st ++ [relative] |} in
  match GROUP_REG_match relative with
  | Some group =>
      if chr_is (charAt group 0) "_" then
        if String.eqb group "_islands" then
          {| islandPaths := islandPaths st ++ [entryPath];
             relRoutePaths := relRoutePaths st |}
        else st
      else collect
  | None => collect
  end.

(** [walkDir(routesDir, (entry) => ..., ignore, fs)]. *)
Definition walk_routes (routesDir : string) (isDirectory : bool)
    (entries : list string) (st : Collected) : Collected :=
  walkDir isDirectory entries (routes_callback routesDir) st.

End RoutesWalk.

(** *** Shapes of relative paths used to state properties of the walk *)

Definition not_separator (c : ascii) : bool := negb (is_separator c).

Definition not_open_paren (c : ascii) : bool := negb (Ascii.eqb c "(").

(** The relative path of [rest] inside the folder [(_name)], which lies in
    the folder [parent] of the routes folder, or in the routes folder
    itself when [parent] is [None]. *)
Definition group_path (parent : option string) (name rest : string) : string :=
  match parent with
  | Some dir => dir +:+ "/"
  | None => ""
  end +:+ "(_" +:+ name +:+ ")/" +:+ rest.

(** ** Further sample values *)

Module MoreSamples.

(** The record loaded for routes/blog/[slug].tsx. *)
Definition slug_route : InternalRoute :=
  {| path := "/blog/[slug]"; base := "/blog"; filePath := "blog/[slug].tsx";
     config := None; handlers := None; component := Some Samples.Page |}.


(** A handler declared with two parameters. *)
Definition two_parameter_handler : HandlerFn :=
  {| fn_length := 2; fn_call := fun next ctx => next ctx |}.

(** routes/_app.tsx, routes/_middleware.ts and routes/blog/_layout.tsx as
    they sit on the stack, and the leaf routes/blog/post.tsx. *)
Definition app_entry : InternalRoute :=
  {| path := "/_app"; base := ""; filePath := "_app.tsx"; config := None;
     handlers := None; component := Some Samples.AppWrapper |}.

Definition middleware_entry : InternalRoute :=
  {| path := "/_middleware"; base := ""; filePath := "_middleware.ts";
     config := None; handlers := Some (HandlerFunction Samples.passThrough);
     component := None |}.

Definition layout_entry : InternalRoute :=
  {| path := "/blog/_layout"; base := "/blog"; filePath := "blog/_layout.tsx";
     config := None; handlers := None; component := Some Samples.Layout |}.

Definition post_leaf : InternalRoute :=
  {| path := "/blog/post"; base := "/blog"; filePath := "blog/post.tsx";
     config := None; handlers := None; component := Some Samples.Page |}.

(** One island file: a component as default export beside a constant. *)
Definition counter_island : list (string * list (string * ExportedValue)) :=
  [("/app/islands/Counter.tsx",
    [("default", FunctionValue 7); ("LIMIT", OtherValue)])].

(** The response of [ctx.redirect("/login")]. *)
Definition login_redirect : Response :=
  {| status := 302; headers := [("location", "/login")]; body := None |}.

(** An async component that answers with a redirect. *)
Definition redirecting_component : AnyComponent :=
  AsyncComponent (fun _ _ => Normal (inr login_redirect)).

(** The rest of a chain that answers with a plain response. *)
Definition answering_next : Next :=
  fun ctx =>
    (Fulfilled (Resp {| status := 200; headers := []; body := Some "ok" |}), ctx).

(** A router that matches nothing. *)
Definition empty_router (method pathname : string) : Matched :=
  {| m_params := []; m_handlers := []; patternMatch := false;
     methodMatch := false |}.

(** A router that knows the path but not the method. *)
Definition wrong_method_router (method pathname : string) : Matched :=
  {| m_params := []; m_handlers := []; patternMatch := true;
     methodMatch := false |}.

(** A router with a global middleware in front of the chain of a page whose
    handler throws. *)
Definition guarded_router (err : Thrown) (method pathname : string) : Matched :=
  {| m_params := [];
     m_handlers := [[ExportedFn Samples.passThrough];
                    [RenderMiddleware [Samples.Page] (Some (Samples.throwing err))]];
     patternMatch := true; methodMatch := true |}.

Definition status_text (st : Z) : string :=
  if st =? 404 then "Not Found"
  else if st =? 405 then "Method Not Allowed"
  else "Error".

Definition get_request (pathname : string) : Request :=
  {| req_pathname := pathname; req_method := "get" |}.

(** A stand-in for the router's [mergePaths]. *)
Definition join_paths (prefix pathname : string) : string :=
  if String.eqb prefix "/" || String.eqb prefix "*" then pathname
  else prefix +:+ pathname.

Definition empty_app : AppState :=
  {| app_router := {| _routes := []; _middlewares := [] |};
     app_islandRegistry := ∅; app_basePath := "" |}.

(** An application with one global middleware and one route. *)
Definition admin_app : AppState :=
  {| app_router :=
       {| _routes := [{| route_method := OnMethod GET;
                         route_path := StringPath "/users";
                         route_handlers := [RenderMiddleware [Samples.Page] None] |}];
          _middlewares := [ExportedFn Samples.passThrough] |};
     app_islandRegistry := ∅; app_basePath := "" |}.

Definition join_dir (dir file : string) : string := dir +:+ "/" +:+ file.

Definition strip_dir (dir file : string) : string := file.

(** The outputs of a bundle with one island, a shared chunk and the
    runtime. *)
Definition counter_outputs : list (string * MetaOutput) :=
  [("Counter.js",
    {| meta_imports := [{| import_path := "chunk-AAA.js";
                           import_kind := "import-statement" |};
                        {| import_path := "lazy.js";
                           import_kind := "dynamic-import" |}];
       meta_entryPoint := Some "islands/Counter.tsx" |});
   ("chunk-AAA.js", {| meta_imports := []; meta_entryPoint := None |});
   ("fresh-runtime.js",
    {| meta_imports := [{| import_path := "chunk-AAA.js";
                           import_kind := "import-statement" |}];
       meta_entryPoint := Some "runtime/client.ts" |})].

Definition counter_entryPoints : list (string * string) :=
  [("Counter", "/app/islands/Counter.tsx");
   ("fresh-runtime", "/app/runtime/client.ts")].

(** A stand-in for [path.relative] on paths below [dir]. *)
Definition relative_to (dir file : string) : string :=
  if startsWith file (dir +:+ "/")
  then sliceFrom file (Z.of_nat (String.length dir) + 1)
  else file.

Definition nothing_collected : Collected :=
  {| islandPaths := []; relRoutePaths := [] |}.

End MoreSamples.

(** * Properties *)

(** ** Route path ordering *)

Section RoutePathOrdering.

Local Open Scope Z_scope.

Lemma chr_eqb_spec (c1 c2 : option ascii) : reflect (c1 = c2) (chr_eqb c1 c2).
Proof.
  destruct c1 as [x|], c2 as [y|]; simpl; try (constructor; congruence).
  destruct (Ascii.eqb_spec x y); constructor; congruence.
Qed.

Lemma charAt_past_end (s : string) (i : nat) :
  (String.length s <= i)%nat -> charAt s i = None.
Proof.
  unfold charAt. revert i.
  induction s as [|c s IH]; intros i Hi; [reflexivity|].
  destruct i as [|i]; simpl in *; [lia|]. apply IH. lia.
Qed.

Lemma getRoutePathScore_no_char (s : string) (i : nat) :
  getRoutePathScore None s i = 2.
Proof.
  unfold getRoutePathScore. simpl.
  rewrite andb_false_r. reflexivity.
Qed.

(** Past the end of both strings the loop body only goes on. *)
Lemma sortRoutePaths_body_past_end (a b : string) (i segmentIdx : nat) :
  (String.length a <= i)%nat -> (String.length b <= i)%nat ->
  sortRoutePaths_body a b i segmentIdx = Continue segmentIdx.
Proof.
  intros Ha Hb. unfold sortRoutePaths_body.
  rewrite (charAt_past_end a i Ha), (charAt_past_end b i Hb).
  rewrite !getRoutePathScore_no_char. simpl.
  destruct (i =? segmentIdx + 1)%nat; reflexivity.
Qed.

Lemma sortRoutePaths_loop_past_end (a b : string) (n i segmentIdx : nat) :
  (String.length a <= i)%nat -> (String.length b <= i)%nat ->
  sortRoutePaths_loop a b n i segmentIdx = 0.
Proof.
  revert i segmentIdx.
  induction n as [|n IH]; intros i segmentIdx Ha Hb; [reflexivity|].
  simpl. rewrite sortRoutePaths_body_past_end by assumption.
  apply IH; lia.
Qed.

(** Iterations beyond the longer of the two strings change nothing. *)
Lemma sortRoutePaths_loop_extra (a b : string) (n k i segmentIdx : nat) :
  (String.length a <= i + n)%nat -> (String.length b <= i + n)%nat ->
  sortRoutePaths_loop a b (n + k) i segmentIdx
  = sortRoutePaths_loop a b n i segmentIdx.
Proof.
  revert i segmentIdx.
  induction n as [|n IH]; intros i segmentIdx Ha Hb.
  - simpl. apply sortRoutePaths_loop_past_end; lia.
  - simpl. destruct (sortRoutePaths_body a b i segmentIdx); [reflexivity|].
    apply IH; lia.
Qed.

Lemma sortRoutePaths_loop_fuel (a b : string) (n : nat) :
  (String.length a <= n)%nat -> (String.length b <= n)%nat ->
  sortRoutePaths_loop a b n 0 0
  = sortRoutePaths_loop a b
      (if (String.length b <? String.length a)%nat
       then String.length a else String.length b) 0 0.
Proof.
  intros Ha Hb.
  set (m := if (String.length b <? String.length a)%nat
            then String.length a else String.length b).
  assert (Hm : (String.length a <= m /\ String.length b <= m /\ m <= n)%nat).
  { subst m. destruct (Nat.ltb_spec (String.length b) (String.length a)); lia. }
  replace n with (m + (n - m))%nat by lia.
  apply sortRoutePaths_loop_extra; lia.
Qed.

(** One iteration, on three paths at the same index: how the verdicts
    on [(a, b)] and [(b, c)] determine the verdict on [(a, c)]. *)
Lemma sortRoutePaths_body_trans (a b c : string) (i segmentIdx : nat) :
  match sortRoutePaths_body a b i segmentIdx,
        sortRoutePaths_body b c i segmentIdx with
  | Return r1, Return r2 =>
      r1 < 0 -> r2 < 0 ->
      exists r3, sortRoutePaths_body a c i segmentIdx = Return r3 /\ r3 < 0
  | Return r1, Continue _ =>
      r1 < 0 ->
      exists r3, sortRoutePaths_body a c i segmentIdx = Return r3 /\ r3 < 0
  | Continue _, Return r2 =>
      r2 < 0 ->
      exists r3, sortRoutePaths_body a c i segmentIdx = Return r3 /\ r3 < 0
  | Continue s1, Continue s2 =>
      s1 = s2 /\ sortRoutePaths_body a c i segmentIdx = Continue s1
  end.
Proof.
  unfold sortRoutePaths_body.
  generalize (getRoutePathScore (charAt a i) a i)
             (getRoutePathScore (charAt b i) b i)
             (getRoutePathScore (charAt c i) c i).
  generalize (charAt a i) (charAt b i) (charAt c i).
  intros cA cB cC sA sB sC.
  destruct (chr_eqb_spec cA cB), (chr_eqb_spec cB cC), (chr_eqb_spec cA cC);
    subst; try congruence; simpl;
    repeat match goal with
           | |- context [chr_is ?x "/"] => destruct (chr_is x "/")
           end; simpl;
    destruct (i =? segmentIdx + 1)%nat; simpl;
    destruct (Z.eqb_spec sA sB), (Z.eqb_spec sB sC), (Z.eqb_spec sA sC);
    simpl; try lia;
    repeat match goal with
           | |- context [chr_ltb ?x ?y] => destruct (chr_ltb x y)
           | |- context [?x >? ?y] => destruct (Z.gtb_spec x y)
           end;
    try lia; try (intros; lia); try (split; reflexivity);
    try (intros; eexists; split; [reflexivity|lia]).
Qed.

Lemma sortRoutePaths_loop_trans (a b c : string) (n i segmentIdx : nat) :
  sortRoutePaths_loop a b n i segmentIdx < 0 ->
  sortRoutePaths_loop b c n i segmentIdx < 0 ->
  sortRoutePaths_loop a c n i segmentIdx < 0.
Proof.
  revert i segmentIdx.
  induction n as [|n IH]; intros i segmentIdx; simpl; [lia|].
  pose proof (sortRoutePaths_body_trans a b c i segmentIdx) as Hstep.
  destruct (sortRoutePaths_body a b i segmentIdx) as [r1|s1],
           (sortRoutePaths_body b c i segmentIdx) as [r2|s2];
    intros Hab Hbc.
  - destruct (Hstep Hab Hbc) as (r3 & -> & Hr3). exact Hr3.
  - destruct (Hstep Hab) as (r3 & -> & Hr3). exact Hr3.
  - destruct (Hstep Hbc) as (r3 & -> & Hr3). exact Hr3.
  - destruct Hstep as [<- ->]. now apply IH.
Qed.

(** One iteration on [(a, b)] and on [(b, a)]: a verdict below zero on one
    side is a verdict above zero on the other. *)
Lemma sortRoutePaths_body_swap (a b : string) (i segmentIdx : nat) :
  match sortRoutePaths_body a b i segmentIdx with
  | Return r =>
      r < 0 ->
      exists r', sortRoutePaths_body b a i segmentIdx = Return r' /\ 0 < r'
  | Continue s => sortRoutePaths_body b a i segmentIdx = Continue s
  end.
Proof.
  unfold sortRoutePaths_body.
  generalize (getRoutePathScore (charAt a i) a i)
             (getRoutePathScore (charAt b i) b i).
  generalize (charAt a i) (charAt b i).
  intros cA cB sA sB.
  destruct (chr_eqb_spec cA cB), (chr_eqb_spec cB cA);
    subst; try congruence; simpl;
    repeat match goal with
           | |- context [chr_is ?x "/"] => destruct (chr_is x "/")
           end; simpl;
    destruct (i =? segmentIdx + 1)%nat; simpl;
    destruct (Z.eqb_spec sA sB), (Z.eqb_spec sB sA); simpl; try lia;
    repeat match goal with
           | |- context [chr_ltb ?x ?y] => destruct (chr_ltb x y)
           | |- context [?x >? ?y] => destruct (Z.gtb_spec x y)
           end;
    try lia; try reflexivity; try (intros; lia);
    try (intros; eexists; split; [reflexivity|lia]).
Qed.

Lemma sortRoutePaths_loop_swap (a b : string) (n i segmentIdx : nat) :
  sortRoutePaths_loop a b n i segmentIdx < 0 ->
  0 < sortRoutePaths_loop b a n i segmentIdx.
Proof.
  revert i segmentIdx.
  induction n as [|n IH]; intros i segmentIdx; simpl; [lia|].
  pose proof (sortRoutePaths_body_swap a b i segmentIdx) as Hstep.
  destruct (sortRoutePaths_body a b i segmentIdx) as [r|s]; intros Hab.
  - destruct (Hstep Hab) as (r' & -> & Hr'). exact Hr'.
  - rewrite Hstep. now apply IH.
Qed.

Lemma sortRoutePaths_loop_same (a : string) (n i segmentIdx : nat) :
  sortRoutePaths_loop a a n i segmentIdx = 0.
Proof.
  revert i segmentIdx.
  induction n as [|n IH]; intros i segmentIdx; simpl; [reflexivity|].
  unfold sortRoutePaths_body.
  destruct (chr_eqb_spec (charAt a i) (charAt a i)) as [_|Hne]; [|congruence].
  rewrite Z.eqb_refl. simpl.
  destruct (chr_is (charAt a i) "/"); simpl; [apply IH|].
  destruct (i =? segmentIdx + 1)%nat; apply IH.
Qed.

End RoutePathOrdering.

(** C1 (as amended).  The strict part of [sortRoutePaths] is transitive on
    all strings: if [sortRoutePaths a b < 0] and [sortRoutePaths b c < 0]
    then [sortRoutePaths a c < 0]. *)
Theorem sortRoutePaths_transitive (a b c : string) :
  sortRoutePaths a b < 0 -> sortRoutePaths b c < 0 -> sortRoutePaths a c < 0.
Proof.
  unfold sortRoutePaths.
  destruct (APP_REG_test a); [lia|].
  destruct (APP_REG_test b); [lia|].
  destruct (APP_REG_test c); [lia|].
  set (n := (String.length a + String.length b + String.length c)%nat).
  rewrite <- (sortRoutePaths_loop_fuel a b n) by lia.
  rewrite <- (sortRoutePaths_loop_fuel b c n) by lia.
  rewrite <- (sortRoutePaths_loop_fuel a c n) by lia.
  apply sortRoutePaths_loop_trans.
Qed.

Lemma sortRoutePaths_transitive_witness :
  sortRoutePaths "/_middleware" "/index" < 0
  /\ sortRoutePaths "/index" "/blog/[id]" < 0
  /\ sortRoutePaths "/_middleware" "/blog/[id]" < 0.
Proof.
  assert (H1 : sortRoutePaths "/_middleware" "/index" < 0) by (vm_compute; reflexivity).
  assert (H2 : sortRoutePaths "/index" "/blog/[id]" < 0) by (vm_compute; reflexivity).
  split; [exact H1|]. split; [exact H2|].
  exact (sortRoutePaths_transitive _ _ _ H1 H2).
Defined.

(** Away from the [_app] guard the comparator is irreflexive and
    asymmetric: with transitivity, its strict part orders the paths that do
    not end in [_app].  A path that does not end in [_app] compares equal
    to itself. *)
Lemma sortRoutePaths_same_path (a : string) :
  APP_REG_test a = false -> sortRoutePaths a a = 0.
Proof.
  intros Ha. unfold sortRoutePaths. rewrite Ha.
  apply sortRoutePaths_loop_same.
Qed.

(** When [a] does not end in [_app] and is placed before [b], then [b] is
    placed after [a]. *)
Lemma sortRoutePaths_asymmetric (a b : string) :
  APP_REG_test a = false ->
  sortRoutePaths a b < 0 -> 0 < sortRoutePaths b a.
Proof.
  intros Ha. unfold sortRoutePaths. rewrite Ha.
  destruct (APP_REG_test b); [lia|].
  set (n := (String.length a + String.length b)%nat).
  rewrite <- (sortRoutePaths_loop_fuel a b n) by lia.
  rewrite <- (sortRoutePaths_loop_fuel b a n) by lia.
  apply sortRoutePaths_loop_swap.
Qed.

(** C1 (as stated).  [sortRoutePaths] is not a total order: the guard that
    puts an [_app] path first answers [-1] whenever its first argument ends
    in [_app], so two such paths are each below the other. *)
Lemma sortRoutePaths_not_total_order : ~ ComparatorTotalOrder sortRoutePaths.
Proof.
  intros H.
  pose proof (cto_antisym _ H "/_app" "/blog/_app") as Happ.
  vm_compute in Happ. specialize (Happ eq_refl). discriminate Happ.
Qed.

(** What the guard and the tie-break do on concrete paths. *)
Example sortRoutePaths_app_below_itself : sortRoutePaths "/_app" "/_app" = -1.
Proof. reflexivity. Qed.

Example sortRoutePaths_sibling_tie :
  sortRoutePaths "/ab" "/ac" = 0 /\ sortRoutePaths "/ac" "/ab" = 1.
Proof. split; reflexivity. Qed.

Example sortRoutePaths_directory_before_file :
  sortRoutePaths "/blog/post" "/blog" = -1
  /\ sortRoutePaths "/blog" "/blog/post" = 1.
Proof. split; reflexivity. Qed.

(** ** Suffix tests on paths *)

Section Suffixes.

Lemma prefix_comparable (p q s : string) :
  String.prefix p s = true -> String.prefix q s = true ->
  String.prefix p q = true \/ String.prefix q p = true.
Proof.
  assert (Hnil : forall t, String.prefix "" t = true) by (intros [|? ?]; reflexivity).
  revert p q.
  induction s as [|c s IH]; intros p q Hp Hq.
  - destruct p; [left; apply Hnil|discriminate Hp].
  - destruct p as [|x p]; [left; apply Hnil|].
    destruct q as [|y q]; [right; apply Hnil|].
    simpl in *.
    destruct (ascii_dec x c) as [->|]; [|discriminate Hp].
    destruct (ascii_dec y c) as [->|]; [|discriminate Hq].
    destruct (ascii_dec c c) as [_|Hc]; [|congruence].
    now apply IH.
Qed.

(** Two suffixes of one string: one of them is a suffix of the other. *)
Lemma endsWith_comparable (s u v : string) :
  endsWith s u = true -> endsWith s v = true ->
  endsWith u v = true \/ endsWith v u = true.
Proof.
  unfold endsWith. intros Hu Hv.
  destruct (prefix_comparable _ _ _ Hu Hv); [right|left]; assumption.
Qed.

Lemma endsWith_excludes (s u v : string) :
  endsWith s u = true -> endsWith u v = false -> endsWith v u = false ->
  endsWith s v = false.
Proof.
  intros Hu Huv Hvu. destruct (endsWith s v) eqn:Hv; [|reflexivity].
  destruct (endsWith_comparable _ _ _ Hu Hv); congruence.
Qed.

Lemma endsWith_not_eq (s u v : string) :
  endsWith s u = true -> endsWith v u = false -> String.eqb s v = false.
Proof.
  intros Hu Hv. destruct (String.eqb_spec s v) as [->|]; congruence.
Qed.

End Suffixes.

(** Facts about the other suffix tests on a path known to end in [u]. *)
Ltac other_suffixes H :=
  repeat match goal with
    | |- context [endsWith ?s ?v] =>
        lazymatch type of H with
        | endsWith s ?u = true =>
            lazymatch v with
            | u => rewrite H
            | _ => rewrite (endsWith_excludes s u v H eq_refl eq_refl)
            end
        end
    | |- context [String.eqb ?s ?v] =>
        lazymatch type of H with
        | endsWith s ?u = true => rewrite (endsWith_not_eq s u v H eq_refl)
        end
    end.

Section Composition.

Lemma walkStep_layout_skipped (st : WalkState) (entry : InternalRoute) :
  endsWith (path entry) "/_layout" = true ->
  components st = [] ->
  components (walkStep true st entry) = [].
Proof.
  intros Hl Hc. unfold walkStep. other_suffixes Hl.
  rewrite andb_false_r. rewrite Hc. simpl.
  destruct (negb (skipApp st) && config_skipAppWrapper (config entry)); 
    [destruct (hasApp st)|]; reflexivity.
Qed.
Lemma walk_layouts_skipped (stack : list InternalRoute) (st : WalkState) :
  Forall (fun entry => endsWith (path entry) "/_layout" = true) stack ->
  components st = [] ->
  components (fold_left (walkStep true) stack st) = [].
Proof.
  intros Hstack. revert st.
  induction Hstack as [|entry stack Hentry _ IH]; intros st Hst; simpl.
  - exact Hst.
  - apply IH. now apply walkStep_layout_skipped.
Qed.

(** With [skipInheritedLayouts] on the leaf, a [_layout] entry leaves the
    collected components as they are, whatever they are. *)
Lemma walkStep_layout_adds_nothing (st : WalkState) (entry : InternalRoute) :
  endsWith (path entry) "/_layout" = true ->
  components (walkStep true st entry) = components st
  \/ components (walkStep true st entry) = tail (components st).
Proof.
  intros Hl. unfold walkStep. other_suffixes Hl.
  rewrite andb_false_r. simpl.
  destruct (negb (skipApp st) && config_skipAppWrapper (config entry));
    [destruct (hasApp st)|]; simpl; auto.
Qed.

End Composition.

(** C2 (as amended).  When the leaf declares [skipInheritedLayouts] and the
    stack of its ancestors holds [_layout] files only, the component chain
    is exactly the leaf's own component: every layout is left out, the one
    of the immediate parent directory included. *)
Theorem skipInheritedLayouts_leaf_chain (leaf : InternalRoute)
    (stack : list InternalRoute) (hasApp0 : bool) (Page : AnyComponent) :
  config_skipInheritedLayouts (config leaf) = true ->
  component leaf = Some Page ->
  Forall (fun entry => endsWith (path entry) "/_layout" = true) stack ->
  componentChain leaf stack hasApp0 = [Page].
Proof.
  intros Hskip Hpage Hstack.
  unfold componentChain, walkStack. rewrite Hskip, Hpage.
  rewrite walk_layouts_skipped by (assumption || reflexivity).
  reflexivity.
Qed.

Lemma skipInheritedLayouts_leaf_chain_witness :
  componentChain
    {| path := "/a/b/page"; base := "/a/b"; filePath := "a/b/page.tsx";
       config := Samples.skip_inherited_layouts; handlers := None;
       component := Some Samples.Page |}
    [{| path := "/a/b/_layout"; base := "/a/b"; filePath := "a/b/_layout.tsx";
        config := None; handlers := None; component := Some Samples.Layout |}]
    false
  = [Samples.Page].
Proof.
  apply skipInheritedLayouts_leaf_chain.
  - reflexivity.
  - reflexivity.
  - repeat constructor.
Defined.

(** C2 (as stated).  With routes/a/b/_layout.tsx and a routes/a/b/page.tsx
    that declares [skipInheritedLayouts], the route registered for the page
    renders the page alone, not the layout followed by the page. *)
Lemma skipInheritedLayouts_keeps_no_layout :
  fsRoutes Samples.pattern_of Samples.nested_layout_tree
  = ([app_get "/a/b/page" [RenderMiddleware [Samples.Page] None]], None)
  /\ [Samples.Page] <> [Samples.Layout; Samples.Page].
Proof.
  split; [vm_compute; reflexivity|discriminate].
Qed.

(** Without the flag the layout of the parent directory is on the stack
    and in the chain; with the flag, and an app wrapper and a second layout
    above, only the app wrapper stays in front of the page. *)
Example layout_inherited_without_flag :
  fsRoutes Samples.pattern_of Samples.nested_layout_plain_tree
  = ([app_get "/a/b/page"
        [RenderMiddleware [Samples.Layout; Samples.Page] None]], None).
Proof. vm_compute. reflexivity. Qed.

Example skipInheritedLayouts_keeps_app_wrapper :
  fsRoutes Samples.pattern_of Samples.deep_layout_tree
  = ([app_get "/a/b/page"
        [RenderMiddleware [Samples.AppWrapper; Samples.Page] None]], None).
Proof. vm_compute. reflexivity. Qed.

(** C5 (as amended).  For a leaf that declares [skipAppWrapper] (and not
    [skipInheritedLayouts]) below the root [/_app], a [_middleware] file and
    a [_layout] file: the component chain is the layout's component followed
    by the leaf's, without the app wrapper, and the middleware chain holds
    the handler of the [_middleware] file. *)
Theorem skipAppWrapper_leaf_chain (appMod mwMod layoutMod leaf : InternalRoute)
    (mw : HandlerFn) (LayoutC PageC : AnyComponent) (hasApp0 : bool) :
  path appMod = "/_app" ->
  endsWith (path mwMod) "/_middleware" = true ->
  handlers mwMod = Some (HandlerFunction mw) ->
  component mwMod = None ->
  endsWith (path layoutMod) "/_layout" = true ->
  component layoutMod = Some LayoutC ->
  config_skipAppWrapper (config leaf) = true ->
  config_skipInheritedLayouts (config leaf) = false ->
  component leaf = Some PageC ->
  componentChain leaf [appMod; mwMod; layoutMod] hasApp0 = [LayoutC; PageC]
  /\ middlewareChain leaf [appMod; mwMod; layoutMod] hasApp0 = [ExportedFn mw].
Proof.
  intros Happ Hmw Hmwh Hmwc Hlay Hlayc Hskip Hlayouts Hpage.
  unfold componentChain, middlewareChain, walkStack.
  rewrite Hskip, Hlayouts, Hpage. simpl.
  unfold walkStep at 3 6. rewrite Happ. simpl.
  unfold walkStep at 2 4. other_suffixes Hmw. rewrite Hmwh, Hmwc. simpl.
  unfold walkStep. other_suffixes Hlay. rewrite Hlayc. simpl.
  destruct (config_skipInheritedLayouts (config mwMod)),
           (config_skipInheritedLayouts (config layoutMod)); simpl;
    split; reflexivity.
Qed.

Lemma skipAppWrapper_leaf_chain_witness :
  componentChain
    {| path := "/blog/post"; base := "/blog"; filePath := "blog/post.tsx";
       config := Samples.skip_app_wrapper; handlers := None;
       component := Some Samples.Page |}
    [{| path := "/_app"; base := ""; filePath := "_app.tsx"; config := None;
        handlers := None; component := Some Samples.AppWrapper |};
     {| path := "/blog/_middleware"; base := "/blog";
        filePath := "blog/_middleware.ts"; config := None;
        handlers := Some (HandlerFunction Samples.passThrough);
        component := None |};
     {| path := "/blog/_layout"; base := "/blog"; filePath := "blog/_layout.tsx";
        config := None; handlers := None; component := Some Samples.Layout |}]
    true
  = [Samples.Layout; Samples.Page]
  /\ middlewareChain
       {| path := "/blog/post"; base := "/blog"; filePath := "blog/post.tsx";
          config := Samples.skip_app_wrapper; handlers := None;
          component := Some Samples.Page |}
       [{| path := "/_app"; base := ""; filePath := "_app.tsx"; config := None;
           handlers := None; component := Some Samples.AppWrapper |};
        {| path := "/blog/_middleware"; base := "/blog";
           filePath := "blog/_middleware.ts"; config := None;
           handlers := Some (HandlerFunction Samples.passThrough);
           component := None |};
        {| path := "/blog/_layout"; base := "/blog"; filePath := "blog/_layout.tsx";
           config := None; handlers := None; component := Some Samples.Layout |}]
       true
     = [ExportedFn Samples.passThrough].
Proof.
  apply skipAppWrapper_leaf_chain; reflexivity.
Defined.

(** C5 (as stated).  When the [_app] file of the ancestor chain is not the
    root one (routes/blog/_app.tsx here), a leaf declaring [skipAppWrapper]
    still gets the app component at the front of its chain. *)
Lemma skipAppWrapper_keeps_nested_app :
  fsRoutes Samples.pattern_of Samples.nested_app_tree
  = ([app_get "/blog/post"
        [ExportedFn Samples.passThrough;
         RenderMiddleware [Samples.AppWrapper; Samples.Layout; Samples.Page] None]],
     None)
  /\ In Samples.AppWrapper [Samples.AppWrapper; Samples.Layout; Samples.Page].
Proof.
  split; [vm_compute; reflexivity|left; reflexivity].
Qed.

(** The same tree with the [_app] file at the root of routes/: the whole of
    [fsRoutes] registers the post with the layout and the page only. *)
Example skipAppWrapper_root_app_registered :
  fsRoutes Samples.pattern_of Samples.root_app_tree
  = ([app_get "/blog/post"
        [ExportedFn Samples.passThrough;
         RenderMiddleware [Samples.Layout; Samples.Page] None]],
     None).
Proof. vm_compute. reflexivity. Qed.

Section SkipAppWrapper.

Lemma walkStep_skipApp_plain_entry (st : WalkState) (entry : InternalRoute) :
  skipApp st = true -> plain_entry entry ->
  walkStep false st entry
  = {| middlewares := middlewares st ++ exported_middlewares entry;
       components := push_component (components st) (component entry);
       skipApp := true; hasApp := hasApp st; calls := calls st |}.
Proof.
  intros Hskip [[Hmw|Hlay] Hcfg]; unfold walkStep, exported_middlewares.
  - other_suffixes Hmw. rewrite Hskip, Hcfg. simpl.
    destruct (handlers entry) as [[fn|byMethod|fns]|]; simpl;
      rewrite ?app_nil_r; reflexivity.
  - other_suffixes Hlay. rewrite Hskip, Hcfg. simpl.
    rewrite app_nil_r. reflexivity.
Qed.

Lemma walk_skipApp_plain_entry (rest : list InternalRoute) (st : WalkState) :
  skipApp st = true -> Forall plain_entry rest ->
  components (fold_left (walkStep false) rest st)
  = components st ++ omap component rest
  /\ middlewares (fold_left (walkStep false) rest st)
     = middlewares st ++ flat_map exported_middlewares rest.
Proof.
  intros Hskip Hrest. revert st Hskip.
  induction Hrest as [|entry rest Hentry _ IH]; intros st Hskip; simpl.
  - rewrite !app_nil_r. split; reflexivity.
  - rewrite walkStep_skipApp_plain_entry by assumption.
    match goal with
    | |- context [fold_left _ rest ?s] => destruct (IH s eq_refl) as [-> ->]
    end. simpl.
    split; [|now rewrite <- app_assoc].
    unfold push_component. destruct (component entry); simpl;
      [now rewrite <- app_assoc|reflexivity].
Qed.

(** Below the root [/_app], whatever the order of the [_middleware] and
    [_layout] files on the stack: the chain of a leaf that declares
    [skipAppWrapper] is made of their components, in stack order, then
    the leaf's own. *)
Lemma skipAppWrapper_any_stack (appMod leaf : InternalRoute)
    (rest : list InternalRoute) (hasApp0 : bool) :
  path appMod = "/_app" ->
  config_skipAppWrapper (config leaf) = true ->
  config_skipInheritedLayouts (config leaf) = false ->
  Forall plain_entry rest ->
  componentChain leaf (appMod :: rest) hasApp0
  = push_component (omap component rest) (component leaf)
  /\ middlewareChain leaf (appMod :: rest) hasApp0
     = flat_map exported_middlewares rest.
Proof.
  intros Happ Hskip Hlayouts Hrest.
  unfold componentChain, middlewareChain, walkStack.
  rewrite Hskip, Hlayouts. simpl.
  unfold walkStep at 2 4. rewrite Happ. simpl.
  destruct (walk_skipApp_plain_entry rest
              {| middlewares := []; components := []; skipApp := true;
                 hasApp := false; calls := [] |} eq_refl Hrest) as [-> ->].
  split; reflexivity.
Qed.

End SkipAppWrapper.

(** ** Error and not-found boundaries *)

Section Boundaries.

Variable components : list AnyComponent.
Variable handler : option HandlerFn.

(** [renderMiddleware] builds an [async] function: it never throws
    synchronously. *)
Lemma renderMiddleware_async (next : Next) (ctx : FreshContext) :
  async (fst (renderMiddleware components handler next ctx))
  = fst (renderMiddleware components handler next ctx).
Proof.
  unfold renderMiddleware.
  destruct handler as [fn|].
  - destruct (fn_call fn next ctx) as [res ctx1].
    destruct (await res) as [[response|data]|e]; simpl; try reflexivity.
    destruct (length components =? 0)%nat; [reflexivity|].
    destruct (renderMiddleware_vnode components ctx1 data) as [[vnode|response]|e];
      try reflexivity.
    destruct (ctx_render ctx1 vnode); reflexivity.
  - destruct (length components =? 0)%nat; [reflexivity|].
    destruct (renderMiddleware_vnode components ctx None) as [[vnode|response]|e];
      try reflexivity.
    destruct (ctx_render ctx vnode); reflexivity.
Qed.

(** A chain that answers goes through both boundaries untouched. *)
Lemma errorMiddleware_passes_answer (next : Next) (ctx ctx1 : FreshContext)
    (v : Returned) :
  next ctx = (Fulfilled v, ctx1) ->
  errorMiddleware components handler next ctx = (Fulfilled v, ctx1).
Proof. intros H. unfold errorMiddleware. rewrite H. reflexivity. Qed.

Lemma notFoundMiddleware_passes_answer (next : Next) (ctx ctx1 : FreshContext)
    (v : Returned) :
  next ctx = (Fulfilled v, ctx1) ->
  notFoundMiddleware components handler next ctx = (Fulfilled v, ctx1).
Proof. intros H. unfold notFoundMiddleware. rewrite H. reflexivity. Qed.

Lemma isNotFound_iff (err : Thrown) :
  isNotFound err = true <-> exists message, err = HttpError 404 message.
Proof.
  destruct err as [st message|description]; simpl.
  - rewrite Z.eqb_eq. split.
    + intros ->. now exists message.
    + intros [m Hm]. now inversion Hm.
  - split; [discriminate|]. intros [m Hm]. discriminate Hm.
Qed.


(** C7.  The not-found middleware renders its own chain when the value
    thrown by [ctx.next()] is an [HttpError] with status 404, and only
    then; any other thrown value is thrown again as it is. *)
Theorem notFoundMiddleware_catches_only_404 (next : Next)
    (ctx ctx1 : FreshContext) (res : Outcome) (err : Thrown) :
  next ctx = (res, ctx1) ->
  await res = Throw err ->
  ((exists message, err = HttpError 404 message) ->
   notFoundMiddleware components handler next ctx
   = renderMiddleware components handler next ctx1)
  /\ ((forall message, err <> HttpError 404 message) ->
      notFoundMiddleware components handler next ctx = (Rejected err, ctx1)).
Proof.
  intros Hnext Hres. unfold notFoundMiddleware. rewrite Hnext, Hres.
  split.
  - intros H404. apply isNotFound_iff in H404. rewrite H404.
    pose proof (renderMiddleware_async next ctx1) as Hasync.
    destruct (renderMiddleware components handler next ctx1) as [res2 ctx2].
    simpl in Hasync. rewrite Hasync. reflexivity.
  - intros Hother. destruct (isNotFound err) eqn:E; [|reflexivity].
    apply isNotFound_iff in E. destruct E as [m Hm].
    now destruct (Hother m).
Qed.

End Boundaries.


Lemma notFoundMiddleware_catches_only_404_witness :
  ((exists message, HttpError 404 "Not Found" = HttpError 404 message) ->
   notFoundMiddleware [Samples.ErrorPage] None
     (Samples.failing_next (HttpError 404 "Not Found")) Samples.sample_context
   = renderMiddleware [Samples.ErrorPage] None
       (Samples.failing_next (HttpError 404 "Not Found")) Samples.sample_context)
  /\ ((forall message, HttpError 404 "Not Found" <> HttpError 404 message) ->
      notFoundMiddleware [Samples.ErrorPage] None
        (Samples.failing_next (HttpError 404 "Not Found")) Samples.sample_context
      = (Rejected (HttpError 404 "Not Found"), Samples.sample_context)).
Proof.
  apply (notFoundMiddleware_catches_only_404 [Samples.ErrorPage] None
           (Samples.failing_next (HttpError 404 "Not Found"))
           Samples.sample_context Samples.sample_context
           (Rejected (HttpError 404 "Not Found")) (HttpError 404 "Not Found"));
    reflexivity.
Defined.

(** The two cases of the not-found middleware on concrete errors. *)
Example notFoundMiddleware_renders_404 :
  notFoundMiddleware [Samples.ErrorPage] None
    (Samples.failing_next (HttpError 404 "Not Found")) Samples.sample_context
  = (Fulfilled (Resp {| status := 200;
                        headers := [("Content-Type", "text/html; charset=utf-8")];
                        body := Some "<c3></c3>" |}),
     Samples.sample_context).
Proof. vm_compute. reflexivity. Qed.

Example notFoundMiddleware_rethrows_500 :
  notFoundMiddleware [Samples.ErrorPage] None
    (Samples.failing_next (HttpError 500 "Internal")) Samples.sample_context
  = (Rejected (HttpError 500 "Internal"), Samples.sample_context).
Proof. vm_compute. reflexivity. Qed.

(** An error thrown by the handler of routes/a/page.tsx, below
    routes/a/_error.tsx: the chain registered for the page answers with the
    error page, rendered with the error in its props. *)
Example error_boundary_end_to_end :
  let err := OtherThrown "database is down" in
  fsRoutes Samples.pattern_of (Samples.error_boundary_tree err)
  = ([app_all "/a/*" [ErrorMiddleware [Samples.ErrorPage] None];
      app_all "/a/page"
        [ErrorMiddleware [Samples.ErrorPage] None;
         RenderMiddleware [Samples.Page] (Some (Samples.throwing err))]],
     None)
  /\ runChain [ErrorMiddleware [Samples.ErrorPage] None;
               RenderMiddleware [Samples.Page] (Some (Samples.throwing err))]
       (Samples.failing_next (HttpError 404 "Not Found")) Samples.sample_context
     = (Fulfilled (Resp {| status := 200;
                           headers := [("Content-Type", "text/html; charset=utf-8")];
                           body := Some "<c3 error></c3>" |}),
        set_error Samples.sample_context err).
Proof. split; vm_compute; reflexivity. Qed.

(** ** The request handler *)

Section DispatchProperties.

Variable HttpError_message : Z -> string.
Variable router_match : string -> string -> Matched.
Variable runMiddlewares : list (list MiddlewareFn) -> Next -> Next.
Variable render : VNode -> Completion Response.

Local Abbreviation handle :=
  (App_handler HttpError_message router_match runMiddlewares render).

(** [new Response] with a body and no headers. *)
Lemma Response_new_body (message : string) (st : Z) :
  Response_new (Some message) st []
  = if (toUnsignedShort st <? 200) || (599 <? toUnsignedShort st)
    then Throw RangeError
    else if isNullBodyStatus (toUnsignedShort st) then Throw TypeError
    else Normal {| status := toUnsignedShort st;
                   headers := [("content-type", "text/plain;charset=UTF-8")];
                   body := Some message |}.
Proof.
  unfold Response_new.
  destruct ((toUnsignedShort st <? 200) || (599 <? toUnsignedShort st));
    [reflexivity|].
  cbn [Headers_fill].
  destruct (isNullBodyStatus (toUnsignedShort st)); reflexivity.
Qed.

(** What the [catch] clause answers. *)
Lemma handler_catch_answers (err : Thrown) :
  match err with
  | HttpError st message =>
      refusedStatus st = false ->
      handler_catch err
      = Fulfilled (Resp {| status := toUnsignedShort st;
                           headers := [("content-type",
                                        "text/plain;charset=UTF-8")];
                           body := Some message |})
  | OtherThrown _ =>
      handler_catch err
      = Fulfilled (Resp {| status := 500;
                           headers := [("content-type",
                                        "text/plain;charset=UTF-8")];
                           body := Some "Internal server error" |})
  end.
Proof.
  destruct err as [st message|description]; [|reflexivity].
  unfold refusedStatus, handler_catch. rewrite Response_new_body.
  intros Hok. apply orb_false_iff in Hok as [Hrange Hnull].
  rewrite Hrange, Hnull. reflexivity.
Qed.

(** The [catch] clause never throws synchronously, and the promise is
    rejected exactly for an [HttpError] whose status [new Response]
    refuses. *)
Lemma handler_catch_rejects (err : Thrown) :
  (forall e, handler_catch err <> SyncThrow e)
  /\ (escapes (handler_catch err)
      <-> exists st message,
            err = HttpError st message /\ refusedStatus st = true).
Proof.
  destruct err as [st message|description].
  - unfold handler_catch. rewrite Response_new_body.
    assert (Hbad : refusedStatus st
                   = (toUnsignedShort st <? 200) || (599 <? toUnsignedShort st)
                     || isNullBodyStatus (toUnsignedShort st)) by reflexivity.
    destruct ((toUnsignedShort st <? 200) || (599 <? toUnsignedShort st)).
    + split; [discriminate|]. split; [|intros _; exact I].
      intros _. exists st, message. split; [reflexivity|exact Hbad].
    + destruct (isNullBodyStatus (toUnsignedShort st)).
      * split; [discriminate|]. split; [|intros _; exact I].
        intros _. exists st, message. split; [reflexivity|exact Hbad].
      * split; [discriminate|]. split; [intros []|].
        intros (st' & message' & Herr & Hbad'). injection Herr as <- <-.
        rewrite Hbad in Hbad'. discriminate Hbad'.
  - split; [discriminate|]. split; [intros []|].
    intros (st & message & Herr & _). discriminate Herr.
Qed.

(** On the general path, [runMiddlewares] is awaited inside the [try], so
    whatever the chain throws reaches the [catch] clause: nothing is thrown
    synchronously, and the promise of the handler is rejected exactly when
    the chain threw an [HttpError] with a status that [new Response]
    refuses (outside 200..599, or 204, 205 or 304); every other error
    becomes a response.  [router.match] is called in front of the [try]
    and is taken to return. *)
Lemma App_handler_general_path_contained (req : Request) :
  let matched := router_match (toUpperCase (req_method req))
                   (collapseSlashes (req_pathname req)) in
  let next := if patternMatch matched && negb (methodMatch matched)
              then DEFAULT_NOT_ALLOWED_METHOD HttpError_message
              else DEFAULT_NOT_FOUND HttpError_message in
  let ctx := {| ctx_url := req_pathname req; ctx_params := m_params matched;
                ctx_state := []; ctx_error := None; ctx_render := render |} in
  ~ single_handler (m_handlers matched) ->
  (forall e, handle req <> SyncThrow e)
  /\ (escapes (handle req)
      <-> exists st message,
            await (fst (runMiddlewares (m_handlers matched) next ctx))
            = Throw (HttpError st message)
            /\ refusedStatus st = true).
Proof.
  intros matched next ctx Hshape. unfold App_handler.
  fold matched. fold next. fold ctx.
  assert (Hgen :
    let settled := await (fst (runMiddlewares (m_handlers matched) next ctx)) in
    let answer := match settled with
                  | Normal v => Fulfilled v
                  | Throw err => handler_catch err
                  end in
    (forall e, answer <> SyncThrow e)
    /\ (escapes answer
        <-> exists st message,
              settled = Throw (HttpError st message)
              /\ refusedStatus st = true)).
  { intros settled answer. subst answer.
    destruct settled as [v|err].
    - split; [discriminate|]. split; [intros []|].
      intros (st & message & Hthrow & _). discriminate Hthrow.
    - destruct (handler_catch_rejects err) as [Hsync Hrej].
      split; [exact Hsync|]. rewrite Hrej. split.
      + intros (st & message & -> & Hbad). eauto.
      + intros (st & message & [= ->] & Hbad). eauto. }
  destruct (m_handlers matched) as [|[|fn [|fn' chain]] [|chain' rest]] eqn:Hm;
    try exact Hgen.
  exfalso. apply Hshape. now exists fn.
Qed.

(** On the fast path a synchronous throw is caught. *)
Lemma App_handler_fast_path_sync_throw (req : Request) (fn : MiddlewareFn)
    (err : Thrown) :
  m_handlers (router_match (toUpperCase (req_method req))
                (collapseSlashes (req_pathname req))) = [[fn]] ->
  (forall next ctx, fst (callMiddleware fn next ctx) = SyncThrow err) ->
  handle req = handler_catch err.
Proof.
  intros Hm Hfn. unfold App_handler. rewrite Hm, Hfn. reflexivity.
Qed.

(** On the fast path the promise of the handler is returned without
    being awaited: its rejection is the rejection of the request. *)
Lemma App_handler_fast_path_rejection (req : Request) (fn : MiddlewareFn)
    (err : Thrown) :
  m_handlers (router_match (toUpperCase (req_method req))
                (collapseSlashes (req_pathname req))) = [[fn]] ->
  (forall next ctx, fst (callMiddleware fn next ctx) = Rejected err) ->
  handle req = Rejected err.
Proof.
  intros Hm Hfn. unfold App_handler. rewrite Hm, Hfn. reflexivity.
Qed.

End DispatchProperties.

(** C3.  A route whose whole chain is the one render middleware of a page,
    the page's handler throwing [HttpError 403]: the request handler returns
    the promise of that middleware without awaiting it, so the rejection
    escapes instead of becoming a response with status 403. *)
Theorem App_handler_fast_path_escapes (HttpError_message : Z -> string)
    (runMiddlewares : list (list MiddlewareFn) -> Next -> Next)
    (render : VNode -> Completion Response) :
  let forbidden := HttpError 403 "Forbidden" in
  let chain := [[RenderMiddleware [Samples.Page] (Some (Samples.throwing forbidden))]] in
  let router_match := fun (_ _ : string) =>
    {| m_params := []; m_handlers := chain; patternMatch := true;
       methodMatch := true |} in
  App_handler HttpError_message router_match runMiddlewares render
    {| req_pathname := "/admin"; req_method := "GET" |}
  = Rejected forbidden
  /\ escapes (App_handler HttpError_message router_match runMiddlewares render
               {| req_pathname := "/admin"; req_method := "GET" |}).
Proof. split; [reflexivity|exact I]. Qed.

(** The same page behind one more middleware takes the general path, and
    the same error becomes the response the handler promises. *)
Example App_handler_general_path_translates (HttpError_message : Z -> string)
    (render : VNode -> Completion Response) :
  let forbidden := HttpError 403 "Forbidden" in
  let chain := [[ExportedFn Samples.passThrough];
                [RenderMiddleware [Samples.Page] (Some (Samples.throwing forbidden))]] in
  let router_match := fun (_ _ : string) =>
    {| m_params := []; m_handlers := chain; patternMatch := true;
       methodMatch := true |} in
  App_handler HttpError_message router_match runMiddlewares_spec render
    {| req_pathname := "/admin"; req_method := "GET" |}
  = Fulfilled (Resp {| status := 403;
                       headers := [("content-type", "text/plain;charset=UTF-8")];
                       body := Some "Forbidden" |}).
Proof. reflexivity. Qed.

(** ** Slices, prefixes and collapsed slashes *)

Section RedirectHelper.

Lemma append_empty_r (s : string) : s +:+ "" = s.
Proof.
  induction s as [|c s IH]; [reflexivity|].
  change (String c (s +:+ "") = String c s). now rewrite IH.
Qed.

Lemma substring_all (s : string) : substring 0 (String.length s) s = s.
Proof. induction s as [|c s IH]; simpl; [reflexivity|now rewrite IH]. Qed.

Lemma substring_split (s : string) (k : nat) :
  (k <= String.length s)%nat ->
  substring 0 k s +:+ substring k (String.length s - k) s = s.
Proof.
  revert k. induction s as [|c s IH]; intros k Hk.
  - destruct k; [reflexivity|simpl in Hk; lia].
  - destruct k as [|k].
    + rewrite Nat.sub_0_r, substring_all. reflexivity.
    + simpl. specialize (IH k ltac:(simpl in Hk; lia)).
      change (String c (substring 0 k s +:+ substring k (String.length s - k) s)
              = String c s).
      now rewrite IH.
Qed.

Lemma substring_from_get (s : string) (k : nat) (c : ascii) :
  String.get k s = Some c ->
  exists t, substring k (String.length s - k) s = String c t.
Proof.
  revert k. induction s as [|x s IH]; intros k Hk; [destruct k; discriminate|].
  destruct k as [|k]; simpl in *.
  - injection Hk as ->. eauto.
  - apply IH. exact Hk.
Qed.

(** [indexOf]: either the character is absent, or the index of an
    occurrence is returned. *)
Lemma indexOf_from_spec (s : string) (c : ascii) (i : Z) :
  0 <= i ->
  indexOf_from s c i = -1
  \/ exists k : nat,
       indexOf_from s c i = i + Z.of_nat k
       /\ (k < String.length s)%nat /\ String.get k s = Some c.
Proof.
  revert i. induction s as [|x s IH]; intros i Hi; [left; reflexivity|].
  simpl. destruct (Ascii.eqb_spec x c) as [->|Hne].
  - right. exists 0%nat. simpl. repeat split; lia.
  - destruct (IH (i + 1) ltac:(lia)) as [->|(k & -> & Hk & Hget)]; [now left|].
    right. exists (S k). simpl. repeat split; try lia. exact Hget.
Qed.

Lemma clampIndex_of_nat (len k : nat) :
  (k <= len)%nat -> clampIndex len (Z.of_nat k) = k.
Proof.
  intros Hk. unfold clampIndex.
  destruct (Z.ltb_spec (Z.of_nat k) 0); lia.
Qed.






End RedirectHelper.

(** ** Island registration *)

Section Islands.

Lemma suffixed_inj (name : string) : Inj (=) (=) (suffixed name).
Proof.
  intros i j H. unfold suffixed in H.
  apply (inj (String.app name)) in H.
  apply (inj (String.app "_")) in H.
  now apply (inj pretty) in H.
Qed.

(** The [while] loop stops on the first suffix that is free, or runs out
    of iterations with every suffix it has seen taken. *)
Lemma island_suffix_spec (names : gset string) (name : string) (fuel i : nat) :
  let r := island_suffix names name fuel i in
  (i <= r <= i + fuel)%nat
  /\ (forall j, (i <= j < r)%nat -> suffixed name j ∈ names)
  /\ ((r < i + fuel)%nat -> suffixed name r ∉ names).
Proof.
  revert i. induction fuel as [|fuel IH]; intros i; simpl.
  - repeat split; intros; lia.
  - destruct (bool_decide_reflect (suffixed name i ∈ names)) as [Hin|Hout].
    + destruct (IH (S i)) as ((Hlo & Hhi) & Hseen & Hfree).
      repeat split; try lia.
      * intros j Hj. destruct (decide (j = i)) as [->|]; [exact Hin|].
        apply Hseen. lia.
      * intros Hr. apply Hfree. lia.
    + repeat split; try lia. intros; assumption.
Qed.

(** One iteration more than the size of the set is enough: the loop
    always ends on a name that is not in the set. *)
Lemma island_suffix_free (names : gset string) (name : string) :
  suffixed name (island_suffix names name (S (size names)) 0) ∉ names.
Proof.
  destruct (island_suffix_spec names name (S (size names)) 0)
    as ((_ & Hhi) & Hseen & Hfree).
  set (r := island_suffix names name (S (size names)) 0) in *.
  destruct (decide (r < S (size names))%nat) as [Hlt|Hge];
    [apply Hfree; lia|].
  exfalso.
  assert (Hr : r = S (size names)) by lia.
  set (taken := suffixed name <$> seq 0 (S (size names))).
  assert (Hsub : (list_to_set taken : gset string) ⊆ names).
  { intros x Hx. apply elem_of_list_to_set in Hx.
    apply list_elem_of_fmap in Hx as (j & -> & Hj).
    apply elem_of_seq in Hj. apply Hseen. lia. }
  apply subseteq_size in Hsub.
  rewrite size_list_to_set in Hsub.
  - subst taken. rewrite length_fmap, length_seq in Hsub. lia.
  - subst taken. apply NoDup_fmap_2; [apply suffixed_inj|apply NoDup_seq].
Qed.

(** Whenever the set of names does hold the base name, [island] picks a
    suffixed name that is not in the set. *)
Lemma island_unique_name_fresh (names : gset string) (filePath exportName : string) :
  island_unique_name names filePath exportName ∉ names.
Proof.
  unfold island_unique_name.
  destruct (bool_decide_reflect
              (island_base_name filePath exportName ∈ names)) as [Hin|Hout].
  - apply island_suffix_free.
  - exact Hout.
Qed.

(** [island] never writes to [#islandNames]. *)
Lemma App_island_names_unchanged (app : AppIslands) (filePath exportName : string)
    (fn : nat) :
  islandNames (App_island app filePath exportName fn) = islandNames app.
Proof. reflexivity. Qed.

Lemma App_islands_names_unchanged (registrations : list (string * string * nat))
    (app : AppIslands) :
  islandNames (App_islands app registrations) = islandNames app.
Proof.
  revert app. induction registrations as [|[[filePath exportName] fn] rest IH];
    intros app; [reflexivity|].
  unfold App_islands in *. simpl. now rewrite IH.
Qed.

(** So on an application whose set is empty, as it is after [new App], every
    island is stored under its base name, collision or not. *)
Lemma App_islands_base_names (registrations : list (string * string * nat))
    (app : AppIslands) :
  islandNames app = ∅ ->
  (forall fn island, islandRegistry app !! fn = Some island ->
     island_name island
     = island_base_name (island_file island) (island_exportName island)) ->
  forall fn island,
    islandRegistry (App_islands app registrations) !! fn = Some island ->
    island_name island
    = island_base_name (island_file island) (island_exportName island).
Proof.
  revert app. induction registrations as [|[[filePath exportName] fn0] rest IH];
    intros app Hnames Hreg; [exact Hreg|].
  unfold App_islands in *. simpl. apply IH.
  - exact Hnames.
  - intros fn island. unfold App_island. simpl.
    destruct (decide (fn0 = fn)) as [->|Hne].
    + rewrite lookup_insert_eq. intros [= <-]. simpl.
      unfold island_unique_name. rewrite Hnames.
      destruct (bool_decide_reflect
                  (island_base_name filePath exportName ∈ (∅ : gset string)))
        as [Hin|_]; [|reflexivity].
      now apply not_elem_of_empty in Hin.
    + rewrite lookup_insert_ne by exact Hne. apply Hreg.
Qed.

End Islands.

(** C9.  Two islands that are the default exports of two files called
    Counter.tsx: the second registration finds [#islandNames] empty, as the
    first one never added its name, and both islands are stored under the
    name [Counter]. *)
Theorem island_names_not_deduplicated :
  let app :=
    App_islands new_App
      [("islands/Counter.tsx", "default", 1%nat);
       ("routes/shop/(_islands)/Counter.tsx", "default", 2%nat)] in
  island_name <$> islandRegistry app !! 1%nat = Some "Counter"
  /\ island_name <$> islandRegistry app !! 2%nat = Some "Counter"
  /\ ~ island_names_unique app.
Proof.
  intros app.
  assert (H1 : islandRegistry app !! 1%nat
               = Some {| island_fn := 1; island_exportName := "default";
                         island_name := "Counter";
                         island_file := "islands/Counter.tsx" |})
    by (vm_compute; reflexivity).
  assert (H2 : islandRegistry app !! 2%nat
               = Some {| island_fn := 2; island_exportName := "default";
                         island_name := "Counter";
                         island_file := "routes/shop/(_islands)/Counter.tsx" |})
    by (vm_compute; reflexivity).
  split; [now rewrite H1|]. split; [now rewrite H2|].
  intros Hunique.
  apply (Hunique 1%nat 2%nat _ _ H1 H2); [lia|reflexivity].
Qed.

(** Had the set held the first name, the second island would have been
    renamed: the loop itself is in order. *)
Example island_unique_name_suffixes :
  island_unique_name {[ "Counter" ]} "routes/shop/(_islands)/Counter.tsx" "default"
  = "Counter_0"
  /\ island_unique_name {[ "Counter"; "Counter_0" ]} "islands/b/Counter.tsx" "default"
     = "Counter_1".
Proof. split; vm_compute; reflexivity. Qed.

(** ** The ordering of one directory *)

(** C4.  The route paths of [_app], [_middleware], [about], [[id]],
    [[...slug]] and [index] in one directory, in whatever order the walk
    found the files: sorting them with [sortRoutePaths] gives [_app],
    [_middleware], [index], [about], [[id]], [[...slug]]. *)
Theorem one_directory_sorted (found : list string) :
  found ≡ₚ map normalizedPath_of Samples.one_directory ->
  arraySort sortRoutePaths found
  = ["/_app"; "/_middleware"; "/index"; "/about"; "/[id]"; "/[...slug]"].
Proof.
  intros Hperm. symmetry in Hperm. apply permutations_Permutation in Hperm.
  revert found Hperm.
  refine (proj1 (Forall_forall
                   (fun found => arraySort sortRoutePaths found = _) _) _).
  apply (bool_decide_unpack _). vm_compute. exact I.
Qed.

Lemma one_directory_sorted_witness :
  arraySort sortRoutePaths
    ["/[...slug]"; "/about"; "/_middleware"; "/index"; "/[id]"; "/_app"]
  = ["/_app"; "/_middleware"; "/index"; "/about"; "/[id]"; "/[...slug]"].
Proof.
  apply one_directory_sorted.
  apply (bool_decide_unpack _). vm_compute. exact I.
Defined.

(** The order does not depend on the sorting procedure: it is the only
    arrangement of the six paths in which no path is followed by one that
    the comparator places before it. *)
Lemma one_directory_order_unique (arranged : list string) :
  arranged ≡ₚ map normalizedPath_of Samples.one_directory ->
  StronglySorted (fun a b => sortRoutePaths a b <= 0) arranged ->
  arranged
  = ["/_app"; "/_middleware"; "/index"; "/about"; "/[id]"; "/[...slug]"].
Proof.
  intros Hperm. symmetry in Hperm. apply permutations_Permutation in Hperm.
  revert arranged Hperm.
  refine (proj1 (Forall_forall
                   (fun arranged =>
                      StronglySorted (fun a b => sortRoutePaths a b <= 0) arranged
                      -> arranged = _) _) _).
  apply (bool_decide_unpack _). vm_compute. exact I.
Qed.

(** * Further properties *)

(** ** Special files and the ordering inside a directory *)

Section DirectoryOrdering.

Lemma String_length_append (s t : string) :
  String.length (s +:+ t) = (String.length s + String.length t)%nat.
Proof.
  induction s as [|c s IH]; [reflexivity|].
  change (S (String.length (s +:+ t)) = S (String.length s + String.length t)).
  now rewrite IH.
Qed.

Lemma charAt_append_l (s t : string) (i : nat) :
  (i < String.length s)%nat -> charAt (s +:+ t) i = charAt s i.
Proof. intros Hi. unfold charAt. symmetry. now apply append_correct1. Qed.

Lemma charAt_append_r (s t : string) (k : nat) :
  charAt (s +:+ t) (String.length s + k) = charAt t k.
Proof.
  unfold charAt. rewrite (Nat.add_comm (String.length s) k).
  symmetry. apply append_correct2.
Qed.

Lemma charAt_some_lt (s : string) (i : nat) (c : ascii) :
  charAt s i = Some c -> (i < String.length s)%nat.
Proof.
  intros H. destruct (Nat.lt_ge_cases i (String.length s)) as [Hlt|Hge];
    [exact Hlt|].
  rewrite (charAt_past_end s i Hge) in H. discriminate H.
Qed.

Lemma String_append_assoc (s t u : string) : (s +:+ t) +:+ u = s +:+ (t +:+ u).
Proof.
  induction s as [|c s IH]; [reflexivity|].
  change (String c ((s +:+ t) +:+ u) = String c (s +:+ (t +:+ u))).
  now rewrite IH.
Qed.

Variable dir : string.

(** The common prefix of the two paths: the directory and its slash. *)
Local Abbreviation p := (dir +:+ "/").

Lemma prefix_last_slash : charAt p (String.length dir) = Some "/"%char.
Proof.
  rewrite <- (Nat.add_0_r (String.length dir)).
  rewrite charAt_append_r. reflexivity.
Qed.

Lemma prefix_length : String.length p = S (String.length dir).
Proof. rewrite String_length_append. simpl. lia. Qed.

(** Inside the common prefix the score of a character does not depend on
    what follows the prefix. *)
Lemma score_in_prefix (x y : string) (i : nat) :
  (i < String.length dir)%nat ->
  getRoutePathScore (charAt p i) (p +:+ x) i
  = getRoutePathScore (charAt p i) (p +:+ y) i.
Proof.
  intros Hi.
  assert (Hnext : forall z, charAt (p +:+ z) (i + 1) = charAt p (i + 1)).
  { intros z. apply charAt_append_l. rewrite prefix_length. lia. }
  assert (Hlen : forall z, (i + 1 <? String.length (p +:+ z))%nat = true).
  { intros z. apply Nat.ltb_lt. rewrite String_length_append, prefix_length. lia. }
  assert (Hindex : forall z,
    (Z.of_nat i + 4 =? Z.of_nat (String.length (p +:+ z)) - 1)
    && chr_is (charAt p i) "i" && chr_is (charAt (p +:+ z) (i + 1)) "n"
    && chr_is (charAt (p +:+ z) (i + 2)) "d"
    && chr_is (charAt (p +:+ z) (i + 3)) "e"
    && chr_is (charAt (p +:+ z) (i + 4)) "x" = false).
  { intros z.
    assert (Hslash : charAt (p +:+ z) (String.length dir) = Some "/"%char).
    { rewrite charAt_append_l by (rewrite prefix_length; lia).
      apply prefix_last_slash. }
    destruct (Z.eqb_spec (Z.of_nat i + 4)
                (Z.of_nat (String.length (p +:+ z)) - 1)) as [Heq|Hne];
      [|reflexivity].
    rewrite String_length_append, prefix_length in Heq.
    assert (Hcases : (String.length dir = i + 1 \/ String.length dir = i + 2
                      \/ String.length dir = i + 3
                      \/ String.length dir = i + 4)%nat) by lia.
    destruct Hcases as [H|[H|[H|H]]]; rewrite <- H, Hslash; simpl;
      rewrite ?andb_false_r; reflexivity. }
  unfold getRoutePathScore.
  rewrite !Hindex, !Hlen, !Hnext. reflexivity.
Qed.

(** Inside the common prefix the loop body only goes on, recording the
    slashes it passes. *)
Lemma body_in_prefix (x y : string) (i segmentIdx : nat) :
  (i <= String.length dir)%nat ->
  sortRoutePaths_body (p +:+ x) (p +:+ y) i segmentIdx
  = Continue (if chr_is (charAt p i) "/" then i else segmentIdx).
Proof.
  intros Hi. unfold sortRoutePaths_body.
  rewrite !(charAt_append_l p) by (rewrite prefix_length; lia).
  destruct (chr_is (charAt p i) "/") eqn:Hslash; simpl; [reflexivity|].
  assert (Hlt : (i < String.length dir)%nat).
  { destruct (decide (i = String.length dir)) as [->|]; [|lia].
    rewrite prefix_last_slash in Hslash. discriminate Hslash. }
  rewrite (score_in_prefix x y i Hlt), Z.eqb_refl.
  destruct (chr_eqb_spec (charAt p i) (charAt p i)) as [_|Hne]; [|congruence].
  simpl. destruct (i =? segmentIdx + 1)%nat; reflexivity.
Qed.

(** The loop runs through the common prefix and arrives at the first
    character after it with [segmentIdx] on the slash of the prefix. *)
Lemma loop_through_prefix (x y : string) (k n i segmentIdx : nat) :
  (i + S k = String.length p)%nat ->
  sortRoutePaths_loop (p +:+ x) (p +:+ y) (S k + n) i segmentIdx
  = sortRoutePaths_loop (p +:+ x) (p +:+ y) n (String.length p)
      (String.length dir).
Proof.
  revert i segmentIdx. induction k as [|k IH]; intros i segmentIdx Hi;
    rewrite prefix_length in Hi.
  - assert (i = String.length dir) as -> by lia.
    change (S 0 + n)%nat with (S n). cbn [sortRoutePaths_loop].
    rewrite body_in_prefix by lia.
    rewrite prefix_last_slash, prefix_length. reflexivity.
  - change (S (S k) + n)%nat with (S (S k + n)). cbn [sortRoutePaths_loop].
    rewrite body_in_prefix by lia.
    apply IH. rewrite prefix_length. lia.
Qed.

End DirectoryOrdering.

Lemma getRoutePathScore_underscore (s : string) (i : nat) :
  4 <= getRoutePathScore (Some "_"%char) s i.
Proof.
  unfold getRoutePathScore. simpl.
  destruct (i + 1 <? String.length s)%nat; [|lia].
  destruct (chr_is (charAt s (i + 1)) "e"); [lia|].
  destruct (chr_is (charAt s (i + 1)) "m"); lia.
Qed.

Lemma getRoutePathScore_other (c : ascii) (s : string) (i : nat) :
  c <> "_"%char -> getRoutePathScore (Some c) s i <= 3.
Proof.
  intros Hc. unfold getRoutePathScore. simpl.
  destruct (Ascii.eqb_spec c "_") as [->|_]; [congruence|].
  destruct (Ascii.eqb c "[").
  - destruct ((i + 1 <? String.length s)%nat && chr_is (charAt s (i + 1)) "."); lia.
  - match goal with |- (if ?b then _ else _) <= _ => destruct b end; lia.
Qed.

(** In every directory, a file or folder whose name begins with an
    underscore is placed before every sibling whose name does not, and
    before everything below such a sibling: [_middleware], [_layout],
    [_error], [_404] and [_500] come before the leaves they apply to. *)
Theorem underscore_names_sort_first (dir x y : string) (c : ascii) :
  c <> "_"%char -> c <> "/"%char ->
  APP_REG_test (dir +:+ "/" +:+ String c y) = false ->
  sortRoutePaths (dir +:+ "/" +:+ String "_" x) (dir +:+ "/" +:+ String c y) = -1
  /\ sortRoutePaths (dir +:+ "/" +:+ String c y) (dir +:+ "/" +:+ String "_" x) = 1.
Proof.
  intros Hc Hslash Happ.
  rewrite <- !String_append_assoc in *.
  set (a := (dir +:+ "/") +:+ String "_" x) in *.
  set (b := (dir +:+ "/") +:+ String c y) in *.
  assert (Hpa : String.length a = (S (String.length dir) + S (String.length x))%nat).
  { unfold a. rewrite String_length_append, prefix_length. reflexivity. }
  assert (Hpb : String.length b = (S (String.length dir) + S (String.length y))%nat).
  { unfold b. rewrite String_length_append, prefix_length. reflexivity. }
  assert (HcA : charAt a (String.length (dir +:+ "/")) = Some "_"%char).
  { unfold a. rewrite <- (Nat.add_0_r (String.length (dir +:+ "/"))).
    now rewrite charAt_append_r. }
  assert (HcB : charAt b (String.length (dir +:+ "/")) = Some c).
  { unfold b. rewrite <- (Nat.add_0_r (String.length (dir +:+ "/"))).
    now rewrite charAt_append_r. }
  assert (Hbody_ab : sortRoutePaths_body a b (String.length (dir +:+ "/"))
                       (String.length dir) = Return (-1)).
  { unfold sortRoutePaths_body. rewrite HcA, HcB. simpl.
    destruct (Ascii.eqb_spec c "/") as [->|_]; [congruence|].
    rewrite prefix_length, Nat.add_1_r, Nat.eqb_refl.
    pose proof (getRoutePathScore_underscore a (S (String.length dir))).
    pose proof (getRoutePathScore_other c b (S (String.length dir)) Hc).
    destruct (Z.eqb_spec (getRoutePathScore (Some "_"%char) a (S (String.length dir)))
                (getRoutePathScore (Some c) b (S (String.length dir)))); [lia|].
    destruct (Z.gtb_spec (getRoutePathScore (Some "_"%char) a (S (String.length dir)))
                (getRoutePathScore (Some c) b (S (String.length dir)))); [reflexivity|lia]. }
  assert (Hbody_ba : sortRoutePaths_body b a (String.length (dir +:+ "/"))
                       (String.length dir) = Return 1).
  { unfold sortRoutePaths_body. rewrite HcA, HcB. simpl.
    destruct (Ascii.eqb_spec c "/") as [->|_]; [congruence|].
    rewrite prefix_length, Nat.add_1_r, Nat.eqb_refl.
    pose proof (getRoutePathScore_underscore a (S (String.length dir))).
    pose proof (getRoutePathScore_other c b (S (String.length dir)) Hc).
    destruct (Z.eqb_spec (getRoutePathScore (Some c) b (S (String.length dir)))
                (getRoutePathScore (Some "_"%char) a (S (String.length dir)))); [lia|].
    destruct (Z.gtb_spec (getRoutePathScore (Some c) b (S (String.length dir)))
                (getRoutePathScore (Some "_"%char) a (S (String.length dir)))); [lia|reflexivity]. }
  set (n := (String.length x + String.length y + 1)%nat).
  assert (Hloop_ab : sortRoutePaths_loop a b (S (String.length dir) + S n) 0 0 = -1).
  { unfold a, b. rewrite (loop_through_prefix dir) by (rewrite prefix_length; lia).
    cbn [sortRoutePaths_loop]. fold a b. now rewrite Hbody_ab. }
  assert (Hloop_ba : sortRoutePaths_loop b a (S (String.length dir) + S n) 0 0 = 1).
  { unfold a, b. rewrite (loop_through_prefix dir) by (rewrite prefix_length; lia).
    cbn [sortRoutePaths_loop]. fold a b. now rewrite Hbody_ba. }
  unfold sortRoutePaths. rewrite Happ.
  rewrite <- (sortRoutePaths_loop_fuel a b (S (String.length dir) + S n)) by lia.
  rewrite <- (sortRoutePaths_loop_fuel b a (S (String.length dir) + S n)) by lia.
  rewrite Hloop_ab, Hloop_ba.
  destruct (APP_REG_test a); split; reflexivity.
Qed.

Lemma underscore_names_sort_first_witness :
  sortRoutePaths "/blog/_layout" "/blog/[slug]/comments" = -1
  /\ sortRoutePaths "/blog/[slug]/comments" "/blog/_layout" = 1.
Proof.
  apply (underscore_names_sort_first "/blog" "layout" "slug]/comments" "[");
    [discriminate|discriminate|reflexivity].
Defined.

Lemma sortRoutePaths_same_path_witness : sortRoutePaths "/blog/[slug]" "/blog/[slug]" = 0.
Proof. apply sortRoutePaths_same_path. reflexivity. Defined.

Lemma sortRoutePaths_asymmetric_witness :
  0 < sortRoutePaths "/about" "/index".
Proof.
  apply sortRoutePaths_asymmetric; [reflexivity|vm_compute; reflexivity].
Defined.

(** ** From a file name to a route path and its base *)

Section RoutePathDerivation.

Lemma indexOf_absent_lastIndexOf (s : string) (c : ascii) (i j found : Z) :
  0 <= i -> indexOf_from s c i = -1 -> lastIndexOf_from s c j found = found.
Proof.
  revert i j found. induction s as [|x s IH]; intros i j found Hi Habs;
    [reflexivity|].
  simpl in *. destruct (Ascii.eqb x c); [lia|].
  apply (IH (i + 1)); [lia|exact Habs].
Qed.

Lemma lastIndexOf_from_append (s t : string) (c : ascii) (i found : Z) :
  lastIndexOf_from (s +:+ t) c i found
  = lastIndexOf_from t c (i + Z.of_nat (String.length s))
      (lastIndexOf_from s c i found).
Proof.
  revert i found. induction s as [|x s IH]; intros i found.
  - simpl. now rewrite Z.add_0_r.
  - change (String x s +:+ t) with (String x (s +:+ t)).
    cbn [lastIndexOf_from String.length]. rewrite IH. f_equal. lia.
Qed.

(** The last occurrence of [c] in [s ++ c ++ t], when [t] has none. *)
Lemma lastIndexOf_separator (s t : string) (c : ascii) :
  indexOf t c = -1 ->
  lastIndexOf (s +:+ String c t) c = Z.of_nat (String.length s).
Proof.
  intros Ht. unfold lastIndexOf. rewrite lastIndexOf_from_append.
  cbn [lastIndexOf_from]. rewrite Ascii.eqb_refl.
  rewrite (indexOf_absent_lastIndexOf t c 0) by (lia || exact Ht).
  lia.
Qed.

Lemma substring_prefix (s t : string) :
  substring 0 (String.length s) (s +:+ t) = s.
Proof.
  induction s as [|c s IH]; [destruct t; reflexivity|].
  change (String c s +:+ t) with (String c (s +:+ t)).
  cbn [String.length substring]. now rewrite IH.
Qed.

Lemma slice_prefix (s t : string) :
  slice (s +:+ t) 0 (Z.of_nat (String.length s)) = s.
Proof.
  unfold slice.
  rewrite (clampIndex_of_nat _ 0) by lia.
  rewrite clampIndex_of_nat by (rewrite String_length_append; lia).
  rewrite Nat.sub_0_r. apply substring_prefix.
Qed.

End RoutePathDerivation.

(** A file [name.ext] in a directory (or at the top of routes/) becomes the
    route path of the directory followed by the name, its extension
    removed at the last dot, and its base is the directory: the empty
    string at the top, no trailing slash below. *)
Theorem loadRouteModule_path_and_base (dir name ext routePath : string)
    (m : FreshFsItem) (route : InternalRoute) :
  "/" +:+ routePath = dir +:+ "/" +:+ name +:+ "." +:+ ext ->
  indexOf name "/" = -1 ->
  indexOf ext "." = -1 ->
  loadRouteModule routePath m = Normal route ->
  path route = dir +:+ "/" +:+ name
  /\ base route = dir
  /\ filePath route = routePath.
Proof.
  intros Hfull Hname Hext Hload.
  assert (Hrel : exists rel, routePath = (rel +:+ name) +:+ String "." ext
                             /\ "/" +:+ rel = dir +:+ "/").
  { destruct dir as [|d0 dir'].
    - exists "". split; [|reflexivity].
      change ("/" +:+ routePath) with (String "/" routePath) in Hfull.
      change ("" +:+ "/" +:+ name +:+ "." +:+ ext)
        with (String "/" (name +:+ String "." ext)) in Hfull.
      now injection Hfull.
    - exists (dir' +:+ "/").
      change ("/" +:+ routePath) with (String "/" routePath) in Hfull.
      change (String d0 dir' +:+ "/" +:+ name +:+ "." +:+ ext)
        with (String d0 (dir' +:+ "/" +:+ name +:+ "." +:+ ext)) in Hfull.
      injection Hfull as <- ->. split; [|reflexivity].
      now rewrite !String_append_assoc. }
  destruct Hrel as (rel & Hroute & Hdir).
  assert (Hnorm : normalizedPath_of routePath = dir +:+ "/" +:+ name).
  { unfold normalizedPath_of. rewrite Hroute.
    rewrite lastIndexOf_separator by exact Hext.
    rewrite slice_prefix.
    rewrite <- String_append_assoc, Hdir. now rewrite String_append_assoc. }
  assert (Hbase : slice (dir +:+ "/" +:+ name) 0
                    (lastIndexOf (dir +:+ "/" +:+ name) "/") = dir).
  { change (dir +:+ "/" +:+ name) with (dir +:+ String "/" name).
    rewrite lastIndexOf_separator by exact Hname. apply slice_prefix. }
  unfold loadRouteModule in Hload.
  destruct (negb (isFreshFile m)); [discriminate Hload|].
  match type of Hload with
  | (if ?b then _ else _) = _ => destruct b; [discriminate Hload|]
  end.
  injection Hload as <-. cbn [path base filePath].
  rewrite Hnorm, Hbase. repeat split; reflexivity.
Qed.

Lemma loadRouteModule_path_and_base_witness :
  loadRouteModule "blog/[slug].tsx" (Samples.component_module Samples.Page None)
  = Normal MoreSamples.slug_route
  /\ path MoreSamples.slug_route = "/blog/[slug]"
  /\ base MoreSamples.slug_route = "/blog"
  /\ filePath MoreSamples.slug_route = "blog/[slug].tsx".
Proof.
  split; [reflexivity|].
  apply (loadRouteModule_path_and_base "/blog" "[slug]" "tsx" "blog/[slug].tsx"
           (Samples.component_module Samples.Page None));
    reflexivity.
Defined.

(** ** Loading the route modules *)

Section Loading.

Lemma loadRouteModule_loadable (routePath : string) (m : FreshFsItem) :
  match loadRouteModule routePath m with
  | Normal route =>
      loadable m = true
      /\ filePath route = routePath
      /\ path route = normalizedPath_of routePath
      /\ config route = mod_config m
      /\ component route = mod_default m
      /\ handlers route = nullish (mod_handlers m) (mod_handler m)
  | Throw _ => loadable m = false
  end.
Proof.
  unfold loadRouteModule, loadable.
  destruct (isFreshFile m); simpl; [|reflexivity].
  destruct (nullish (mod_handlers m) (mod_handler m)) as [[fn|byMethod|fns]|];
    simpl; try (repeat split; reflexivity).
  destruct (Nat.ltb_spec 1 (fn_length fn)), (Nat.leb_spec (fn_length fn) 1);
    simpl; try lia; repeat split; reflexivity.
Qed.

Lemma loadRouteModules_loadable (files : list (string * FreshFsItem)) :
  match loadRouteModules files with
  | Normal routes =>
      forallb (fun file => loadable (snd file)) files = true
      /\ map filePath routes = map fst files
      /\ map path routes = map (fun file => normalizedPath_of (fst file)) files
      /\ map config routes = map (fun file => mod_config (snd file)) files
      /\ map component routes = map (fun file => mod_default (snd file)) files
  | Throw _ => forallb (fun file => loadable (snd file)) files = false
  end.
Proof.
  induction files as [|[routePath m] files IH]; simpl.
  - repeat split; reflexivity.
  - pose proof (loadRouteModule_loadable routePath m) as Hone.
    destruct (loadRouteModule routePath m) as [route|e].
    + destruct Hone as (-> & Hfile & Hpath & Hconfig & Hcomp & _). simpl.
      destruct (loadRouteModules files) as [routes|e]; [|exact IH].
      destruct IH as (-> & H1 & H2 & H3 & H4). simpl.
      rewrite Hfile, Hpath, Hconfig, Hcomp, H1, H2, H3, H4.
      repeat split; reflexivity.
    + rewrite Hone. reflexivity.
Qed.

End Loading.



(** The island phase calls [app.island] for the function exports of the
    island modules, and for nothing else. *)
Lemma island_calls_spec (islands : list (string * list (string * ExportedValue)))
    (call : FsCall) :
  In call (island_calls islands)
  <-> exists islandPath exports key fn,
        call = island_call islandPath key fn
        /\ In (islandPath, exports) islands
        /\ In (key, FunctionValue fn) exports.
Proof.
  unfold island_calls, loadIslands, island_exports.
  rewrite in_map_iff. split.
  - intros ([[islandPath key] fn] & <- & Hin).
    apply in_flat_map in Hin as ([p exports] & Hisland & Hin).
    apply in_flat_map in Hin as ([k value] & Hexport & Hin).
    cbn [fst snd] in Hin. destruct value as [f|]; [|destruct Hin].
    destruct Hin as [[= <- <- <-]|[]].
    exists p, exports, k, f. auto.
  - intros (islandPath & exports & key & fn & -> & Hisland & Hexport).
    exists (islandPath, key, fn). split; [reflexivity|].
    apply in_flat_map. exists (islandPath, exports). split; [exact Hisland|].
    apply in_flat_map. exists (key, FunctionValue fn).
    split; [exact Hexport|]. left. reflexivity.
Qed.



Example fsRoutes_rejects_two_parameters :
  fsRoutes Samples.pattern_of
    [("api/info.ts", Samples.handler_module MoreSamples.two_parameter_handler)]
  = ([], Some (handler_arity_error "api/info.ts")).
Proof. reflexivity. Qed.

(** ** The stack of open directories *)

Section Stack.

Lemma popStack_split (routePath : string) (stack : list InternalRoute) :
  exists dropped,
    stack = popStack routePath stack ++ dropped
    /\ Forall (fun m => left_directory routePath m = true) dropped.
Proof.
  induction stack as [|m above IH]; [exists []; split; [reflexivity|constructor]|].
  destruct IH as (dropped & Habove & Hdropped). simpl.
  destruct (popStack routePath above) as [|k kept] eqn:Hpop.
  - fold (left_directory routePath m).
    destruct (left_directory routePath m) eqn:Hm.
    + exists (m :: dropped). simpl in *. split; [now rewrite Habove|].
      now constructor.
    + exists dropped. simpl in *. split; [now rewrite Habove|assumption].
  - exists dropped. split; [|assumption].
    rewrite Habove at 1. reflexivity.
Qed.

Lemma popStack_top (routePath : string) (stack : list InternalRoute)
    (m : InternalRoute) :
  last (popStack routePath stack) = Some m ->
  left_directory routePath m = false.
Proof.
  revert m. induction stack as [|x above IH]; intros top; simpl; [discriminate|].
  destruct (popStack routePath above) as [|k kept] eqn:Hpop.
  - fold (left_directory routePath x).
    destruct (left_directory routePath x) eqn:Hx; simpl; [discriminate|].
    now intros [= <-].
  - intros Htop. apply IH. exact Htop.
Qed.

End Stack.

(** Popping only removes entries from the top of the stack, only entries
    whose directory the file has left, and stops at the first entry that
    still applies; an entry at the top level of routes/ (empty base) is
    never removed. *)
Theorem popStack_spec (routePath : string) (stack : list InternalRoute) :
  (exists dropped,
      stack = popStack routePath stack ++ dropped
      /\ Forall (fun m => left_directory routePath m = true) dropped)
  /\ (forall m, last (popStack routePath stack) = Some m ->
                left_directory routePath m = false)
  /\ (forall m, In m stack -> base m = "" -> In m (popStack routePath stack)).
Proof.
  split; [apply popStack_split|]. split; [apply popStack_top|].
  intros m Hin Hbase.
  destruct (popStack_split routePath stack) as (dropped & Hstack & Hdropped).
  rewrite Hstack in Hin. apply in_app_or in Hin as [Hkept|Hgone];
    [exact Hkept|].
  rewrite Forall_forall in Hdropped.
  apply list_elem_of_In in Hgone. specialize (Hdropped m Hgone).
  unfold left_directory in Hdropped. rewrite Hbase in Hdropped.
  discriminate Hdropped.
Qed.

(** ** Inheritance along the stack *)

Section Inheritance.

Lemma inherited_entry_spec (entry : InternalRoute) :
  inherited_entry entry = true ->
  config_skipAppWrapper (config entry) = false
  /\ config_skipInheritedLayouts (config entry) = false
  /\ endsWith (path entry) "/_error" = false
  /\ endsWith (path entry) "/_500" = false
  /\ endsWith (path entry) "/_404" = false.
Proof.
  unfold inherited_entry. rewrite !andb_true_iff, !negb_true_iff. tauto.
Qed.

Lemma walkStep_exported_middlewares (entry : InternalRoute)
    (mws : list MiddlewareFn) :
  (if endsWith (path entry) "/_middleware" then
     match handlers entry with
     | Some hs =>
         if negb (isHandlerByMethod hs) then mws ++ as_middleware hs
         else match hs with
              | HandlerArray fns => mws ++ map ExportedFn fns
              | _ => mws
              end
     | None => mws
     end
   else mws)
  = mws ++ exported_middlewares entry.
Proof.
  unfold exported_middlewares.
  destruct (endsWith (path entry) "/_middleware"); [|now rewrite app_nil_r].
  destruct (handlers entry) as [[fn|byMethod|fns]|]; simpl;
    rewrite ?app_nil_r; reflexivity.
Qed.

Lemma walkStep_inherited (skipLayouts : bool) (st : WalkState)
    (entry : InternalRoute) :
  skipApp st = false -> skipLayouts = false ->
  inherited_entry entry = true ->
  walkStep skipLayouts st entry
  = {| middlewares := middlewares st ++ exported_middlewares entry;
       components := push_component (components st) (component entry);
       skipApp := false; hasApp := hasApp st; calls := calls st |}.
Proof.
  intros Hskip -> Hentry.
  destruct (inherited_entry_spec entry Hentry) as (Ha & Hl & He & H5 & H4).
  unfold walkStep.
  rewrite walkStep_exported_middlewares, Hskip, Ha, Hl, He, H5, H4.
  reflexivity.
Qed.

Lemma walk_inherited (stack : list InternalRoute) (st : WalkState) :
  skipApp st = false ->
  forallb inherited_entry stack = true ->
  fold_left (walkStep false) stack st
  = {| middlewares := middlewares st ++ flat_map exported_middlewares stack;
       components := components st ++ omap component stack;
       skipApp := false; hasApp := hasApp st; calls := calls st |}.
Proof.
  revert st. induction stack as [|entry stack IH]; intros st Hskip Hstack; simpl.
  - rewrite !app_nil_r. destruct st; simpl in *. now subst.
  - apply andb_true_iff in Hstack as [Hentry Hstack].
    rewrite walkStep_inherited by (assumption || reflexivity).
    rewrite IH by (assumption || reflexivity). simpl.
    rewrite <- app_assoc. f_equal.
    unfold push_component. destruct (component entry); simpl;
      [now rewrite <- app_assoc|reflexivity].
Qed.

End Inheritance.

(** A leaf that declares no flag, under ancestors that declare none and
    are not error or not-found files: its component chain is the
    components of the stack entries, outermost directory first, followed by
    its own, and its middleware chain is the functions exported by the
    [_middleware] files, in the same order.  The walk registers nothing and
    leaves [hasApp] as it was. *)
Theorem leaf_inherits_whole_stack (leaf : InternalRoute)
    (stack : list InternalRoute) (hasApp0 : bool) (calls0 : list AppCall) :
  config_skipAppWrapper (config leaf) = false ->
  config_skipInheritedLayouts (config leaf) = false ->
  forallb inherited_entry stack = true ->
  componentChain leaf stack hasApp0
  = push_component (omap component stack) (component leaf)
  /\ middlewareChain leaf stack hasApp0 = flat_map exported_middlewares stack
  /\ calls (walkStack leaf stack hasApp0 calls0) = calls0
  /\ hasApp (walkStack leaf stack hasApp0 calls0) = hasApp0.
Proof.
  intros Happ Hlayouts Hstack.
  unfold componentChain, middlewareChain, walkStack.
  rewrite Happ, Hlayouts, !walk_inherited by (assumption || reflexivity).
  repeat split; reflexivity.
Qed.

Lemma leaf_inherits_whole_stack_witness :
  componentChain MoreSamples.post_leaf
    [MoreSamples.app_entry; MoreSamples.middleware_entry; MoreSamples.layout_entry]
    true
  = [Samples.AppWrapper; Samples.Layout; Samples.Page]
  /\ middlewareChain MoreSamples.post_leaf
       [MoreSamples.app_entry; MoreSamples.middleware_entry;
        MoreSamples.layout_entry] true
     = [ExportedFn Samples.passThrough]
  /\ calls (walkStack MoreSamples.post_leaf
              [MoreSamples.app_entry; MoreSamples.middleware_entry;
               MoreSamples.layout_entry] true []) = []
  /\ hasApp (walkStack MoreSamples.post_leaf
               [MoreSamples.app_entry; MoreSamples.middleware_entry;
                MoreSamples.layout_entry] true []) = true.
Proof.
  apply (leaf_inherits_whole_stack MoreSamples.post_leaf
           [MoreSamples.app_entry; MoreSamples.middleware_entry;
            MoreSamples.layout_entry] true []); reflexivity.
Defined.

(** ** Error boundaries on the stack *)

Section ErrorBoundary.

Lemma rev_app_append (s t u : string) :
  String.rev_app (s +:+ t) u = String.rev_app t (String.rev_app s u).
Proof.
  revert u. induction s as [|c s IH]; intros u; [reflexivity|].
  change (String c s +:+ t) with (String c (s +:+ t)). simpl. apply IH.
Qed.

Lemma rev_app_acc (s u : string) :
  String.rev_app s u = String.rev_app s "" +:+ u.
Proof.
  revert u. induction s as [|c s IH]; intros u; [reflexivity|].
  simpl. rewrite (IH (String c u)), (IH (String c "")).
  now rewrite String_append_assoc.
Qed.

Lemma prefix_append (s t : string) : String.prefix s (s +:+ t) = true.
Proof.
  induction s as [|c s IH]; [destruct t; reflexivity|].
  change (String.prefix (String c s) (String c s +:+ t))
    with (if ascii_dec c c then String.prefix s (s +:+ t) else false).
  destruct (ascii_dec c c); [exact IH|congruence].
Qed.

Lemma endsWith_append (s t : string) : endsWith (s +:+ t) t = true.
Proof.
  unfold endsWith, String.rev.
  rewrite rev_app_append, (rev_app_acc t (String.rev_app s "")).
  apply prefix_append.
Qed.

Lemma error_parent_of_error_file (dir : string) :
  error_parent (dir +:+ "/_error")
  = if String.eqb dir "" then "*" else dir +:+ "/*".
Proof.
  unfold error_parent, slice.
  rewrite (clampIndex_of_nat _ 0) by lia.
  assert (Hend : clampIndex (String.length (dir +:+ "/_error"))
                   (- Z.of_nat (String.length "_error"))
                 = String.length (dir +:+ "/")).
  { unfold clampIndex. rewrite !String_length_append. simpl String.length.
    destruct (Z.ltb_spec (- Z.of_nat 6) 0); lia. }
  rewrite Hend, Nat.sub_0_r.
  change (dir +:+ "/_error") with (dir +:+ ("/" +:+ "_error")).
  rewrite <- String_append_assoc, substring_prefix.
  destruct dir as [|c dir]; [reflexivity|].
  change (String c dir +:+ "/") with (String c (dir +:+ "/")).
  change (String c dir +:+ "/*") with (String c (dir +:+ "/*")).
  destruct dir as [|c' dir]; simpl.
  - destruct (Ascii.eqb c "/"); reflexivity.
  - destruct (Ascii.eqb c "/");
      change (String c (String c' dir +:+ "/") +:+ "*")
        with (String c ((String c' dir +:+ "/") +:+ "*"));
      now rewrite String_append_assoc.
Qed.

End ErrorBoundary.

(** An [_error] file of a directory, met on the stack of a leaf: the walk
    registers an error middleware for every method under the directory's
    wildcard ([*] at the top of routes/) and puts the same middleware in the
    leaf's chain.  The middleware renders the components collected so far
    followed by the error page; the error page itself is not handed down to
    the leaf. *)
Theorem error_file_registers_boundary (skipLayouts : bool) (st : WalkState)
    (entry : InternalRoute) (dir : string) :
  path entry = dir +:+ "/_error" ->
  config_skipAppWrapper (config entry) = false ->
  config_skipInheritedLayouts (config entry) = false ->
  let boundary :=
    ErrorMiddleware (push_component (components st) (component entry))
      (boundary_handler (handlers entry)) in
  walkStep skipLayouts st entry
  = {| middlewares := middlewares st ++ [boundary];
       components := components st;
       skipApp := skipApp st; hasApp := hasApp st;
       calls := calls st
                ++ [app_all (if String.eqb dir "" then "*" else dir +:+ "/*")
                      [boundary]] |}.
Proof.
  intros Hpath Happ Hlayouts boundary.
  assert (Herr : endsWith (path entry) "/_error" = true)
    by (rewrite Hpath; apply endsWith_append).
  unfold walkStep. rewrite Happ, Hlayouts. other_suffixes Herr.
  rewrite !andb_false_r. simpl.
  rewrite Hpath, error_parent_of_error_file. reflexivity.
Qed.

Lemma error_file_registers_boundary_witness :
  walkStep false
    {| middlewares := []; components := [Samples.AppWrapper]; skipApp := false;
       hasApp := true; calls := [] |}
    {| path := "/admin/_error"; base := "/admin"; filePath := "admin/_error.tsx";
       config := None; handlers := None; component := Some Samples.ErrorPage |}
  = {| middlewares :=
         [ErrorMiddleware [Samples.AppWrapper; Samples.ErrorPage] None];
       components := [Samples.AppWrapper];
       skipApp := false; hasApp := true;
       calls := [app_all "/admin/*"
                   [ErrorMiddleware [Samples.AppWrapper; Samples.ErrorPage] None]] |}.
Proof.
  apply (error_file_registers_boundary false
           {| middlewares := []; components := [Samples.AppWrapper];
              skipApp := false; hasApp := true; calls := [] |}
           {| path := "/admin/_error"; base := "/admin";
              filePath := "admin/_error.tsx"; config := None; handlers := None;
              component := Some Samples.ErrorPage |} "/admin"); reflexivity.
Defined.

(** The same computation on an [_500] file removes the six characters of
    [_error] from a name that has four. *)
Example error_parent_of_500_file : error_parent "/admin/_500" = "/admi*".
Proof. reflexivity. Qed.

(** ** What [fsRoutes] registers *)

Section Registration.

Lemma arraySort_insert_Forall {A : Type} (P : A -> Prop) (cmp : A -> A -> Z)
    (x : A) (l : list A) :
  P x -> Forall P l -> Forall P (arraySort_insert cmp x l).
Proof.
  intros Hx Hl. induction Hl as [|y l Hy Hl IH]; simpl.
  - repeat constructor. exact Hx.
  - destruct (cmp x y <? 0); repeat constructor; assumption.
Qed.

Lemma arraySort_Forall {A : Type} (P : A -> Prop) (cmp : A -> A -> Z)
    (l : list A) :
  Forall P l -> Forall P (arraySort cmp l).
Proof.
  unfold arraySort. intros Hl.
  assert (Hgen : forall acc, Forall P acc ->
            Forall P (fold_left (fun sorted x => arraySort_insert cmp x sorted)
                        l acc)).
  { induction Hl as [|x l Hx Hl IH]; intros acc Hacc; simpl; [exact Hacc|].
    apply IH. now apply arraySort_insert_Forall. }
  apply Hgen. constructor.
Qed.

Lemma fsRoutes_body_special (pathToPattern : string -> string) (st : FsState)
    (routeMod : InternalRoute) :
  isSpecialFile (path routeMod) = true ->
  exists st',
    fsRoutes_body pathToPattern st routeMod = (st', None)
    /\ fs_calls st' = fs_calls st.
Proof.
  intros Hspecial. unfold fsRoutes_body. rewrite Hspecial.
  destruct (endsWith (path routeMod) "/_app"); eexists; split; reflexivity.
Qed.

Lemma fsRoutes_loop_special (pathToPattern : string -> string)
    (routeModules : list InternalRoute) (st : FsState) :
  Forall (fun routeMod => isSpecialFile (path routeMod) = true) routeModules ->
  exists st',
    fsRoutes_loop pathToPattern st routeModules = (st', None)
    /\ fs_calls st' = fs_calls st.
Proof.
  intros Hall. revert st.
  induction Hall as [|routeMod rest Hspecial _ IH]; intros st; simpl.
  - exists st. split; reflexivity.
  - destruct (fsRoutes_body_special pathToPattern st routeMod Hspecial)
      as (st1 & -> & Hcalls).
    destruct (IH st1) as (st' & -> & Hcalls').
    exists st'. split; [reflexivity|congruence].
Qed.

End Registration.

(** Special files register nothing by themselves: when every file of the
    tree is an [_app], [_middleware], [_layout], [_error], [_404] or [_500]
    file, the route phase makes no call on the application. *)
Lemma route_phase_special_files (pathToPattern : string -> string)
    (files : list (string * FreshFsItem)) :
  forallb (fun file => isSpecialFile (normalizedPath_of (fst file))) files = true ->
  fst (fsRoutes pathToPattern files) = [].
Proof.
  intros Hall. unfold fsRoutes.
  pose proof (loadRouteModules_loadable files) as Hload.
  destruct (loadRouteModules files) as [routes|e]; [|reflexivity].
  destruct Hload as (_ & _ & Hpaths & _).
  assert (Hroutes : Forall (fun routeMod => isSpecialFile (path routeMod) = true)
                      routes).
  { rewrite forallb_forall in Hall. apply Forall_forall. intros routeMod Hin.
    assert (Hp : In (path routeMod) (map path routes))
      by (apply in_map, list_elem_of_In, Hin).
    rewrite Hpaths in Hp. apply in_map_iff in Hp as (file & <- & Hfile).
    now apply Hall. }
  apply (arraySort_Forall _ (fun a b => sortRoutePaths (path a) (path b)))
    in Hroutes.
  destruct (fsRoutes_loop_special pathToPattern _
              {| stack := []; fs_hasApp := false; fs_calls := [] |} Hroutes)
    as (st' & -> & Hcalls).
  exact Hcalls.
Qed.

(** When every file of the routes folder is an [_app], [_middleware],
    [_layout], [_error], [_404] or [_500] file, the calls that [fsRoutes]
    makes on the application are the [app.island] calls of the island
    phase: special files register a route or a middleware only through a
    leaf route below them. *)
Theorem special_files_register_nothing (pathToPattern : string -> string)
    (islands : list (string * list (string * ExportedValue)))
    (files : list (string * FreshFsItem)) :
  forallb (fun file => isSpecialFile (normalizedPath_of (fst file))) files = true ->
  fst (fsRoutes_with_islands pathToPattern islands files) = island_calls islands.
Proof.
  intros Hall. unfold fsRoutes_with_islands.
  pose proof (route_phase_special_files pathToPattern files Hall) as Hnone.
  destruct (fsRoutes pathToPattern files) as [calls err].
  cbn [fst] in *. subst calls. cbn [map]. apply app_nil_r.
Qed.

Lemma special_files_register_nothing_witness :
  fst (fsRoutes_with_islands Samples.pattern_of MoreSamples.counter_island
         [("_app.tsx", Samples.component_module Samples.AppWrapper None);
          ("blog/_layout.tsx", Samples.component_module Samples.Layout None);
          ("blog/_error.tsx", Samples.component_module Samples.ErrorPage None);
          ("_middleware.ts", Samples.handler_module Samples.passThrough)])
  = [island_call "/app/islands/Counter.tsx" "default" 7].
Proof.
  apply (special_files_register_nothing Samples.pattern_of
           MoreSamples.counter_island). reflexivity.
Defined.

(** Whatever a leaf exports as handlers, every route registered for it is
    registered at the leaf's pattern and runs the inherited middlewares
    first and, last, one render middleware that holds the leaf's component
    chain. *)
Theorem leaf_routes_end_in_render (routePath : string) (leaf : InternalRoute)
    (mws : list MiddlewareFn) (comps : list AnyComponent) :
  Forall (fun call =>
            call_path call = Some routePath
            /\ exists handler,
                 call_middlewares call
                 = mws ++ [RenderMiddleware comps handler])
    (fst (registerLeaf routePath leaf mws comps)).
Proof.
  set (P := fun call =>
              call_path call = Some routePath
              /\ exists handler,
                   call_middlewares call
                   = mws ++ [RenderMiddleware comps handler]).
  assert (Hone : forall (entry : Method * option HandlerFn),
            Forall P
              (let '(method, fn) := entry in
               match fn with
               | Some fn =>
                   [app_method method routePath
                      (mws ++ [RenderMiddleware comps (Some fn)])]
               | None => []
               end)).
  { intros [method [fn|]]; [|constructor].
    repeat constructor; destruct method; unfold P; simpl; eauto. }
  unfold registerLeaf.
  destruct (handlers leaf) as [[fn|byMethod|fns]|]; simpl.
  - repeat constructor. unfold P. simpl. eauto.
  - destruct byMethod as [|entry byMethod]; simpl.
    + repeat constructor. unfold P. simpl. eauto.
    + apply Forall_app. split; [apply Hone|].
      induction byMethod as [|next byMethod IH]; simpl; [constructor|].
      apply Forall_app. split; [apply Hone|exact IH].
  - destruct fns; simpl; repeat constructor. unfold P. simpl. eauto.
  - repeat constructor. unfold P. simpl. eauto.
Qed.

(** ** The render middleware *)

Section Rendering.

Lemma renderMiddleware_vnode_functions (ids : list nat) (ctx : FreshContext)
    (data : option string) :
  renderMiddleware_vnode (map FunctionComponent ids) ctx data
  = Normal (inl (nested_vnode ids (ctx_url ctx) (ctx_params ctx)
                   (ctx_error ctx) data)).
Proof.
  induction ids as [|id ids IH]; simpl; [reflexivity|].
  rewrite IH. reflexivity.
Qed.

End Rendering.

(** A chain of function components is rendered as one tree: the first
    component (the app wrapper, or the outermost layout) is the root, every
    component has the next one as its [Component] child, the page is
    innermost, and all of them get the same props.  The tree is handed to
    [ctx.render] once and its answer is the answer of the middleware. *)
Theorem render_nests_components (id : nat) (ids : list nat) (next : Next)
    (ctx : FreshContext) :
  renderMiddleware (map FunctionComponent (id :: ids)) None next ctx
  = (match ctx_render ctx
             (h id (ctx_url ctx) (ctx_params ctx) (ctx_error ctx) None
                (nested_vnode ids (ctx_url ctx) (ctx_params ctx)
                   (ctx_error ctx) None)) with
     | Normal response => Fulfilled (Resp response)
     | Throw e => Rejected e
     end, ctx).
Proof.
  unfold renderMiddleware.
  rewrite (renderMiddleware_vnode_functions (id :: ids)).
  simpl. destruct (ctx_render ctx _); reflexivity.
Qed.

(** An async component that answers with a [Response] ends the rendering:
    the components in front of it are not built and the response is the
    result, whatever they are. *)
Theorem async_component_response_wins (outer inner : list AnyComponent)
    (run : FreshContext -> VNode -> Completion (VNode + Response))
    (ctx : FreshContext) (data : option string) (child : VNode)
    (response : Response) :
  renderMiddleware_vnode inner ctx data = Normal (inl child) ->
  run ctx child = Normal (inr response) ->
  renderMiddleware_vnode (outer ++ AsyncComponent run :: inner) ctx data
  = Normal (inr response).
Proof.
  intros Hinner Hrun.
  induction outer as [|fn outer IH]; simpl.
  - now rewrite Hinner, Hrun.
  - now rewrite IH.
Qed.

Lemma async_component_response_wins_witness :
  renderMiddleware_vnode
    ([Samples.AppWrapper; Samples.Layout]
     ++ MoreSamples.redirecting_component :: [Samples.Page])
    Samples.sample_context None
  = Normal (inr MoreSamples.login_redirect).
Proof.
  apply (async_component_response_wins
           [Samples.AppWrapper; Samples.Layout] [Samples.Page]
           (fun _ _ => Normal (inr MoreSamples.login_redirect))
           Samples.sample_context None
           (h 2 "/a/page" [] None None vnull) MoreSamples.login_redirect);
    reflexivity.
Defined.

(** ** Boundaries in a chain *)

(** When the rest of the chain answers, the error middleware and the
    not-found middleware both hand that answer back, and the context is as
    the chain left it: [ctx.error] is not touched and nothing is rendered. *)
Theorem boundaries_pass_answers (components : list AnyComponent)
    (handler : option HandlerFn) (next : Next) (ctx ctx1 : FreshContext)
    (v : Returned) :
  next ctx = (Fulfilled v, ctx1) ->
  errorMiddleware components handler next ctx = (Fulfilled v, ctx1)
  /\ notFoundMiddleware components handler next ctx = (Fulfilled v, ctx1).
Proof.
  intros Hnext. split.
  - now apply errorMiddleware_passes_answer.
  - now apply notFoundMiddleware_passes_answer.
Qed.

Lemma boundaries_pass_answers_witness :
  errorMiddleware [Samples.ErrorPage] None MoreSamples.answering_next
    Samples.sample_context
  = (Fulfilled (Resp {| status := 200; headers := []; body := Some "ok" |}),
     Samples.sample_context)
  /\ notFoundMiddleware [Samples.ErrorPage] None MoreSamples.answering_next
       Samples.sample_context
     = (Fulfilled (Resp {| status := 200; headers := []; body := Some "ok" |}),
        Samples.sample_context).
Proof.
  apply boundaries_pass_answers. reflexivity.
Defined.

(** A not-found middleware in front of an error middleware: whatever the
    rest of the chain throws, a 404 included, is caught by the error
    middleware, and once its page is rendered the not-found middleware has
    nothing left to catch. *)
Theorem error_boundary_shadows_not_found
    (notFoundComponents errorComponents : list AnyComponent)
    (notFoundHandler errorHandler : option HandlerFn)
    (next : Next) (ctx ctx1 ctx2 : FreshContext) (res : Outcome)
    (err : Thrown) (page : Returned) :
  next ctx = (res, ctx1) ->
  await res = Throw err ->
  renderMiddleware errorComponents errorHandler next (set_error ctx1 err)
  = (Fulfilled page, ctx2) ->
  notFoundMiddleware notFoundComponents notFoundHandler
    (errorMiddleware errorComponents errorHandler next) ctx
  = (Fulfilled page, ctx2).
Proof.
  intros Hnext Hres Hpage.
  unfold notFoundMiddleware, errorMiddleware.
  rewrite Hnext, Hres, Hpage. reflexivity.
Qed.

Lemma error_boundary_shadows_not_found_witness :
  notFoundMiddleware [Samples.Page] None
    (errorMiddleware [Samples.ErrorPage] None
       (Samples.failing_next (HttpError 404 "Not Found")))
    Samples.sample_context
  = (Fulfilled (Resp {| status := 200;
                        headers := [("Content-Type", "text/html; charset=utf-8")];
                        body := Some "<c3 error></c3>" |}),
     set_error Samples.sample_context (HttpError 404 "Not Found")).
Proof.
  apply (error_boundary_shadows_not_found [Samples.Page] [Samples.ErrorPage]
           None None (Samples.failing_next (HttpError 404 "Not Found"))
           Samples.sample_context Samples.sample_context
           (set_error Samples.sample_context (HttpError 404 "Not Found"))
           (Rejected (HttpError 404 "Not Found")) (HttpError 404 "Not Found"));
    reflexivity.
Defined.

(** The page of an error boundary made of function components: every
    component of its chain is rendered with the thrown value as its [error]
    prop, and the context that comes back holds the same value. *)
Theorem error_page_receives_error (id : nat) (ids : list nat) (next : Next)
    (ctx ctx1 : FreshContext) (res : Outcome) (err : Thrown) :
  next ctx = (res, ctx1) ->
  await res = Throw err ->
  errorMiddleware (map FunctionComponent (id :: ids)) None next ctx
  = (match ctx_render ctx1
             (nested_vnode (id :: ids) (ctx_url ctx1) (ctx_params ctx1)
                (Some err) None) with
     | Normal response => Fulfilled (Resp response)
     | Throw e => Rejected e
     end, set_error ctx1 err).
Proof.
  intros Hnext Hres. unfold errorMiddleware. rewrite Hnext, Hres.
  unfold renderMiddleware.
  rewrite (renderMiddleware_vnode_functions (id :: ids)).
  simpl. destruct (ctx_render ctx1 _); reflexivity.
Qed.

Lemma error_page_receives_error_witness :
  errorMiddleware (map FunctionComponent [0%nat; 3%nat]) None
    (Samples.failing_next (OtherThrown "boom")) Samples.sample_context
  = (Fulfilled (Resp {| status := 200;
                        headers := [("Content-Type", "text/html; charset=utf-8")];
                        body := Some "<c0 error><c3 error></c3></c0>" |}),
     set_error Samples.sample_context (OtherThrown "boom")).
Proof.
  apply (error_page_receives_error 0 [3%nat]
           (Samples.failing_next (OtherThrown "boom")) Samples.sample_context
           Samples.sample_context (Rejected (OtherThrown "boom"))
           (OtherThrown "boom")); reflexivity.
Defined.

(** ** Collapsing slashes *)

Section Collapsing.

Lemma collapseSlashes_cons (c : ascii) (rest : string) :
  collapseSlashes (String c rest)
  = if Ascii.eqb c "/" then
      match rest with
      | String c' _ =>
          if Ascii.eqb c' "/" then collapseSlashes rest
          else String "/" (collapseSlashes rest)
      | EmptyString => String "/" EmptyString
      end
    else String c (collapseSlashes rest).
Proof. reflexivity. Qed.

Lemma hasDoubleSlash_cons (a b : ascii) (s : string) :
  hasDoubleSlash (String a (String b s))
  = (Ascii.eqb a "/" && Ascii.eqb b "/") || hasDoubleSlash (String b s).
Proof. reflexivity. Qed.

Lemma collapseSlashes_head (c : ascii) (s : string) :
  exists t, collapseSlashes (String c s) = String c t.
Proof.
  revert c. induction s as [|c' s IH]; intros c;
    rewrite collapseSlashes_cons; cbv iota beta.
  - destruct (Ascii.eqb_spec c "/") as [->|]; eauto.
  - destruct (Ascii.eqb_spec c "/") as [->|]; [|eauto].
    destruct (Ascii.eqb_spec c' "/") as [->|]; [|eauto].
    apply (IH "/"%char).
Qed.

Lemma collapseSlashes_clean (s : string) :
  hasDoubleSlash s = false -> collapseSlashes s = s.
Proof.
  induction s as [|c s IH]; [reflexivity|].
  intros Hclean. rewrite collapseSlashes_cons.
  destruct s as [|c' s]; cbv iota beta.
  - destruct (Ascii.eqb_spec c "/") as [->|]; reflexivity.
  - rewrite hasDoubleSlash_cons in Hclean.
    apply orb_false_iff in Hclean as [Hpair Hrest].
    rewrite (IH Hrest).
    destruct (Ascii.eqb_spec c "/") as [->|]; [|reflexivity].
    simpl in Hpair. now rewrite Hpair.
Qed.

Lemma collapseSlashes_no_double (s : string) :
  hasDoubleSlash (collapseSlashes s) = false.
Proof.
  induction s as [|c s IH]; [reflexivity|].
  rewrite collapseSlashes_cons.
  destruct s as [|c' s]; cbv iota beta.
  - destruct (Ascii.eqb c "/"); reflexivity.
  - destruct (collapseSlashes_head c' s) as (t & Ht).
    rewrite Ht in *.
    destruct (Ascii.eqb c "/") eqn:Hc.
    + destruct (Ascii.eqb c' "/") eqn:Hc'; [exact IH|].
      rewrite hasDoubleSlash_cons, Hc', andb_false_r. exact IH.
    + rewrite hasDoubleSlash_cons, Hc. exact IH.
Qed.


End Collapsing.

(** Replacing every run of slashes by one slash, as the request handler
    does with the path of the URL and [redirect] with the path of its
    target: the result never holds two slashes in a row, and a string that
    holds none comes back unchanged, so that collapsing twice is collapsing
    once. *)
Theorem collapseSlashes_normal_form (s : string) :
  hasDoubleSlash (collapseSlashes s) = false
  /\ (hasDoubleSlash s = false -> collapseSlashes s = s)
  /\ collapseSlashes (collapseSlashes s) = collapseSlashes s.
Proof.
  split; [apply collapseSlashes_no_double|].
  split; [apply collapseSlashes_clean|].
  apply collapseSlashes_clean, collapseSlashes_no_double.
Qed.

(** ** The redirect helper *)

Section RedirectProperties.



















End RedirectProperties.


(** The target named by the documentation of [redirect]. *)
Example redirect_evil_example :
  redirect "//evil.example/x" None
  = Normal {| status := 302; headers := [("location", "/evil.example/x")];
              body := None |}.
Proof. reflexivity. Qed.







(** The sample component that redirects answers with what [redirect]
    gives. *)
Example login_redirect_is_redirect :
  redirect "/login" None = Normal MoreSamples.login_redirect.
Proof. reflexivity. Qed.

(** The status is converted to an unsigned short before it is checked. *)
Example redirect_status_conversion :
  redirect "/login" (Some 65838) = Normal MoreSamples.login_redirect
  /\ redirect "/login" (Some (-1)) = Throw RangeError
  /\ redirect "/login" (Some 600) = Throw RangeError
  /\ status <$> match redirect "/login" (Some 599) with
                | Normal response => Some response
                | Throw _ => None
                end = Some 599.
Proof. repeat split; reflexivity. Qed.

(** ** More on the request handler *)

Lemma App_handler_general_path_contained_witness :
  ~ escapes
      (App_handler MoreSamples.status_text
         (MoreSamples.guarded_router (OtherThrown "boom"))
         runMiddlewares_spec Samples.render_text
         (MoreSamples.get_request "/admin")).
Proof.
  destruct (App_handler_general_path_contained MoreSamples.status_text
              (MoreSamples.guarded_router (OtherThrown "boom"))
              runMiddlewares_spec Samples.render_text
              (MoreSamples.get_request "/admin")) as [_ Hrejected].
  - intros [fn Hfn]. discriminate Hfn.
  - intros Hescapes. apply Hrejected in Hescapes.
    destruct Hescapes as (st & message & Hthrown & _).
    discriminate Hthrown.
Defined.

(** An [HttpError] with the status 204 on the general path: [new Response]
    refuses a body with that status, and the promise of the handler is
    rejected with what it throws. *)
Example App_handler_general_path_refused_status :
  App_handler MoreSamples.status_text
    (MoreSamples.guarded_router (HttpError 204 "No Content"))
    runMiddlewares_spec Samples.render_text (MoreSamples.get_request "/admin")
  = Rejected TypeError.
Proof. reflexivity. Qed.

(** A request that the router has no handlers for: when [runMiddlewares]
    on an empty chain ends in [ctx.next()], the answer is a response with
    status 405 and the message of that error if a pattern matched the path
    but not the method, and with status 404 and its message otherwise. *)
Theorem App_handler_unmatched (HttpError_message : Z -> string)
    (router_match : string -> string -> Matched)
    (runMiddlewares : list (list MiddlewareFn) -> Next -> Next)
    (render : VNode -> Completion Response) (req : Request) :
  let matched := router_match (toUpperCase (req_method req))
                   (collapseSlashes (req_pathname req)) in
  m_handlers matched = [] ->
  (forall next ctx, await (fst (runMiddlewares [] next ctx))
                    = await (fst (next ctx))) ->
  App_handler HttpError_message router_match runMiddlewares render req
  = let st := if patternMatch matched && negb (methodMatch matched)
              then 405 else 404 in
    Fulfilled (Resp {| status := st;
                       headers := [("content-type", "text/plain;charset=UTF-8")];
                       body := Some (HttpError_message st) |}).
Proof.
  intros matched Hnone Hrun. unfold App_handler. fold matched.
  rewrite Hnone, Hrun.
  destruct (patternMatch matched && negb (methodMatch matched)); reflexivity.
Qed.

Lemma App_handler_unmatched_witness :
  App_handler MoreSamples.status_text MoreSamples.wrong_method_router
    runMiddlewares_spec Samples.render_text (MoreSamples.get_request "/admin")
  = Fulfilled (Resp {| status := 405;
                       headers := [("content-type", "text/plain;charset=UTF-8")];
                       body := Some "Method Not Allowed" |}).
Proof.
  apply (App_handler_unmatched MoreSamples.status_text
           MoreSamples.wrong_method_router runMiddlewares_spec
           Samples.render_text (MoreSamples.get_request "/admin")).
  - reflexivity.
  - intros next ctx. unfold runMiddlewares_spec. simpl.
    destruct (next ctx) as [[e|v|e] ctx1]; reflexivity.
Defined.

(** Without a build snapshot the handler never looks at the request, the
    router or the chain: every request is answered with status 500 and an
    HTML body, the page depending only on whether a deployment id is
    set. *)
Theorem App_build_handler_without_snapshot (DENO_DEPLOYMENT_ID : option string)
    (FinishSetup_html ForgotBuild_html : string) (fromSnapshot : BuildCache)
    (HttpError_message : Z -> string)
    (router_match : string -> string -> Matched)
    (runMiddlewares : list (list MiddlewareFn) -> Next -> Next)
    (render : VNode -> Completion Response)
    (buildCache : option BuildCache) (req : Request) :
  hasSnapshot (match buildCache with Some cache => cache | None => fromSnapshot end)
  = false ->
  snd (App_build_handler DENO_DEPLOYMENT_ID FinishSetup_html ForgotBuild_html
         fromSnapshot HttpError_message router_match runMiddlewares render
         buildCache) req
  = Fulfilled (Resp {| status := 500;
                       headers := [("content-type", "text/html; charset=utf-8")];
                       body := Some (if truthy DENO_DEPLOYMENT_ID
                                     then FinishSetup_html
                                     else ForgotBuild_html) |}).
Proof.
  intros Hmissing. unfold App_build_handler. rewrite Hmissing. reflexivity.
Qed.

Lemma App_build_handler_without_snapshot_witness :
  snd (App_build_handler None "finish setup" "forgot build"
         {| hasSnapshot := false |} MoreSamples.status_text
         (MoreSamples.guarded_router (OtherThrown "boom")) runMiddlewares_spec
         Samples.render_text None) (MoreSamples.get_request "/admin")
  = Fulfilled (Resp {| status := 500;
                       headers := [("content-type", "text/html; charset=utf-8")];
                       body := Some "forgot build" |}).
Proof.
  apply (App_build_handler_without_snapshot None "finish setup" "forgot build"
           {| hasSnapshot := false |} MoreSamples.status_text
           (MoreSamples.guarded_router (OtherThrown "boom")) runMiddlewares_spec
           Samples.render_text None (MoreSamples.get_request "/admin")).
  reflexivity.
Defined.

(** ** Mounting an application *)

Section MountingProperties.

Variable mergePaths : string -> string -> string.

Lemma fold_Router_add {A : Type} (method : A -> RouteMethod)
    (pathname : A -> RoutePath) (handlers : A -> list MiddlewareFn)
    (l : list A) (router : Router) :
  fold_left (fun router x => Router_add router (method x) (pathname x) (handlers x))
    l router
  = {| _routes := _routes router
                  ++ map (fun x => {| route_method := method x;
                                      route_path := pathname x;
                                      route_handlers := handlers x |}) l;
       _middlewares := _middlewares router |}.
Proof.
  revert router. induction l as [|x l IH]; intros router; simpl.
  - rewrite app_nil_r. now destruct router.
  - rewrite IH. simpl. now rewrite <- app_assoc.
Qed.

End MountingProperties.

(** Mounting an application under a path other than [/] and [*]: the
    global middlewares of the host are left alone, the routes of the host
    stay in front, and every route of the mounted application is added,
    in order and under the merged path, with the global middlewares of the
    mounted application in front of its own handlers. *)
Theorem mountApp_scopes_middlewares (mergePaths : string -> string -> string)
    (this app : AppState) (pathname : string) :
  pathname <> "*" -> pathname <> "/" ->
  let mounted := App_mountApp mergePaths this pathname app in
  _middlewares (app_router mounted) = _middlewares (app_router this)
  /\ _routes (app_router mounted)
     = _routes (app_router this)
       ++ map (fun route =>
                 {| route_method := route_method route;
                    route_path := mounted_path mergePaths pathname route;
                    route_handlers := _middlewares (app_router app)
                                      ++ route_handlers route |})
            (_routes (app_router app)).
Proof.
  intros Hstar Hroot mounted. subst mounted. unfold App_mountApp.
  apply String.eqb_neq in Hstar, Hroot. rewrite Hstar, Hroot. simpl.
  rewrite (fold_Router_add route_method (mounted_path mergePaths pathname)
             (fun route => _middlewares (app_router app) ++ route_handlers route)).
  split; reflexivity.
Qed.

Lemma mountApp_scopes_middlewares_witness :
  _middlewares (app_router (App_mountApp MoreSamples.join_paths
                              MoreSamples.empty_app "/admin" MoreSamples.admin_app))
  = []
  /\ _routes (app_router (App_mountApp MoreSamples.join_paths
                            MoreSamples.empty_app "/admin" MoreSamples.admin_app))
     = [{| route_method := OnMethod GET;
           route_path := StringPath "/admin/users";
           route_handlers := [ExportedFn Samples.passThrough;
                              RenderMiddleware [Samples.Page] None] |}].
Proof.
  apply (mountApp_scopes_middlewares MoreSamples.join_paths
           MoreSamples.empty_app MoreSamples.admin_app "/admin");
    discriminate.
Defined.

(** Mounting an application at [/] or [*]: its global middlewares become
    global middlewares of the host, behind the host's own, and its routes
    are added with their handlers as they are. *)
Theorem mountApp_at_root_shares_middlewares
    (mergePaths : string -> string -> string)
    (this app : AppState) (pathname : string) :
  pathname = "*" \/ pathname = "/" ->
  let mounted := App_mountApp mergePaths this pathname app in
  _middlewares (app_router mounted)
  = _middlewares (app_router this) ++ _middlewares (app_router app)
  /\ _routes (app_router mounted)
     = _routes (app_router this)
       ++ map (fun route =>
                 {| route_method := route_method route;
                    route_path := mounted_path mergePaths pathname route;
                    route_handlers := route_handlers route |})
            (_routes (app_router app)).
Proof.
  intros Hself mounted. subst mounted. unfold App_mountApp.
  assert (Hflag : String.eqb pathname "*" || String.eqb pathname "/" = true)
    by (destruct Hself as [-> | ->]; reflexivity).
  rewrite Hflag. simpl.
  rewrite (fold_Router_add route_method (mounted_path mergePaths pathname)
             route_handlers).
  destruct (_middlewares (app_router app)) as [|fn fns]; simpl.
  - rewrite app_nil_r. split; [reflexivity|now destruct (app_router this)].
  - split; reflexivity.
Qed.

Lemma mountApp_at_root_shares_middlewares_witness :
  _middlewares (app_router (App_mountApp MoreSamples.join_paths
                              MoreSamples.empty_app "/" MoreSamples.admin_app))
  = [ExportedFn Samples.passThrough]
  /\ _routes (app_router (App_mountApp MoreSamples.join_paths
                            MoreSamples.empty_app "/" MoreSamples.admin_app))
     = [{| route_method := OnMethod GET; route_path := StringPath "/users";
           route_handlers := [RenderMiddleware [Samples.Page] None] |}].
Proof.
  apply (mountApp_at_root_shares_middlewares MoreSamples.join_paths
           MoreSamples.empty_app MoreSamples.admin_app "/").
  right; reflexivity.
Defined.

(** The islands of a mounted application are islands of the host, and
    where both know a component the entry of the mounted application
    replaces the host's. *)
Theorem mountApp_islands (mergePaths : string -> string -> string)
    (this app : AppState) (pathname : string) (fn : nat) :
  app_islandRegistry (App_mountApp mergePaths this pathname app) !! fn
  = match app_islandRegistry app !! fn with
    | Some island => Some island
    | None => app_islandRegistry this !! fn
    end.
Proof.
  unfold App_mountApp. simpl. rewrite lookup_union.
  destruct (app_islandRegistry app !! fn), (app_islandRegistry this !! fn);
    reflexivity.
Qed.

(** ** The bundle output *)

Section BundleProperties.

Variable path_relative : string -> string -> string.
Variable path_join : string -> string -> string.
Variable cwd : string.
Variable names : gmap string string.

Local Abbreviation step := (bundle_output_step path_join cwd names).

Lemma bundle_fold_dependencies (outputs : list (string * MetaOutput))
    (maps : gmap (option string) string * gmap string (list string))
    (k : string) (l : list string) :
  snd (fold_left step outputs maps) !! k = Some l ->
  snd maps !! k = Some l
  \/ exists entry, In (k, entry) outputs /\ l = statement_imports entry.
Proof.
  revert maps. induction outputs as [|[entryPath entry] outputs IH];
    intros maps Hk; simpl in *; [now left|].
  destruct (IH _ Hk) as [Hstep|(e & Hin & ->)]; [|right; eauto].
  assert (Hdeps : snd (step maps (entryPath, entry))
                  = <[entryPath := statement_imports entry]> (snd maps)).
  { unfold bundle_output_step. destruct maps as [chunks deps].
    destruct (meta_entryPoint entry);
      [destruct (negb (String.eqb entryPath "fresh-runtime.js"))|];
      reflexivity. }
  rewrite Hdeps in Hstep.
  destruct (decide (entryPath = k)) as [->|Hne].
  - rewrite lookup_insert_eq in Hstep. injection Hstep as <-.
    right. exists entry. split; [now left|reflexivity].
  - rewrite lookup_insert_ne in Hstep by exact Hne. now left.
Qed.

Lemma bundle_fold_dependencies_dom (outputs : list (string * MetaOutput))
    (maps : gmap (option string) string * gmap string (list string))
    (k : string) :
  is_Some (snd maps !! k) \/ In k (map fst outputs) ->
  is_Some (snd (fold_left step outputs maps) !! k).
Proof.
  revert maps. induction outputs as [|[entryPath entry] outputs IH];
    intros maps Hk; simpl in *; [destruct Hk as [Hk|[]]; exact Hk|].
  apply IH.
  assert (Hdeps : snd (step maps (entryPath, entry))
                  = <[entryPath := statement_imports entry]> (snd maps)).
  { unfold bundle_output_step. destruct maps as [chunks deps].
    destruct (meta_entryPoint entry);
      [destruct (negb (String.eqb entryPath "fresh-runtime.js"))|];
      reflexivity. }
  rewrite Hdeps.
  destruct (decide (entryPath = k)) as [->|Hne].
  - left. rewrite lookup_insert_eq. eauto.
  - rewrite lookup_insert_ne by exact Hne.
    destruct Hk as [Hk|[Hk|Hk]]; [now left|congruence|now right].
Qed.

Lemma bundle_fold_chunks (outputs : list (string * MetaOutput))
    (maps : gmap (option string) string * gmap string (list string))
    (name : option string) (chunk : string) :
  fst (fold_left step outputs maps) !! name = Some chunk ->
  fst maps !! name = Some chunk
  \/ (chunk <> "fresh-runtime.js"
      /\ exists entry entryPoint,
           In (chunk, entry) outputs
           /\ meta_entryPoint entry = Some entryPoint
           /\ names !! path_join cwd entryPoint = name).
Proof.
  revert maps. induction outputs as [|[entryPath entry] outputs IH];
    intros maps Hk; simpl in *; [now left|].
  destruct (IH _ Hk) as [Hstep|(Hrt & e & ep & Hin & Hep & Hname)].
  - unfold bundle_output_step in Hstep. destruct maps as [chunks deps].
    destruct (meta_entryPoint entry) as [entryPoint|] eqn:Hentry;
      [|now left].
    destruct (String.eqb_spec entryPath "fresh-runtime.js") as [Hrt|Hrt];
      simpl in Hstep; [now left|].
    destruct (decide (names !! path_join cwd entryPoint = name)) as [Heq|Hne].
    + rewrite Heq, lookup_insert_eq in Hstep. injection Hstep as <-.
      right. split; [exact Hrt|]. exists entry, entryPoint.
      split; [now left|]. split; assumption.
    + rewrite lookup_insert_ne in Hstep by exact Hne. now left.
  - right. split; [exact Hrt|]. exists e, ep. split; [now right|]. now split.
Qed.

End BundleProperties.

(** The dependencies of the build output: there is an entry for every
    output of the metafile and for nothing else, and the dependencies
    recorded for an output are the paths of the imports that one of its
    metafile entries makes by import statements, in their order. *)
Theorem bundle_dependencies (path_relative path_join : string -> string -> string)
    (cwd metafile_json : string) (entryPoints : list (string * string))
    (outputFiles : list OutputFile) (outputs : list (string * MetaOutput))
    (k : string) :
  let out := bundle_output path_relative path_join cwd entryPoints outputFiles
               metafile_json (Some outputs) in
  (is_Some (dependencies out !! k) <-> In k (map fst outputs))
  /\ (forall l, dependencies out !! k = Some l ->
        exists entry, In (k, entry) outputs /\ l = statement_imports entry).
Proof.
  intros out. subst out. unfold bundle_output.
  destruct (fold_left _ outputs (∅, ∅)) as [chunks deps] eqn:Hfold. simpl.
  assert (Hdeps : deps = snd (fold_left
                                (bundle_output_step path_join cwd
                                   (entryToName entryPoints)) outputs (∅, ∅)))
    by now rewrite Hfold.
  split; [split|].
  - intros [l Hl]. rewrite Hdeps in Hl.
    apply bundle_fold_dependencies in Hl as [Hl|(entry & Hin & _)].
    + simpl in Hl. rewrite lookup_empty in Hl. discriminate Hl.
    + apply in_map_iff. now exists (k, entry).
  - intros Hin. rewrite Hdeps. apply bundle_fold_dependencies_dom. now right.
  - intros l Hl. rewrite Hdeps in Hl.
    apply bundle_fold_dependencies in Hl as [Hl|Hl]; [|exact Hl].
    simpl in Hl. rewrite lookup_empty in Hl. discriminate Hl.
Qed.

(** The chunks of the build output: a chunk recorded under a name is an
    output of the metafile that has an entry point, the name is the one the
    options give to the file of that entry point, and [fresh-runtime.js] is
    never recorded. *)
Theorem bundle_entry_chunks (path_relative path_join : string -> string -> string)
    (cwd metafile_json : string) (entryPoints : list (string * string))
    (outputFiles : list OutputFile)
    (metafile : option (list (string * MetaOutput)))
    (name : option string) (chunk : string) :
  entryToChunk (bundle_output path_relative path_join cwd entryPoints outputFiles
                  metafile_json metafile) !! name = Some chunk ->
  chunk <> "fresh-runtime.js"
  /\ exists outputs entry entryPoint,
       metafile = Some outputs
       /\ In (chunk, entry) outputs
       /\ meta_entryPoint entry = Some entryPoint
       /\ entryToName entryPoints !! path_join cwd entryPoint = name.
Proof.
  unfold bundle_output. destruct metafile as [outputs|]; simpl;
    [|rewrite lookup_empty; discriminate].
  destruct (fold_left _ outputs (∅, ∅)) as [chunks deps] eqn:Hfold. simpl.
  intros Hchunk.
  assert (Hchunks : chunks = fst (fold_left
                                    (bundle_output_step path_join cwd
                                       (entryToName entryPoints)) outputs (∅, ∅)))
    by now rewrite Hfold.
  rewrite Hchunks in Hchunk.
  apply bundle_fold_chunks in Hchunk
    as [Hchunk|(Hrt & entry & entryPoint & Hin & Hep & Hname)].
  - simpl in Hchunk. rewrite lookup_empty in Hchunk. discriminate Hchunk.
  - split; [exact Hrt|]. exists outputs, entry, entryPoint. auto.
Qed.

Lemma bundle_entry_chunks_witness :
  "Counter.js" <> "fresh-runtime.js"
  /\ exists outputs entry entryPoint,
       Some MoreSamples.counter_outputs = Some outputs
       /\ In ("Counter.js", entry) outputs
       /\ meta_entryPoint entry = Some entryPoint
       /\ entryToName MoreSamples.counter_entryPoints
            !! MoreSamples.join_dir "/app" entryPoint = Some "Counter".
Proof.
  apply (bundle_entry_chunks MoreSamples.strip_dir MoreSamples.join_dir "/app"
           "{}" MoreSamples.counter_entryPoints []
           (Some MoreSamples.counter_outputs) (Some "Counter") "Counter.js").
  vm_compute. reflexivity.
Defined.

Example bundle_output_counter :
  let out := bundle_output MoreSamples.strip_dir MoreSamples.join_dir "/app"
               MoreSamples.counter_entryPoints [] "{}"
               (Some MoreSamples.counter_outputs) in
  dependencies out !! "Counter.js" = Some ["chunk-AAA.js"]
  /\ entryToChunk out !! Some "fresh-runtime" = None
  /\ map file_path (files out) = ["metafile.json"].
Proof. repeat split; vm_compute; reflexivity. Qed.

(** ** Route groups *)

Section RouteGroups.

Lemma GROUP_REG_name_closed (name acc rest : string) (sep : ascii) :
  is_separator sep = true ->
  every_char not_separator name = true ->
  acc +:+ name <> "" ->
  GROUP_REG_name (name +:+ String ")" (String sep rest)) acc
  = Some ("_" +:+ acc +:+ name).
Proof.
  intros Hsep. revert acc.
  induction name as [|c name IH]; intros acc Hname Hne.
  - rewrite append_empty_r in Hne. rewrite append_empty_r.
    change ("" +:+ String ")" (String sep rest))
      with (String ")" (String sep rest)).
    cbn [GROUP_REG_name]. rewrite Hsep.
    change (is_separator ")") with false. cbv iota.
    change (Ascii.eqb ")" ")") with true.
    destruct (String.eqb_spec acc "") as [->|_]; [congruence|].
    reflexivity.
  - cbn [every_char] in Hname. apply andb_true_iff in Hname as [Hc Hname].
    unfold not_separator in Hc. apply negb_true_iff in Hc.
    change (String c name +:+ String ")" (String sep rest))
      with (String c (name +:+ String ")" (String sep rest))).
    cbn [GROUP_REG_name]. rewrite Hc.
    rewrite IH; [| exact Hname |].
    + rewrite String_append_assoc. reflexivity.
    + rewrite String_append_assoc. simpl. destruct acc; discriminate.
Qed.

Lemma GROUP_REG_group_folder (name rest : string) :
  name <> "" ->
  every_char not_separator name = true ->
  GROUP_REG_group ("(_" +:+ name +:+ ")/" +:+ rest) = Some ("_" +:+ name).
Proof.
  intros Hne Hname.
  change ("(_" +:+ name +:+ ")/" +:+ rest)
    with (String "(" (String "_" (name +:+ String ")" (String "/" rest)))).
  cbn [GROUP_REG_group].
  change (Ascii.eqb "(" "(" && Ascii.eqb "_" "_") with true. cbv iota.
  rewrite GROUP_REG_name_closed; auto.
Qed.

Lemma GROUP_REG_group_underscore (s group : string) :
  GROUP_REG_group s = Some group -> chr_is (charAt group 0) "_" = true.
Proof.
  assert (Hname : forall t acc,
    GROUP_REG_name t acc = Some group -> chr_is (charAt group 0) "_" = true).
  { induction t as [|c t IH]; intros acc; cbn [GROUP_REG_name]; [discriminate|].
    destruct (is_separator c); [discriminate|].
    destruct (GROUP_REG_name t (acc +:+ String c "")) eqn:Hrec.
    - intros [= <-]. eauto.
    - destruct (_ && _); [|discriminate]. intros [= <-]. reflexivity. }
  destruct s as [|c [|d s]]; cbn [GROUP_REG_group]; try discriminate.
  destruct (_ && _); [|discriminate]. apply Hname.
Qed.

Lemma GROUP_REG_match_underscore (s group : string) :
  GROUP_REG_match s = Some group -> chr_is (charAt group 0) "_" = true.
Proof.
  unfold GROUP_REG_match.
  destruct (GROUP_REG_group s) eqn:Hhead.
  - intros [= <-]. eauto using GROUP_REG_group_underscore.
  - clear Hhead. induction s as [|c s IH]; cbn [GROUP_REG_after_separator];
      [discriminate|].
    destruct (is_separator c); [|exact IH].
    destruct (GROUP_REG_group s) eqn:Hhead; [|exact IH].
    intros [= <-]. eauto using GROUP_REG_group_underscore.
Qed.

Lemma GROUP_REG_group_no_paren (s : string) :
  every_char not_open_paren s = true -> GROUP_REG_group s = None.
Proof.
  destruct s as [|c [|d s]]; cbn [GROUP_REG_group every_char]; auto.
  unfold not_open_paren. intros H. apply andb_true_iff in H as [Hc _].
  apply negb_true_iff in Hc. rewrite Hc. reflexivity.
Qed.

Lemma GROUP_REG_match_no_paren (s : string) :
  every_char not_open_paren s = true -> GROUP_REG_match s = None.
Proof.
  intros H. unfold GROUP_REG_match. rewrite GROUP_REG_group_no_paren by exact H.
  induction s as [|c s IH]; cbn [GROUP_REG_after_separator]; [reflexivity|].
  cbn [every_char] in H. apply andb_true_iff in H as [_ H].
  rewrite GROUP_REG_group_no_paren by exact H. rewrite IH by exact H.
  destruct (is_separator c); reflexivity.
Qed.

Lemma GROUP_REG_group_clean_folder (dir s : string) :
  every_char not_open_paren dir = true ->
  GROUP_REG_group (dir +:+ String "/" s) = None.
Proof.
  intros H. destruct dir as [|d dir].
  - change ("" +:+ String "/" s) with (String "/" s).
    destruct s; reflexivity.
  - cbn [every_char] in H. apply andb_true_iff in H as [Hd _].
    unfold not_open_paren in Hd. apply negb_true_iff in Hd.
    change (String d dir +:+ String "/" s)
      with (String d (dir +:+ String "/" s)).
    destruct (dir +:+ String "/" s) eqn:Hrest.
    + destruct dir; discriminate.
    + cbn [GROUP_REG_group]. rewrite Hd. reflexivity.
Qed.

(** The leftmost match lies behind a folder without parentheses. *)
Lemma GROUP_REG_after_clean_folder (dir s : string) :
  every_char not_open_paren dir = true ->
  GROUP_REG_after_separator (dir +:+ String "/" s)
  = match GROUP_REG_group s with
    | Some group => Some group
    | None => GROUP_REG_after_separator s
    end.
Proof.
  intros H. induction dir as [|c dir IH].
  - reflexivity.
  - cbn [every_char] in H. apply andb_true_iff in H as [_ H].
    change (String c dir +:+ String "/" s) with (String c (dir +:+ String "/" s)).
    cbn [GROUP_REG_after_separator]. rewrite IH by exact H.
    rewrite GROUP_REG_group_clean_folder by exact H.
    destruct (is_separator c); reflexivity.
Qed.

Lemma GROUP_REG_match_group_path (parent : option string) (name rest : string) :
  match parent with
  | Some dir => every_char not_open_paren dir = true
  | None => True
  end ->
  name <> "" ->
  every_char not_separator name = true ->
  GROUP_REG_match (group_path parent name rest) = Some ("_" +:+ name).
Proof.
  intros Hdir Hne Hname. unfold group_path, GROUP_REG_match.
  destruct parent as [dir|].
  - rewrite String_append_assoc.
    change ("/" +:+ "(_" +:+ name +:+ ")/" +:+ rest)
      with (String "/" ("(_" +:+ name +:+ ")/" +:+ rest)).
    rewrite GROUP_REG_group_clean_folder by exact Hdir.
    rewrite GROUP_REG_after_clean_folder by exact Hdir.
    rewrite GROUP_REG_group_folder by auto. reflexivity.
  - change ("" +:+ "(_" +:+ name +:+ ")/" +:+ rest)
      with ("(_" +:+ name +:+ ")/" +:+ rest).
    rewrite GROUP_REG_group_folder by auto. reflexivity.
Qed.

(** Behind any folder at all, a group folder is found or an earlier one
    is. *)
Lemma GROUP_REG_after_any_folder (dir s : string) :
  GROUP_REG_group s <> None ->
  GROUP_REG_after_separator (dir +:+ String "/" s) <> None.
Proof.
  intros Hs. induction dir as [|c dir IH].
  - change ("" +:+ String "/" s) with (String "/" s).
    cbn [GROUP_REG_after_separator]. change (is_separator "/") with true.
    cbv iota. destruct (GROUP_REG_group s); congruence.
  - change (String c dir +:+ String "/" s) with (String c (dir +:+ String "/" s)).
    cbn [GROUP_REG_after_separator].
    destruct (is_separator c); [|exact IH].
    destruct (GROUP_REG_group (dir +:+ _)); [discriminate|exact IH].
Qed.

Lemma GROUP_REG_match_any_group_path (parent : option string)
    (name rest : string) :
  name <> "" ->
  every_char not_separator name = true ->
  GROUP_REG_match (group_path parent name rest) <> None.
Proof.
  intros Hne Hname. unfold group_path, GROUP_REG_match.
  destruct parent as [dir|].
  - rewrite String_append_assoc.
    change ("/" +:+ "(_" +:+ name +:+ ")/" +:+ rest)
      with (String "/" ("(_" +:+ name +:+ ")/" +:+ rest)).
    destruct (GROUP_REG_group (dir +:+ _)); [discriminate|].
    apply GROUP_REG_after_any_folder.
    rewrite GROUP_REG_group_folder by auto. discriminate.
  - change ("" +:+ "(_" +:+ name +:+ ")/" +:+ rest)
      with ("(_" +:+ name +:+ ")/" +:+ rest).
    rewrite GROUP_REG_group_folder by auto. discriminate.
Qed.

Variable path_relative : string -> string -> string.

(** A file inside a folder [(_name)] of the routes folder, at any depth,
    is never collected as a route: the walk callback leaves
    [relRoutePaths] as it was. *)
Theorem group_folder_files_are_no_routes (routesDir entryPath : string)
    (parent : option string) (name rest : string) (st : Collected) :
  name <> "" ->
  every_char not_separator name = true ->
  path_relative routesDir entryPath = group_path parent name rest ->
  relRoutePaths (routes_callback path_relative routesDir st entryPath)
  = relRoutePaths st.
Proof.
  intros Hne Hname Hrel. unfold routes_callback. rewrite Hrel.
  pose proof (GROUP_REG_match_any_group_path parent name rest Hne Hname) as Hm.
  destruct (GROUP_REG_match _) as [group|] eqn:Hmatch; [|congruence].
  rewrite (GROUP_REG_match_underscore _ _ Hmatch).
  destruct (String.eqb group "_islands"); reflexivity.
Qed.

(** A file inside the first group folder [(_name)] of its relative path
    is collected as an island when the folder is [(_islands)], and is
    dropped otherwise. *)
Theorem islands_folder_collected (routesDir entryPath : string)
    (parent : option string) (name rest : string) (st : Collected) :
  match parent with
  | Some dir => every_char not_open_paren dir = true
  | None => True
  end ->
  name <> "" ->
  every_char not_separator name = true ->
  path_relative routesDir entryPath = group_path parent name rest ->
  routes_callback path_relative routesDir st entryPath
  = if String.eqb name "islands"
    then {| islandPaths := islandPaths st ++ [entryPath];
            relRoutePaths := relRoutePaths st |}
    else st.
Proof.
  intros Hdir Hne Hname Hrel. unfold routes_callback. rewrite Hrel.
  rewrite GROUP_REG_match_group_path by auto.
  reflexivity.
Qed.

(** When no relative path contains an opening parenthesis, the walk of
    an existing routes folder collects every entry as a route, in the order
    of the walk, and no island. *)
Theorem plain_routes_collected (routesDir : string) (entries : list string)
    (st : Collected) :
  Forall (fun entryPath =>
    every_char not_open_paren (path_relative routesDir entryPath) = true)
    entries ->
  walk_routes path_relative routesDir true entries st
  = {| islandPaths := islandPaths st;
       relRoutePaths :=
         relRoutePaths st ++ map (path_relative routesDir) entries |}.
Proof.
  unfold walk_routes, walkDir. revert st.
  induction entries as [|e entries IH]; intros st Hall.
  - simpl. rewrite app_nil_r. destruct st; reflexivity.
  - inversion Hall as [|? ? He Hrest]; subst. cbn [fold_left map].
    rewrite IH by exact Hrest.
    unfold routes_callback. rewrite GROUP_REG_match_no_paren by exact He.
    cbn [islandPaths relRoutePaths]. rewrite <- app_assoc. reflexivity.
Qed.

End RouteGroups.

Lemma group_folder_files_are_no_routes_witness :
  relRoutePaths
    (routes_callback MoreSamples.relative_to "/app/routes"
       MoreSamples.nothing_collected
       "/app/routes/(_islands)/blog/(_components)/Button.tsx")
  = relRoutePaths MoreSamples.nothing_collected.
Proof.
  apply (group_folder_files_are_no_routes MoreSamples.relative_to
           "/app/routes" "/app/routes/(_islands)/blog/(_components)/Button.tsx"
           (Some "(_islands)/blog") "components" "Button.tsx");
    [discriminate | reflexivity | vm_compute; reflexivity].
Defined.

Lemma islands_folder_collected_witness :
  routes_callback MoreSamples.relative_to "/app/routes"
    MoreSamples.nothing_collected "/app/routes/blog/(_islands)/Counter.tsx"
  = {| islandPaths := ["/app/routes/blog/(_islands)/Counter.tsx"];
       relRoutePaths := [] |}.
Proof.
  apply (islands_folder_collected MoreSamples.relative_to
           "/app/routes" "/app/routes/blog/(_islands)/Counter.tsx"
           (Some "blog") "islands" "Counter.tsx");
    [reflexivity | discriminate | reflexivity | vm_compute; reflexivity].
Defined.

Lemma plain_routes_collected_witness :
  walk_routes MoreSamples.relative_to "/app/routes" true
    ["/app/routes/index.tsx"; "/app/routes/blog/[slug].tsx"]
    MoreSamples.nothing_collected
  = {| islandPaths := [];
       relRoutePaths := ["index.tsx"; "blog/[slug].tsx"] |}.
Proof.
  apply (plain_routes_collected MoreSamples.relative_to "/app/routes"
           ["/app/routes/index.tsx"; "/app/routes/blog/[slug].tsx"]
           MoreSamples.nothing_collected).
  repeat constructor.
Defined.

(** A parenthesised folder whose name has no leading underscore is an
    ordinary route group: its files are routes.  A group folder that is
    the last segment of the relative path is none either. *)
Example plain_group_is_collected :
  GROUP_REG_match "(marketing)/about.tsx" = None
  /\ GROUP_REG_match "blog/(_draft)" = None
  /\ GROUP_REG_match "a(_islands)/Counter.tsx" = None
  /\ GROUP_REG_match "blog\(_x)y)\Counter.tsx" = Some "_x)y".
Proof. repeat split; vm_compute; reflexivity. Qed.
